(** * Segment MCP server: error taxonomy, request executor and response renderer

    A shallow embedding of [utils/errors.ts], [utils/formatters.ts] and the
    request helpers of [client.ts], with the properties of the error
    classification and rendering layer proved about it.

    Conventions of the embedding.
    - A JavaScript string is a [string]: a sequence of code units, each an
      [ascii], so the strings carried are those of code units 0..255.
      [toUpperCase] maps every such unit as the platform does, except the
      two whose upper-case form lies above 255 (the micro sign, 181, and y
      with diaeresis, 255): the statements that upper-case a character take
      one that [caseMapped] accepts.
    - A JavaScript number is a [number]: [NaN], an infinity, or an integer
      standing for the Number nearest to it ([nearest]); -0 is identified
      with 0 (both print as 0). Numbers with a fractional part are not
      carried.
    - A value is JSON data or [undefined]. An object is the list of its own
      enumerable properties in the order [Object.keys] enumerates them;
      [objectOf] gives that order from the order the members were written
      in. [get] reads an own property; [read] is the full property access,
      which also finds the members of the built-in prototypes.
    - A function that can throw returns a [Result]; the client, which also
      calls [fetch], runs in the [Net] monad that threads the log of the
      requests sent. *)

From Stdlib Require Import ZArith List String Ascii Bool Lia DecimalString DecimalZ.
Import ListNotations.
Local Open Scope list_scope.
Local Open Scope string_scope.
Set Warnings "-register-all".

(* ===================================================================== *)
(** ** Language built-ins *)
(* ===================================================================== *)

Module Js.

Definition chr (n : N) : ascii := ascii_of_N n.
Definition code (c : ascii) : N := N_of_ascii c.

Definition LF : string := String (chr 10) "".
Definition DQ : string := String (chr 34) "".
Definition BACKSLASH : string := String (chr 92) "".

Definition between (lo hi n : N) : bool := ((lo <=? n) && (n <=? hi))%N.

Definition isUpper (c : ascii) : bool := between 65 90 (code c).
Definition isLower (c : ascii) : bool := between 97 122 (code c).
Definition isDigit (c : ascii) : bool := between 48 57 (code c).
Definition isAlnum (c : ascii) : bool := isUpper c || isLower c || isDigit c.

(** WhiteSpace and LineTerminator code units below 256: TAB, LF, VT, FF, CR,
    SP, NBSP. [trim] and [parseInt] skip these. *)
Definition isWhiteSpace (c : ascii) : bool :=
  let n := code c in
  (between 9 13 n || (n =? 32) || (n =? 160))%N.

(** LineTerminator code units below 256; the regexp atom [.] does not match
    them. *)
Definition isLineTerminator (c : ascii) : bool :=
  let n := code c in ((n =? 10) || (n =? 13))%N.

(** [c.toUpperCase()] on one code unit: a..z and the lower-case letters
    224..254 (the division sign 247 apart) move down by 32, the sharp s
    (223) becomes SS, every other unit is its own upper case. *)
Definition toUpperCaseUnit (c : ascii) : string :=
  let n := code c in
  if between 97 122 n then String (chr (n - 32)) ""
  else if (n =? 223)%N then "SS"
  else if between 224 254 n && negb (n =? 247)%N then String (chr (n - 32)) ""
  else String c "".

(** The units whose upper case is a string of code units below 256: all but
    181 (upper case U+039C) and 255 (upper case U+0178). *)
Definition caseMapped (c : ascii) : bool :=
  negb ((code c =? 181) || (code c =? 255))%N.

Fixpoint toUpperCase (s : string) : string :=
  match s with
  | "" => ""
  | String c r => toUpperCaseUnit c ++ toUpperCase r
  end.

(** [s.charAt(0)] *)
Definition charAt0 (s : string) : string :=
  match s with
  | "" => ""
  | String c _ => String c ""
  end.

(** [s.slice(1)] *)
Definition slice1 (s : string) : string :=
  match s with
  | "" => ""
  | String _ r => r
  end.

Fixpoint trimStart (s : string) : string :=
  match s with
  | "" => ""
  | String c r => if isWhiteSpace c then trimStart r else s
  end.

Fixpoint trimEnd (s : string) : string :=
  match s with
  | "" => ""
  | String c r =>
      let r' := trimEnd r in
      if isWhiteSpace c && (r' =? "") then "" else String c r'
  end.

Definition trim (s : string) : string := trimEnd (trimStart s).

(** [s.includes(needle)] *)
Fixpoint includes (needle s : string) : bool :=
  prefix needle s ||
  match s with
  | "" => false
  | String _ r => includes needle r
  end.

(** [a.join(sep)] on an array of strings. *)
Definition join (sep : string) (l : list string) : string := String.concat sep l.

(** *** Numbers *)

Inductive number : Type :=
| NaN
| Infinity (negative : bool)
| Int (z : Z).

(** The decimal numeral of an integer. *)
Definition decimal (z : Z) : string := NilZero.string_of_int (Z.to_int z).

Definition two53 : Z := Eval vm_compute in (2 ^ 53)%Z.
Definition two1024 : Z := Eval vm_compute in (2 ^ 1024)%Z.

(** The Number nearest to a non-negative integer, as an integer: itself
    below 2^53, else its 53 leading bits rounded to nearest, ties to even;
    [None] when that is beyond the largest Number. *)
Definition nearest (a : Z) : option Z :=
  if (a <? two53)%Z then Some a
  else
    let shift := (Z.log2 a - 52)%Z in
    let q := Z.shiftr a shift in
    let r := (a - Z.shiftl q shift)%Z in
    let half := Z.shiftl 1 (shift - 1) in
    let q' := if ((half <? r) || ((r =? half) && Z.odd q))%Z then (q + 1)%Z else q in
    let m := Z.shiftl q' shift in
    if (two1024 <=? m)%Z then None else Some m.

(** The Number for a mathematical integer. *)
Definition toNumber (z : Z) : number :=
  match nearest (Z.abs z) with
  | Some m => Int (Z.sgn z * m)
  | None => Infinity (z <? 0)%Z
  end.

(** Number::toString on an integer Number at or above 2^53: the digits are
    those of the integer with the fewest significant digits that the Number
    is the nearest to (the closest one, when several have as few). *)
Definition roundsTo (a v : Z) : bool :=
  match nearest v with
  | Some x => (x =? a)%Z
  | None => false
  end.

Definition candidate (a scale : Z) : option Z :=
  let lo := ((a / scale) * scale)%Z in
  let hi := (lo + scale)%Z in
  match roundsTo a lo, roundsTo a hi with
  | true, true =>
      Some (if (a - lo <? hi - a)%Z then lo
            else if (hi - a <? a - lo)%Z then hi
            else if Z.even (lo / scale) then lo else hi)
  | true, false => Some lo
  | false, true => Some hi
  | false, false => None
  end.

Fixpoint shortest (a : Z) (exponents : list nat) : Z :=
  match exponents with
  | [] => a
  | e :: r =>
      match candidate a (10 ^ Z.of_nat e) with
      | Some v => v
      | None => shortest a r
      end
  end.

Fixpoint dropZeros (s : string) : string :=
  match s with
  | "" => ""
  | String c r =>
      let r' := dropZeros r in
      if Ascii.eqb c "0" && (r' =? "") then "" else String c r'
  end.

(** The form with an exponent, for 22 digits and more. *)
Definition exponential (digits : string) : string :=
  let e := "e+" ++ decimal (Z.of_nat (String.length digits) - 1) in
  match dropZeros digits with
  | "" => "0"
  | String d "" => String d e
  | String d r => String d ("." ++ r ++ e)
  end.

(** An integer below 2^53 prints as its decimal numeral. *)
Definition printInteger (a : Z) : string :=
  if (a <? two53)%Z then decimal a
  else
    let d := String.length (decimal a) in
    let digits := decimal (shortest a (rev (seq 0 d))) in
    if (String.length digits <=? 21)%nat then digits else exponential digits.

Definition Number_toString (n : number) : string :=
  match n with
  | NaN => "NaN"
  | Infinity negative => if negative then "-Infinity" else "Infinity"
  | Int z =>
      match nearest (Z.abs z) with
      | Some m => (if (z <? 0)%Z then "-" else "") ++ printInteger m
      | None => if (z <? 0)%Z then "-Infinity" else "Infinity"
      end
  end.

(** [parseInt(s, 10)]: skip leading white space, read an optional sign, then
    the longest run of decimal digits; [NaN] when that run is empty, else
    the Number for the integer read. *)
Fixpoint digitsValue (acc : Z) (s : string) : Z :=
  match s with
  | "" => acc
  | String c r =>
      if isDigit c then digitsValue (10 * acc + Z.of_N (code c - 48)) r else acc
  end.

Definition startsWithDigit (s : string) : bool :=
  match s with
  | "" => false
  | String c _ => isDigit c
  end.

Definition parseInt10 (input : string) : number :=
  let s := trimStart input in
  let '(sign, body) :=
    match s with
    | String c r =>
        if (code c =? 45)%N then ((-1)%Z, r)
        else if (code c =? 43)%N then (1%Z, r)
        else (1%Z, s)
    | "" => (1%Z, s)
    end in
  if startsWithDigit body then toNumber (sign * digitsValue 0 body) else NaN.

(** *** Values *)

Inductive value : Type :=
| Undefined
| Null
| Bool (b : bool)
| Num (n : number)
| Str (s : string)
| Arr (items : list value)
| Obj (props : list (string * value)).

Definition isNullish (v : value) : bool :=
  match v with
  | Undefined | Null => true
  | _ => false
  end.

(** ToBoolean *)
Definition truthy (v : value) : bool :=
  match v with
  | Undefined | Null => false
  | Bool b => b
  | Num NaN => false
  | Num (Infinity _) => true
  | Num (Int z) => negb (z =? 0)%Z
  | Str s => negb (s =? "")
  | Arr _ | Obj _ => true
  end.

(** [typeof v === 'object'] *)
Definition typeofObject (v : value) : bool :=
  match v with
  | Null | Arr _ | Obj _ => true
  | _ => false
  end.

Definition isArray (v : value) : bool :=
  match v with
  | Arr _ => true
  | _ => false
  end.

(** [a || b] and [a ?? b] on values. *)
Definition or_else (a b : value) : value := if truthy a then a else b.
Definition coalesce (a b : value) : value := if isNullish a then b else a.

Fixpoint lookup (k : string) (props : list (string * value)) : option value :=
  match props with
  | [] => None
  | (k', v) :: r => if k' =? k then Some v else lookup k r
  end.

(** The property names an array or a string of length [n] has for its
    elements: the decimal numerals of 0..n-1. *)
Definition indexKeys (n : nat) : list string :=
  map (fun i => decimal (Z.of_nat i)) (seq 0 n).

Fixpoint findIndex (k : string) (keys : list string) (i : nat) : option nat :=
  match keys with
  | [] => None
  | k' :: r => if k' =? k then Some i else findIndex k r (S i)
  end.

Fixpoint units (s : string) : list string :=
  match s with
  | "" => []
  | String c r => String c "" :: units r
  end.

(** *** The order of the keys of an object *)






(** *** JSON.stringify *)

Definition hexLower (n : N) : string :=
  match String.get (N.to_nat n) "0123456789abcdef" with
  | Some c => String c ""
  | None => ""
  end.

Definition quoteUnit (c : ascii) : string :=
  let n := code c in
  if (n =? 8)%N then BACKSLASH ++ "b"
  else if (n =? 9)%N then BACKSLASH ++ "t"
  else if (n =? 10)%N then BACKSLASH ++ "n"
  else if (n =? 12)%N then BACKSLASH ++ "f"
  else if (n =? 13)%N then BACKSLASH ++ "r"
  else if (n =? 34)%N then BACKSLASH ++ DQ
  else if (n =? 92)%N then BACKSLASH ++ BACKSLASH
  else if (n <? 32)%N then BACKSLASH ++ "u00" ++ hexLower (n / 16) ++ hexLower (n mod 16)
  else String c "".

Fixpoint quoteBody (s : string) : string :=
  match s with
  | "" => ""
  | String c r => quoteUnit c ++ quoteBody r
  end.

Definition quote (s : string) : string := DQ ++ quoteBody s ++ DQ.

(** An array or object at indentation [indent]: on one line when the gap is
    empty, else one part per line, indented by one more gap. *)
Definition wrapBlock (op cl gap indent : string) (parts : list string) : string :=
  match parts with
  | [] => op ++ cl
  | _ =>
      if gap =? "" then op ++ join "," parts ++ cl
      else
        let inner := indent ++ gap in
        op ++ LF ++ inner ++ join ("," ++ LF ++ inner) parts ++ LF ++ indent ++ cl
  end.

(** A finite number serializes as [Number::toString] prints it, [NaN] and
    the infinities as [null]. *)
Definition serializeNumber (n : number) : string :=
  match n with
  | NaN | Infinity _ => "null"
  | Int z =>
      match nearest (Z.abs z) with
      | Some _ => Number_toString n
      | None => "null"
      end
  end.

(** [None] is the [undefined] that [JSON.stringify] returns for a value with
    no JSON form; inside an array it becomes [null], inside an object the
    property is left out. *)
Fixpoint serialize (gap indent : string) (v : value) : option string :=
  match v with
  | Undefined => None
  | Null => Some "null"
  | Bool b => Some (if b then "true" else "false")
  | Num n => Some (serializeNumber n)
  | Str s => Some (quote s)
  | Arr items =>
      Some (wrapBlock "[" "]" gap indent
              (map (fun x => match serialize gap (indent ++ gap) x with
                             | Some t => t
                             | None => "null"
                             end) items))
  | Obj props =>
      Some (wrapBlock "{" "}" gap indent
              (flat_map (fun kv => match serialize gap (indent ++ gap) (snd kv) with
                                   | Some t =>
                                       [quote (fst kv)
                                          ++ (if gap =? "" then ":" else ": ") ++ t]
                                   | None => []
                                   end) props))
  end.

(** [JSON.stringify(v)] *)
Definition JSON_stringify (v : value) : option string := serialize "" "" v.

(** [JSON.stringify(v, null, 2)] *)
Definition JSON_stringify_2 (v : value) : option string := serialize "  " "" v.

End Js.
(* ===================================================================== *)
(** ** utils/errors.ts *)
(* ===================================================================== *)

Module Errors.
Import Js.

(** The class of an instance, with the fields the subclass adds. *)
Inductive Subclass : Type :=
| Base
| RateLimit (retryAfterSeconds : number)
| Authentication
| NotFound
| Validation (details : list (string * list string))
| MissingCredentials.

(** An instance of [SegmentApiError] or of one of its subclasses. *)
Record SegmentApiError : Type := mkSegmentApiError {
  name : string;
  message : string;
  statusCode : option number;
  code : string;
  retryable : bool;
  subclass : Subclass
}.

(** [constructor(message, statusCode?, code?, retryable = false)];
    [code || 'SEGMENT_ERROR'] also replaces an empty code. *)
Definition new_SegmentApiError (message : string) (statusCode : option number)
  (code : option string) (retryable : option bool) : SegmentApiError :=
  {| name := "SegmentApiError";
     message := message;
     statusCode := statusCode;
     code := match code with
             | Some c => if c =? "" then "SEGMENT_ERROR" else c
             | None => "SEGMENT_ERROR"
             end;
     retryable := match retryable with
                  | Some b => b
                  | None => false
                  end;
     subclass := Base |}.

(** What a subclass constructor does after [super(...)]: it renames the
    instance and sets its own fields. *)
Definition derive (this : SegmentApiError) (name' : string) (sub : Subclass)
  : SegmentApiError :=
  {| name := name';
     message := message this;
     statusCode := statusCode this;
     code := code this;
     retryable := retryable this;
     subclass := sub |}.

Definition new_RateLimitError (message : string) (retryAfterSeconds : number)
  : SegmentApiError :=
  derive (new_SegmentApiError message (Some (Int 429)) (Some "RATE_LIMIT_EXCEEDED") (Some true))
    "RateLimitError" (RateLimit retryAfterSeconds).

Definition new_AuthenticationError (message : string) : SegmentApiError :=
  derive (new_SegmentApiError message (Some (Int 401)) (Some "AUTHENTICATION_FAILED") (Some false))
    "AuthenticationError" Authentication.

Definition new_NotFoundError (entityType id : string) : SegmentApiError :=
  derive (new_SegmentApiError (entityType ++ " with ID '" ++ id ++ "' not found")
            (Some (Int 404)) (Some "NOT_FOUND") (Some false))
    "NotFoundError" NotFound.

Definition new_ValidationError (message : string)
  (details : option (list (string * list string))) : SegmentApiError :=
  derive (new_SegmentApiError message (Some (Int 400)) (Some "VALIDATION_ERROR") (Some false))
    "ValidationError"
    (Validation (match details with
                 | Some d => d
                 | None => []
                 end)).

Definition new_MissingCredentialsError (requiredCredential : string) : SegmentApiError :=
  derive (new_SegmentApiError
            ("Missing required credential: " ++ requiredCredential
               ++ ". Please provide it via request headers.")
            (Some (Int 401)) (Some "MISSING_CREDENTIALS") (Some false))
    "MissingCredentialsError" MissingCredentials.

(** The [new] expressions the classes admit: every way an instance comes to
    exist. *)
Inductive Construction : Type :=
| NewSegmentApiError (message : string) (statusCode : option number)
    (code : option string) (retryable : option bool)
| NewRateLimitError (message : string) (retryAfterSeconds : number)
| NewAuthenticationError (message : string)
| NewNotFoundError (entityType id : string)
| NewValidationError (message : string) (details : option (list (string * list string)))
| NewMissingCredentialsError (requiredCredential : string).

Definition construct (c : Construction) : SegmentApiError :=
  match c with
  | NewSegmentApiError m s c r => new_SegmentApiError m s c r
  | NewRateLimitError m n => new_RateLimitError m n
  | NewAuthenticationError m => new_AuthenticationError m
  | NewNotFoundError t i => new_NotFoundError t i
  | NewValidationError m d => new_ValidationError m d
  | NewMissingCredentialsError c => new_MissingCredentialsError c
  end.

(** The error kinds of the taxonomy, one per class. *)
Inductive Kind : Type :=
| Generic
| RateLimited
| Unauthenticated
| NotFoundKind
| InvalidInput
| MissingCredential.

Definition kind (e : SegmentApiError) : Kind :=
  match subclass e with
  | Base => Generic
  | RateLimit _ => RateLimited
  | Authentication => Unauthenticated
  | NotFound => NotFoundKind
  | Validation _ => InvalidInput
  | MissingCredentials => MissingCredential
  end.

(** [e instanceof RateLimitError], [e instanceof ValidationError] *)
Definition isRateLimitError (e : SegmentApiError) : bool :=
  match subclass e with
  | RateLimit _ => true
  | _ => false
  end.

Definition isValidationError (e : SegmentApiError) : bool :=
  match subclass e with
  | Validation _ => true
  | _ => false
  end.

(** An [Error] that is not a [SegmentApiError]: what the platform throws
    ([TypeError], [SyntaxError]) and what [new Error(...)] builds. *)
Record NativeError : Type := mkNativeError {
  err_name : string;
  err_message : string;
  err_stack : string
}.

(** What a [catch (error)] clause can receive. *)
Inductive Thrown : Type :=
| ThrownApi (e : SegmentApiError)
| ThrownError (e : NativeError)
| ThrownValue (v : value).

Definition isRetryableError (error : Thrown) : bool :=
  match error with
  | ThrownApi e => retryable e
  | ThrownError e =>
      includes "network" (err_message e)
      || includes "timeout" (err_message e)
      || includes "ECONNRESET" (err_message e)
  | ThrownValue _ => false
  end.


End Errors.

(* ===================================================================== *)
(** ** Abrupt completion, conversions and property access *)
(* ===================================================================== *)

Module Control.
Import Js Errors.

Inductive Result (A : Type) : Type :=
| Ok (a : A)
| Throw (t : Thrown).

Arguments Ok {A} a.
Arguments Throw {A} t.

Definition bind {A B : Type} (r : Result A) (k : A -> Result B) : Result B :=
  match r with
  | Ok a => k a
  | Throw t => Throw t
  end.

Fixpoint mapM {A B : Type} (f : A -> Result B) (l : list A) : Result (list B) :=
  match l with
  | [] => Ok []
  | a :: r =>
      bind (f a) (fun b => bind (mapM f r) (fun bs => Ok (b :: bs)))
  end.

(** A [TypeError] the engine raises. Its [stack] starts with this header
    line; the frames that follow are not carried. *)
Definition TypeError (msg : string) : Thrown :=
  ThrownError {| err_name := "TypeError";
                 err_message := msg;
                 err_stack := "TypeError: " ++ msg |}.

(** *** ToString *)

(** ToString, as [String(v)], a template literal and the [Error]
    constructor apply it. An array joins the strings of its elements, the
    empty string standing for [undefined] and [null]. An object is
    converted through its [toString] member: the inherited one answers
    [[object Object]]; an own member of that name is JSON data, so not
    callable, and as [valueOf] gives no primitive either the conversion
    throws. *)
Fixpoint ToString (v : value) : Result string :=
  match v with
  | Undefined => Ok "undefined"
  | Null => Ok "null"
  | Bool b => Ok (if b then "true" else "false")
  | Num n => Ok (Number_toString n)
  | Str s => Ok s
  | Arr items =>
      bind (mapM (fun x => match x with
                           | Undefined | Null => Ok ""
                           | _ => ToString x
                           end) items)
           (fun parts => Ok (join "," parts))
  | Obj props =>
      match lookup "toString" props with
      | Some _ => Throw (TypeError "Cannot convert object to primitive value")
      | None => Ok "[object Object]"
      end
  end.

(** *** Own properties *)

(** The own property [k] of a value that is not [undefined] or [null]. *)
Definition own (v : value) (k : string) : option value :=
  match v with
  | Obj props => lookup k props
  | Arr items =>
      if k =? "length" then Some (Num (Int (Z.of_nat (List.length items))))
      else match findIndex k (indexKeys (List.length items)) 0 with
           | Some i => Some (nth i items Undefined)
           | None => None
           end
  | Str s =>
      if k =? "length" then Some (Num (Int (Z.of_nat (String.length s))))
      else match findIndex k (indexKeys (String.length s)) 0 with
           | Some i => Some (Str (nth i (units s) ""))
           | None => None
           end
  | _ => None
  end.

(** [v.k] for a property name that no built-in prototype defines, as are
    the names the source writes out ([id], [name], [data], [message], ...):
    the own property, or [undefined]. Reading a property of [undefined] or
    [null] throws. *)
Definition get (v : value) (k : string) : Result value :=
  match v with
  | Undefined =>
      Throw (TypeError ("Cannot read properties of undefined (reading '" ++ k ++ "')"))
  | Null =>
      Throw (TypeError ("Cannot read properties of null (reading '" ++ k ++ "')"))
  | _ =>
      Ok (match own v k with
          | Some x => x
          | None => Undefined
          end)
  end.

(** [v?.k] *)
Definition getOpt (v : value) (k : string) : Result value :=
  if isNullish v then Ok Undefined else get v k.

(** *** Inherited members *)

(** The built-in prototypes the values of the embedding inherit from. *)
Inductive Prototype : Type :=
| ObjectPrototype
| ArrayPrototype
| StringPrototype
| NumberPrototype
| BooleanPrototype.

(** A method is named as its property, but for the few below. *)
Definition named (names : list string) : list (string * string) :=
  map (fun n => (n, n)) names.

(** The methods of each prototype (ECMAScript 2024): the property name and
    the [name] of the function it holds. *)
Definition methods (p : Prototype) : list (string * string) :=
  match p with
  | ObjectPrototype =>
      ("constructor", "Object")
      :: named [ "__defineGetter__"; "__defineSetter__"; "hasOwnProperty";
                 "__lookupGetter__"; "__lookupSetter__"; "isPrototypeOf";
                 "propertyIsEnumerable"; "toString"; "valueOf"; "toLocaleString" ]
  | ArrayPrototype =>
      ("constructor", "Array")
      :: named [ "at"; "concat"; "copyWithin"; "fill"; "find"; "findIndex"; "findLast";
                 "findLastIndex"; "lastIndexOf"; "pop"; "push"; "reverse"; "shift";
                 "unshift"; "slice"; "sort"; "splice"; "includes"; "indexOf"; "join";
                 "keys"; "entries"; "values"; "forEach"; "filter"; "flat"; "flatMap";
                 "map"; "every"; "some"; "reduce"; "reduceRight"; "toReversed";
                 "toSorted"; "toSpliced"; "with"; "toLocaleString"; "toString" ]
  | StringPrototype =>
      ("constructor", "String") :: ("trimLeft", "trimStart") :: ("trimRight", "trimEnd")
      :: named [ "anchor"; "at"; "big"; "blink"; "bold"; "charAt"; "charCodeAt";
                 "codePointAt"; "concat"; "endsWith"; "fontcolor"; "fontsize"; "fixed";
                 "includes"; "indexOf"; "isWellFormed"; "italics"; "lastIndexOf"; "link";
                 "localeCompare"; "match"; "matchAll"; "normalize"; "padEnd"; "padStart";
                 "repeat"; "replace"; "replaceAll"; "search"; "slice"; "small"; "split";
                 "strike"; "sub"; "substr"; "substring"; "sup"; "startsWith"; "toString";
                 "toWellFormed"; "trim"; "trimStart"; "trimEnd"; "toLocaleLowerCase";
                 "toLocaleUpperCase"; "toLowerCase"; "toUpperCase"; "valueOf" ]
  | NumberPrototype =>
      ("constructor", "Number")
      :: named [ "toExponential"; "toFixed"; "toPrecision"; "toString"; "valueOf";
                 "toLocaleString" ]
  | BooleanPrototype =>
      ("constructor", "Boolean") :: named [ "toString"; "valueOf" ]
  end.

(** The prototype chain of a value. *)
Definition chain (v : value) : list Prototype :=
  match v with
  | Undefined | Null => []
  | Bool _ => [ BooleanPrototype; ObjectPrototype ]
  | Num _ => [ NumberPrototype; ObjectPrototype ]
  | Str _ => [ StringPrototype; ObjectPrototype ]
  | Arr _ => [ ArrayPrototype; ObjectPrototype ]
  | Obj _ => [ ObjectPrototype ]
  end.

(** What a property access yields: JSON data, a built-in function, or a
    prototype object (through the accessor [__proto__]). *)
Inductive Member : Type :=
| Data (v : value)
| Builtin (name : string)
| PrototypeObject (p : Prototype).

Fixpoint methodName (k : string) (l : list (string * string)) : option string :=
  match l with
  | [] => None
  | (k', n) :: r => if k' =? k then Some n else methodName k r
  end.

Fixpoint inherited (ps : list Prototype) (k : string) : Member :=
  match ps with
  | [] => Data Undefined
  | p :: r =>
      match methodName k (methods p) with
      | Some n => Builtin n
      | None => inherited r k
      end
  end.

(** [v[k]]: the own property, else the member the prototype chain has under
    that name, else [undefined]. *)
Definition read (v : value) (k : string) : Result Member :=
  match v with
  | Undefined =>
      Throw (TypeError ("Cannot read properties of undefined (reading '" ++ k ++ "')"))
  | Null =>
      Throw (TypeError ("Cannot read properties of null (reading '" ++ k ++ "')"))
  | _ =>
      Ok (match own v k with
          | Some x => Data x
          | None =>
              if k =? "__proto__"
              then match chain v with
                   | p :: _ => PrototypeObject p
                   | [] => Data Undefined
                   end
              else inherited (chain v) k
          end)
  end.

(** [m ?? '-'] *)
Definition orDash (m : Member) : Member :=
  match m with
  | Data Undefined | Data Null => Data (Str "-")
  | _ => m
  end.

(** [String(m)]: a built-in function prints as native code, a prototype
    object as the empty instance of its class. *)
Definition memberString (m : Member) : Result string :=
  match m with
  | Data v => ToString v
  | Builtin n => Ok ("function " ++ n ++ "() { [native code] }")
  | PrototypeObject ObjectPrototype => Ok "[object Object]"
  | PrototypeObject ArrayPrototype => Ok ""
  | PrototypeObject StringPrototype => Ok ""
  | PrototypeObject NumberPrototype => Ok "0"
  | PrototypeObject BooleanPrototype => Ok "false"
  end.

(** [k in v], for the objects and arrays the renderer applies it to. *)
Definition hasProperty (k : string) (v : value) : bool :=
  match v with
  | Obj _ | Arr _ =>
      match own v k with
      | Some _ => true
      | None =>
          (k =? "__proto__")
          || match inherited (chain v) k with
             | Data _ => false
             | _ => true
             end
      end
  | _ => false
  end.

Definition Object_keys (v : value) : Result (list string) :=
  match v with
  | Undefined | Null => Throw (TypeError "Cannot convert undefined or null to object")
  | Obj props => Ok (map fst props)
  | Arr items => Ok (indexKeys (List.length items))
  | Str s => Ok (indexKeys (String.length s))
  | Bool _ | Num _ => Ok []
  end.

Definition Object_entries (v : value) : Result (list (string * value)) :=
  match v with
  | Undefined | Null => Throw (TypeError "Cannot convert undefined or null to object")
  | Obj props => Ok props
  | Arr items => Ok (combine (indexKeys (List.length items)) items)
  | Str s => Ok (combine (indexKeys (String.length s)) (map Str (units s)))
  | Bool _ | Num _ => Ok []
  end.

End Control.

Declare Scope result_scope.
Delimit Scope result_scope with result.
Notation "x <- c ;; k" := (Control.bind c (fun x => k))
  (at level 61, c at next level, right associativity) : result_scope.

(* ===================================================================== *)
(** ** utils/errors.ts: the log record *)
(* ===================================================================== *)

Module Logging.
Import Js Errors Control.
Local Open Scope result_scope.

Definition optNumber (n : option number) : value :=
  match n with
  | Some x => Num x
  | None => Undefined
  end.

Definition detailsValue (d : list (string * list string)) : value :=
  Obj (map (fun kv => (fst kv, Arr (map Str (snd kv)))) d).

Definition formatErrorForLogging (error : Thrown) : Result value :=
  match error with
  | ThrownApi e =>
      Ok (Obj ([ ("name", Str (name e));
                 ("message", Str (message e));
                 ("code", Str (code e));
                 ("statusCode", optNumber (statusCode e));
                 ("retryable", Bool (retryable e)) ]
               ++ match subclass e with
                  | RateLimit n => [("retryAfterSeconds", Num n)]
                  | _ => []
                  end
               ++ match subclass e with
                  | Validation d => [("details", detailsValue d)]
                  | _ => []
                  end)%list)
  | ThrownError e =>
      Ok (Obj [ ("name", Str (err_name e));
                ("message", Str (err_message e));
                ("stack", Str (err_stack e)) ])
  | ThrownValue v =>
      s <- ToString v ;;
      Ok (Obj [("error", Str s)])
  end.

End Logging.

(* ===================================================================== *)
(** ** utils/formatters.ts *)
(* ===================================================================== *)

Module Formatters.
Import Js Errors Control Logging.
Local Open Scope result_scope.

Inductive ResponseFormat : Type :=
| json
| markdown.

(** One entry of [content]; [text] is [None] where [JSON.stringify] returned
    [undefined]. *)
Record TextContent : Type := mkTextContent {
  type : string;
  text : option string
}.

Record ToolResponse : Type := mkToolResponse {
  content : list TextContent;
  isError : option bool
}.

Definition capitalize (str : string) : string :=
  toUpperCase (charAt0 str) ++ slice1 str.

(** [key.replace(/([A-Z])/g, ' $1')] *)
Fixpoint spaceBeforeUpper (key : string) : string :=
  match key with
  | "" => ""
  | String c r =>
      if isUpper c then String " " (String c (spaceBeforeUpper r))
      else String c (spaceBeforeUpper r)
  end.

(** [s.replace(/^./, (str) => str.toUpperCase())] *)
Definition upperFirst (s : string) : string :=
  match s with
  | "" => ""
  | String c r => if isLineTerminator c then s else toUpperCaseUnit c ++ r
  end.

Definition formatKey (key : string) : string :=
  trim (upperFirst (spaceBeforeUpper key)).

(** [s.replace(/s$/, '')] *)
Fixpoint dropFinalS (s : string) : string :=
  match s with
  | "" => ""
  | String c r =>
      match r with
      | "" => if (Js.code c =? 115)%N then "" else s
      | _ => String c (dropFinalS r)
      end
  end.

Definition yesNo (v : value) : string := if truthy v then "Yes" else "No".

Definition row (cells : list string) : string := "| " ++ join " | " cells ++ " |".

(** [${x.k}] inside a template literal: the property is read, then
    converted, before the next substitution is looked at. *)
Definition cellOf (x : value) (k : string) : Result string :=
  v <- get x k ;; ToString v.

(** [${x.k || d}] *)
Definition cellOr (x : value) (k d : string) : Result string :=
  v <- get x k ;; ToString (or_else v (Str d)).

(** [${x.metadata?.name || '-'}] *)
Definition metadataName (x : value) : Result string :=
  metadata <- get x "metadata" ;;
  mname <- getOpt metadata "name" ;;
  ToString (or_else mname (Str "-")).

(** [${x.enabled ? 'Yes' : 'No'}] *)
Definition enabledCell (x : value) : Result string :=
  enabled <- get x "enabled" ;; Ok (yesNo enabled).

Definition formatSourcesTable (sources : list value) : Result string :=
  rows <- mapM (fun source =>
            id <- cellOf source "id" ;;
            name <- cellOf source "name" ;;
            slug <- cellOf source "slug" ;;
            enabled <- enabledCell source ;;
            Ok (row [id; name; slug; enabled]))
          sources ;;
  Ok (join LF ("| ID | Name | Slug | Enabled |" :: "|---|---|---|---|" :: rows)).

Definition formatDestinationsTable (destinations : list value) : Result string :=
  rows <- mapM (fun dest =>
            id <- cellOf dest "id" ;;
            name <- cellOf dest "name" ;;
            type <- metadataName dest ;;
            enabled <- enabledCell dest ;;
            Ok (row [id; name; type; enabled]))
          destinations ;;
  Ok (join LF ("| ID | Name | Type | Enabled |" :: "|---|---|---|---|" :: rows)).

Definition formatWarehousesTable (warehouses : list value) : Result string :=
  rows <- mapM (fun wh =>
            id <- cellOf wh "id" ;;
            name <- cellOr wh "name" "-" ;;
            type <- metadataName wh ;;
            enabled <- enabledCell wh ;;
            Ok (row [id; name; type; enabled]))
          warehouses ;;
  Ok (join LF ("| ID | Name | Type | Enabled |" :: "|---|---|---|---|" :: rows)).

Definition formatTrackingPlansTable (plans : list value) : Result string :=
  rows <- mapM (fun plan =>
            id <- cellOf plan "id" ;;
            name <- cellOf plan "name" ;;
            type <- cellOf plan "type" ;;
            updated <- cellOr plan "updatedAt" "-" ;;
            Ok (row [id; name; type; updated]))
          plans ;;
  Ok (join LF ("| ID | Name | Type | Updated |" :: "|---|---|---|---|" :: rows)).

Definition formatFunctionsTable (functions : list value) : Result string :=
  rows <- mapM (fun fn =>
            id <- cellOf fn "id" ;;
            displayName <- cellOf fn "displayName" ;;
            resourceType <- cellOf fn "resourceType" ;;
            deployed <- cellOr fn "deployedAt" "Not deployed" ;;
            Ok (row [id; displayName; resourceType; deployed]))
          functions ;;
  Ok (join LF ("| ID | Name | Type | Deployed |" :: "|---|---|---|---|" :: rows)).

Definition formatAudiencesTable (audiences : list value) : Result string :=
  rows <- mapM (fun aud =>
            id <- cellOf aud "id" ;;
            name <- cellOf aud "name" ;;
            key <- cellOf aud "key" ;;
            status <- cellOr aud "status" "-" ;;
            enabled <- enabledCell aud ;;
            Ok (row [id; name; key; status; enabled]))
          audiences ;;
  Ok (join LF ("| ID | Name | Key | Status | Enabled |" :: "|---|---|---|---|---|" :: rows)).

Definition formatComputedTraitsTable (traits : list value) : Result string :=
  rows <- mapM (fun trait =>
            id <- cellOf trait "id" ;;
            name <- cellOf trait "name" ;;
            key <- cellOf trait "key" ;;
            status <- cellOr trait "status" "-" ;;
            enabled <- enabledCell trait ;;
            Ok (row [id; name; key; status; enabled]))
          traits ;;
  Ok (join LF ("| ID | Name | Key | Status | Enabled |" :: "|---|---|---|---|---|" :: rows)).

Definition formatTransformationsTable (transformations : list value) : Result string :=
  rows <- mapM (fun t =>
            id <- cellOf t "id" ;;
            name <- cellOf t "name" ;;
            sourceId <- cellOf t "sourceId" ;;
            enabled <- enabledCell t ;;
            Ok (row [id; name; sourceId; enabled]))
          transformations ;;
  Ok (join LF ("| ID | Name | Source ID | Enabled |" :: "|---|---|---|---|" :: rows)).

Definition formatGenericTable (items : list value) : Result string :=
  match items with
  | [] => Ok "_No items_"
  | first :: _ =>
      allKeys <- Object_keys first ;;
      let keys := firstn 5 allKeys in
      rows <- mapM (fun record =>
                values <- mapM (fun k =>
                            cell <- read record k ;;
                            memberString (orDash cell))
                          keys ;;
                Ok (row values))
              items ;;
      Ok (join LF (row keys
                   :: ("|" ++ join "|" (map (fun _ => "---") keys) ++ "|")
                   :: rows))
  end.

Definition formatArrayAsMarkdown (data : list value) (entityType : string)
  : Result string :=
  formatGenericTable data.

(** The lines one entry of [Object.entries(data)] contributes. *)
Definition entryLines (entry : string * value) : Result (list string) :=
  let '(key, v) := entry in
  if isNullish v then Ok []
  else if typeofObject v then
    Ok [ "**" ++ formatKey key ++ ":**";
         "```json";
         match JSON_stringify_2 v with
         | Some s => s
         | None => ""
         end;
         "```" ]
  else
    s <- ToString v ;;
    Ok [ "**" ++ formatKey key ++ ":** " ++ s ].

Definition formatObjectAsMarkdown (data : value) (entityType : string)
  : Result string :=
  let heading := "## " ++ capitalize (dropFinalS entityType) in
  entries <- Object_entries data ;;
  lines <- mapM entryLines entries ;;
  Ok (join LF (heading :: "" :: List.concat lines)).

Definition isPaginatedResponse (data : value) : bool :=
  typeofObject data
  && negb (isNullish data)
  && hasProperty "data" data
  && match get data "data" with
     | Ok d => isArray d
     | Throw _ => false
     end.

(** The array a value holds, for the [as Source[]] casts; a value that is
    not an array has no elements to iterate. *)
Definition elements (v : value) : list value :=
  match v with
  | Arr items => items
  | _ => []
  end.

Definition formatPaginatedAsMarkdown (data : value) (entityType : string)
  : Result string :=
  let heading := [ "## " ++ capitalize entityType; "" ] in
  items <- get data "data" ;;
  count <- get items "length" ;;
  pagination <- get data "pagination" ;;
  total <- getOpt pagination "totalEntries" ;;
  summary <-
    match total with
    | Undefined =>
        c <- ToString count ;;
        Ok ("**Showing:** " ++ c)
    | _ =>
        t <- ToString total ;;
        c <- ToString count ;;
        Ok ("**Total:** " ++ t ++ " | **Showing:** " ++ c)
    end ;;
  next <- getOpt pagination "next" ;;
  more <-
    (if truthy next
     then cursor <- ToString next ;;
          Ok [ "**More available:** Yes (cursor: `" ++ cursor ++ "`)" ]
     else Ok []) ;;
  let lines := (heading ++ [ summary ] ++ more ++ [ "" ])%list in
  match count with
  | Num (Int 0) => Ok (join LF (lines ++ [ "_No items found._" ])%list)
  | _ =>
      table <-
        (if entityType =? "sources" then formatSourcesTable (elements items)
         else if entityType =? "destinations" then formatDestinationsTable (elements items)
         else if entityType =? "warehouses" then formatWarehousesTable (elements items)
         else if entityType =? "tracking-plans" then formatTrackingPlansTable (elements items)
         else if entityType =? "functions" then formatFunctionsTable (elements items)
         else if entityType =? "audiences" then formatAudiencesTable (elements items)
         else if entityType =? "computed-traits" then formatComputedTraitsTable (elements items)
         else if entityType =? "transformations" then formatTransformationsTable (elements items)
         else formatGenericTable (elements items)) ;;
      Ok (join LF (lines ++ [ table ])%list)
  end.

Definition formatAsMarkdown (data : value) (entityType : string) : Result string :=
  if isPaginatedResponse data then formatPaginatedAsMarkdown data entityType
  else match data with
       | Arr items => formatArrayAsMarkdown items entityType
       | _ =>
           if typeofObject data && negb (isNullish data)
           then formatObjectAsMarkdown data entityType
           else ToString data
       end.

Definition formatResponse (data : value) (format : ResponseFormat)
  (entityType : string) : Result ToolResponse :=
  match format with
  | markdown =>
      t <- formatAsMarkdown data entityType ;;
      Ok {| content := [ {| type := "text"; text := Some t |} ]; isError := None |}
  | json =>
      Ok {| content := [ {| type := "text"; text := JSON_stringify_2 data |} ];
            isError := None |}
  end.

Definition formatError (error : Thrown) : Result ToolResponse :=
  errorInfo <- formatErrorForLogging error ;;
  message <-
    match error with
    | ThrownApi e =>
        let message := "Error: " ++ Errors.message e in
        Ok (if retryable e then message ++ " (retryable)" else message)
    | ThrownError e => Ok ("Error: " ++ err_message e)
    | ThrownValue v => s <- ToString v ;; Ok ("Error: " ++ s)
    end ;;
  Ok {| content :=
          [ {| type := "text";
               text := JSON_stringify_2 (Obj [ ("error", Str message);
                                             ("details", errorInfo) ]) |} ];
        isError := Some true |}.

End Formatters.

(* ===================================================================== *)
(** ** Platform interfaces the client calls *)
(* ===================================================================== *)

Module Web.
Import Js Errors.

(** *** btoa *)

Definition b64Char (n : N) : string :=
  match String.get (N.to_nat n)
          "ABCDEFGHIJKLMNOPQRSTUVWXYZabcdefghijklmnopqrstuvwxyz0123456789+/" with
  | Some c => String c ""
  | None => ""
  end.

Fixpoint b64Bytes (l : list N) : string :=
  match l with
  | [] => ""
  | [a] => b64Char (a / 4) ++ b64Char ((a mod 4) * 16) ++ "=="
  | [a; b] =>
      b64Char (a / 4) ++ b64Char ((a mod 4) * 16 + b / 16)
        ++ b64Char ((b mod 16) * 4) ++ "="
  | a :: b :: c :: r =>
      b64Char (a / 4) ++ b64Char ((a mod 4) * 16 + b / 16)
        ++ b64Char ((b mod 16) * 4 + c / 64) ++ b64Char (c mod 64)
        ++ b64Bytes r
  end%N.

Definition btoa (s : string) : string :=
  b64Bytes (map Js.code (list_ascii_of_string s)).

(** *** URLSearchParams *)

Definition URLSearchParams : Type := list (string * string).

Fixpoint removeName (name : string) (l : URLSearchParams) : URLSearchParams :=
  match l with
  | [] => []
  | (n, v) :: r => if n =? name then removeName name r else (n, v) :: removeName name r
  end.

(** [set]: the first tuple named [name] takes the value and the others are
    removed; with no such tuple, a new one is appended. *)
Fixpoint set (name val : string) (l : URLSearchParams) : URLSearchParams :=
  match l with
  | [] => [(name, val)]
  | (n, v) :: r =>
      if n =? name then (n, val) :: removeName name r else (n, v) :: set name val r
  end.

Definition hexUpper (n : N) : string :=
  match String.get (N.to_nat n) "0123456789ABCDEF" with
  | Some c => String c ""
  | None => ""
  end.

Definition percentByte (n : N) : string := "%" ++ hexUpper (n / 16) ++ hexUpper (n mod 16).

(** The application/x-www-form-urlencoded serializer on one code unit: the
    unit is UTF-8 encoded (two bytes from 128 on) and each byte outside the
    safe set is percent-encoded, a space becoming [+]. *)
Definition urlencodeUnit (c : ascii) : string :=
  let n := Js.code c in
  if isAlnum c || (n =? 42)%N || (n =? 45)%N || (n =? 46)%N || (n =? 95)%N
  then String c ""
  else if (n =? 32)%N then "+"
  else if (n <? 128)%N then percentByte n
  else percentByte (192 + n / 64) ++ percentByte (128 + n mod 64).

Fixpoint urlencode (s : string) : string :=
  match s with
  | "" => ""
  | String c r => urlencodeUnit c ++ urlencode r
  end.

Definition URLSearchParams_toString (l : URLSearchParams) : string :=
  join "&" (map (fun nv => urlencode (fst nv) ++ "=" ++ urlencode (snd nv)) l).

(** *** fetch *)

Definition HeaderList : Type := list (string * string).

Definition toLowerCaseChar (c : ascii) : ascii :=
  if isUpper c then chr (Js.code c + 32) else c.

Fixpoint toLowerCase (s : string) : string :=
  match s with
  | "" => ""
  | String c r => String (toLowerCaseChar c) (toLowerCase r)
  end.

(** [headers.get(name)]: names compare without case; the values of all the
    headers of that name are joined with a comma and a space; [None] is
    [null]. *)
Definition Headers_get (name : string) (h : HeaderList) : option string :=
  match filter (fun nv => toLowerCase (fst nv) =? toLowerCase name) h with
  | [] => None
  | found => Some (join ", " (map snd found))
  end.

Record Request : Type := mkRequest {
  req_url : string;
  req_method : option string;
  req_headers : HeaderList;
  req_body : option string
}.

(** What [JSON.parse] makes of a body: the value, or the [SyntaxError] it
    throws, with the engine's message. *)
Inductive Parsed : Type :=
| ParsedValue (v : value)
| ParseFailure (message : string).

(** A response as the client reads it: [status], [headers], the body as
    [text()] resolves it, and [parsed], what [JSON.parse] makes of that text
    (and so what [json()] resolves or rejects with). *)
Record Response : Type := mkResponse {
  status : Z;
  headers : HeaderList;
  body : string;
  parsed : Parsed
}.

(** [response.ok] *)
Definition ok (r : Response) : bool := ((200 <=? status r) && (status r <=? 299))%Z.

(** [fetch] resolves with a response or rejects with a transport error. *)
Inductive FetchOutcome : Type :=
| Resolved (r : Response)
| Rejected (e : NativeError).

Definition SyntaxError (msg : string) : Thrown :=
  ThrownError {| err_name := "SyntaxError";
                 err_message := msg;
                 err_stack := "SyntaxError: " ++ msg |}.

(** The client's computations: the list of the requests handed to [fetch] so
    far is threaded through, and a computation returns or throws. *)
Definition Net (A : Type) : Type := list Request -> Control.Result A * list Request.

Definition ret {A : Type} (a : A) : Net A := fun log => (Control.Ok a, log).
Definition throw {A : Type} (t : Thrown) : Net A := fun log => (Control.Throw t, log).
Definition lift {A : Type} (r : Control.Result A) : Net A := fun log => (r, log).

Definition nbind {A B : Type} (m : Net A) (k : A -> Net B) : Net B :=
  fun log =>
    match m log with
    | (Control.Ok a, log') => k a log'
    | (Control.Throw t, log') => (Control.Throw t, log')
    end.

(** [await fetch(url, init)] against the transport [transport]: the request
    is logged, then the outcome is a response or a thrown transport error. *)
Definition fetch (transport : Request -> FetchOutcome) (req : Request) : Net Response :=
  fun log =>
    match transport req with
    | Resolved r => (Control.Ok r, (log ++ [req])%list)
    | Rejected e => (Control.Throw (ThrownError e), (log ++ [req])%list)
    end.

(** [await response.json()] *)
Definition Response_json (r : Response) : Control.Result value :=
  match parsed r with
  | ParsedValue v => Control.Ok v
  | ParseFailure msg => Control.Throw (SyntaxError msg)
  end.

(** [JSON.parse(await response.text())] *)
Definition JSON_parse_text (r : Response) : Control.Result value := Response_json r.

End Web.

Declare Scope net_scope.
Delimit Scope net_scope with net.
Notation "x <~ c ;; k" := (Web.nbind c (fun x => k))
  (at level 61, c at next level, right associativity) : net_scope.

(* ===================================================================== *)
(** ** types/env.ts *)
(* ===================================================================== *)

Module Env.
Import Web.

Record TenantCredentials : Type := mkTenantCredentials {
  writeKey : option string;
  accessToken : option string;
  trackingBaseUrl : option string;
  publicApiBaseUrl : option string
}.

(** [headers.get(name) || undefined] *)
Definition headerOrUndefined (name : string) (h : HeaderList) : option string :=
  match Headers_get name h with
  | Some v => if v =? "" then None else Some v
  | None => None
  end.

Definition parseTenantCredentials (requestHeaders : HeaderList) : TenantCredentials :=
  {| writeKey := headerOrUndefined "X-Segment-Write-Key" requestHeaders;
     accessToken := headerOrUndefined "X-Segment-Access-Token" requestHeaders;
     trackingBaseUrl := headerOrUndefined "X-Segment-Tracking-URL" requestHeaders;
     publicApiBaseUrl := headerOrUndefined "X-Segment-API-URL" requestHeaders |}.

End Env.

(* ===================================================================== *)
(** ** client.ts *)
(* ===================================================================== *)

Module Client.
Import Js Errors Control Web Env.
Local Open Scope result_scope.
Local Open Scope net_scope.

Definition TRACKING_API_BASE_URL : string := "https://api.segment.io/v1".
Definition PUBLIC_API_BASE_URL : string := "https://api.segmentapis.com".

(** An optional string used as a condition: absent and empty are falsy. *)
Definition present (s : option string) : bool :=
  match s with
  | Some x => negb (x =? "")
  | None => false
  end.

(** [s || d] *)
Definition orDefault (s : option string) (d : string) : string :=
  match s with
  | Some x => if x =? "" then d else x
  | None => d
  end.

Record SegmentClientImpl : Type := mkSegmentClientImpl {
  credentials : TenantCredentials;
  this_trackingBaseUrl : string;
  this_publicApiBaseUrl : string
}.

Definition createSegmentClient (c : TenantCredentials) : SegmentClientImpl :=
  {| credentials := c;
     this_trackingBaseUrl := orDefault (trackingBaseUrl c) TRACKING_API_BASE_URL;
     this_publicApiBaseUrl := orDefault (publicApiBaseUrl c) PUBLIC_API_BASE_URL |}.

(** An optional string inside a template literal. *)
Definition interpolate (s : option string) : string :=
  match s with
  | Some x => x
  | None => "undefined"
  end.

Definition getTrackingHeaders (this : SegmentClientImpl) : Result HeaderList :=
  if negb (present (writeKey (credentials this)))
  then Throw (ThrownApi (new_MissingCredentialsError "X-Segment-Write-Key"))
  else
    let credentials := btoa (interpolate (writeKey (credentials this)) ++ ":") in
    Ok [ ("Authorization", "Basic " ++ credentials);
         ("Content-Type", "application/json") ].

Definition getPublicApiHeaders (this : SegmentClientImpl) : Result HeaderList :=
  if negb (present (accessToken (credentials this)))
  then Throw (ThrownApi (new_MissingCredentialsError "X-Segment-Access-Token"))
  else
    Ok [ ("Authorization", "Bearer " ++ interpolate (accessToken (credentials this)));
         ("Content-Type", "application/json") ].

(** [retryAfter ? parseInt(retryAfter, 10) : 60], on what [headers.get]
    returned. *)
Definition retryAfterSeconds (retryAfter : option string) : number :=
  match retryAfter with
  | Some h => if h =? "" then Int 60 else parseInt10 h
  | None => Int 60
  end.

(** The [try { message = ... } catch { }] around the message extraction:
    any throw inside leaves the default message. *)
Definition orKeep (dflt : string) (r : Result value) : value :=
  match r with
  | Ok v => v
  | Throw _ => Str dflt
  end.

(** [`${response.status}`] *)
Definition statusString (r : Response) : string := Number_toString (Int (status r)).

(** [throw new SegmentApiError(message, response.status)]: [super(message)]
    converts the message, whatever the body held there, to a string; when
    the conversion throws, that is what the helper throws. *)
Definition genericError (message : string) (r : Response) : Thrown :=
  ThrownApi (new_SegmentApiError message (Some (Int (status r))) None None).

Definition throwGeneric {A : Type} (message : value) (r : Response) : Net A :=
  match ToString message with
  | Ok m => throw (genericError m r)
  | Throw t => throw t
  end.

Section Requests.

Variable transport : Request -> FetchOutcome.
Variable this : SegmentClientImpl.

Definition trackingRequest (endpoint : string) (body : value) : Net value :=
  let url := this_trackingBaseUrl this ++ endpoint in
  hdrs <~ lift (getTrackingHeaders this) ;;
  response <~ fetch transport {| req_url := url;
                                 req_method := Some "POST";
                                 req_headers := hdrs;
                                 req_body := JSON_stringify body |} ;;
  if (status response =? 429)%Z then
    let retryAfter := Headers_get "Retry-After" (headers response) in
    throw (ThrownApi (new_RateLimitError "Rate limit exceeded" (retryAfterSeconds retryAfter)))
  else if ((status response =? 401) || (status response =? 403))%Z then
    throw (ThrownApi (new_AuthenticationError "Authentication failed. Check your write key."))
  else if negb (ok response) then
    let message := "Tracking API error: " ++ statusString response in
    let message :=
      orKeep message
        (errorJson <- JSON_parse_text response ;;
         m <- get errorJson "message" ;;
         if truthy m then Ok m
         else e <- get errorJson "error" ;;
              Ok (or_else e (Str message))) in
    throwGeneric message response
  else lift (Response_json response).

(** The [RequestInit] fields the client passes. *)
Record RequestInit : Type := mkRequestInit {
  init_method : option string;
  init_body : option string;
  init_headers : option HeaderList
}.

Definition noInit : RequestInit :=
  {| init_method := None; init_body := None; init_headers := None |}.

(** [{ ...a, ...b }] on header objects: a name of [b] already in [a] takes
    [b]'s value in place, a new name is appended. *)
Definition spread (a b : HeaderList) : HeaderList :=
  fold_left (fun acc nv => Web.set (fst nv) (snd nv) acc) b a.

Definition publicApiRequest (endpoint : string) (options : RequestInit) : Net value :=
  let url := this_publicApiBaseUrl this ++ endpoint in
  hdrs <~ lift (getPublicApiHeaders this) ;;
  response <~ fetch transport
                {| req_url := url;
                   req_method := init_method options;
                   req_headers := spread hdrs (match init_headers options with
                                               | Some h => h
                                               | None => []
                                               end);
                   req_body := init_body options |} ;;
  if (status response =? 429)%Z then
    let retryAfter := Headers_get "Retry-After" (headers response) in
    throw (ThrownApi (new_RateLimitError "Rate limit exceeded" (retryAfterSeconds retryAfter)))
  else if ((status response =? 401) || (status response =? 403))%Z then
    throw (ThrownApi (new_AuthenticationError "Authentication failed. Check your access token."))
  else if negb (ok response) then
    let message := "Public API error: " ++ statusString response in
    let message :=
      orKeep message
        (errorJson <- JSON_parse_text response ;;
         errors <- get errorJson "errors" ;;
         first <- getOpt errors "0" ;;
         m0 <- getOpt first "message" ;;
         if truthy m0 then Ok m0
         else m <- get errorJson "message" ;;
              if truthy m then Ok m
              else e <- get errorJson "error" ;;
                   Ok (or_else e (Str message))) in
    throwGeneric message response
  else if (status response =? 204)%Z then ret Undefined
  else lift (Response_json response).

(** [params] is [Object.entries] of the mapping, when one is given. *)
Definition buildQueryString (params : option (list (string * value))) : Result string :=
  match params with
  | None => Ok ""
  | Some entries =>
      queryParams <-
        fold_left (fun (acc : Result URLSearchParams) kv =>
                     q <- acc ;;
                     if negb (isNullish (snd kv))
                     then s <- ToString (snd kv) ;; Ok (Web.set (fst kv) s q)
                     else Ok q)
                  entries (Ok []) ;;
      let qs := URLSearchParams_toString queryParams in
      Ok (if negb (qs =? "") then "?" ++ qs else "")
  end.

(** Two operations of each surface, as the tools call them. *)

Definition identify (userId : string) (traits context anonymousId : value) : Net value :=
  let payload := Obj [ ("type", Str "identify");
                       ("userId", Str userId);
                       ("traits", traits);
                       ("context", context);
                       ("anonymousId", anonymousId) ] in
  trackingRequest "/identify" payload.

Definition batch (batchPayload : value) : Net value :=
  trackingRequest "/batch" batchPayload.

Definition listSources (params : option (list (string * value))) : Net value :=
  qs <~ lift (buildQueryString params) ;;
  publicApiRequest ("/sources" ++ qs) noInit.

Definition getSource (sourceId : string) : Net value :=
  response <~ publicApiRequest ("/sources/" ++ sourceId) noInit ;;
  data <~ lift (get response "data") ;;
  lift (get data "source").

End Requests.

End Client.

(* ===================================================================== *)
(** ** tools/sources.ts: the shape every tool handler has *)
(* ===================================================================== *)

Module Tools.
Import Js Errors Control Web Env Client Formatters.

(** [try { const result = await op; return render(result); }
     catch (error) { return formatError(error); }]: what [formatError]
    itself throws is not caught. *)
Definition handler (op : Net value) (render : value -> Result ToolResponse)
  : Net ToolResponse :=
  fun log =>
    match op log with
    | (Ok result, log') =>
        match render result with
        | Ok r => (Ok r, log')
        | Throw error => (formatError error, log')
        end
    | (Throw error, log') => (formatError error, log')
    end.

Definition segment_list_sources (transport : Request -> FetchOutcome)
  (client : SegmentClientImpl) (count cursor : value) (format : ResponseFormat)
  : Net ToolResponse :=
  handler (listSources transport client (Some [ ("count", count); ("cursor", cursor) ]))
          (fun result => formatResponse result format "sources").

Definition segment_get_source (transport : Request -> FetchOutcome)
  (client : SegmentClientImpl) (sourceId : string) (format : ResponseFormat)
  : Net ToolResponse :=
  handler (getSource transport client sourceId)
          (fun source => formatResponse source format "source").

End Tools.

(* ===================================================================== *)
(** ** types/env.ts: validation and numeric settings *)
(* ===================================================================== *)

Module EnvHelpers.
Import Js Errors Control Web Env Client.

(** [new Error(message)] *)
Definition new_Error (message : string) : NativeError :=
  {| err_name := "Error"; err_message := message; err_stack := "Error: " ++ message |}.

Definition validateCredentials (credentials : TenantCredentials) : Result unit :=
  if negb (present (writeKey credentials)) && negb (present (accessToken credentials))
  then Throw (ThrownError (new_Error
         "Missing credentials. Provide X-Segment-Write-Key for Tracking API or X-Segment-Access-Token for Public API."))
  else Ok tt.

(** What a member of the environment holds at run time: a string variable,
    a binding object, or nothing. *)
Inductive EnvValue : Type :=
| EnvString (s : string)
| EnvBinding
| EnvUnset.

Record Env : Type := mkEnv {
  CHARACTER_LIMIT : EnvValue;
  DEFAULT_PAGE_SIZE : EnvValue;
  MAX_PAGE_SIZE : EnvValue;
  OAUTH_KV : EnvValue;
  MCP_SESSIONS : EnvValue;
  AI : EnvValue
}.

(** [keyof Env] *)
Inductive EnvKey : Type :=
| K_CHARACTER_LIMIT
| K_DEFAULT_PAGE_SIZE
| K_MAX_PAGE_SIZE
| K_OAUTH_KV
| K_MCP_SESSIONS
| K_AI.

(** [env[key]] *)
Definition member (env : Env) (key : EnvKey) : EnvValue :=
  match key with
  | K_CHARACTER_LIMIT => CHARACTER_LIMIT env
  | K_DEFAULT_PAGE_SIZE => DEFAULT_PAGE_SIZE env
  | K_MAX_PAGE_SIZE => MAX_PAGE_SIZE env
  | K_OAUTH_KV => OAUTH_KV env
  | K_MCP_SESSIONS => MCP_SESSIONS env
  | K_AI => AI env
  end.

Definition getEnvNumber (env : Env) (key : EnvKey) (defaultValue : number) : number :=
  match member env key with
  | EnvString value =>
      let parsed := parseInt10 value in
      match parsed with
      | NaN => defaultValue
      | _ => parsed
      end
  | _ => defaultValue
  end.

Definition getCharacterLimit (env : Env) : number :=
  getEnvNumber env K_CHARACTER_LIMIT (Int 50000).

Definition getDefaultPageSize (env : Env) : number :=
  getEnvNumber env K_DEFAULT_PAGE_SIZE (Int 20).

Definition getMaxPageSize (env : Env) : number :=
  getEnvNumber env K_MAX_PAGE_SIZE (Int 100).

End EnvHelpers.

(* ===================================================================== *)
(** ** client.ts: connection test and operations *)
(* ===================================================================== *)

Module ClientOps.
Import Js Errors Control Web Env Client.
Local Open Scope net_scope.

(** [try { body } catch (error) { handler(error) }] *)
Definition tryCatch {A : Type} (body : Net A) (handler : Thrown -> Net A) : Net A :=
  fun log =>
    match body log with
    | (Ok a, log') => (Ok a, log')
    | (Throw error, log') => handler error log'
    end.

(** [error instanceof Error ? error.message : fallback] *)
Definition messageOr (error : Thrown) (fallback : string) : string :=
  match error with
  | ThrownApi e => message e
  | ThrownError e => err_message e
  | ThrownValue _ => fallback
  end.

Record ConnectionResult : Type := mkConnectionResult {
  connected : bool;
  connection_message : string
}.

Section Operations.

Variable transport : Request -> FetchOutcome.
Variable this : SegmentClientImpl.

Definition getWorkspace : Net value :=
  response <~ publicApiRequest transport this "/" noInit ;;
  data <~ lift (get response "data") ;;
  lift (get data "workspace").

Definition testConnection : Net ConnectionResult :=
  tryCatch
    (if present (accessToken (credentials this)) then
       _ <~ getWorkspace ;;
       ret {| connected := true;
              connection_message := "Successfully connected to Segment Public API" |}
     else if present (writeKey (credentials this)) then
       _ <~ identify transport this "segment-mcp-test" (Obj [ ("test", Bool true) ])
              Undefined Undefined ;;
       ret {| connected := true;
              connection_message := "Successfully connected to Segment Tracking API" |}
     else
       ret {| connected := false; connection_message := "No credentials provided" |})
    (fun error =>
       ret {| connected := false;
              connection_message := messageOr error "Connection failed" |}).

Definition track (userId event : string) (properties context anonymousId : value)
  : Net value :=
  let payload := Obj [ ("type", Str "track");
                       ("userId", Str userId);
                       ("event", Str event);
                       ("properties", properties);
                       ("context", context);
                       ("anonymousId", anonymousId) ] in
  trackingRequest transport this "/track" payload.

Definition createSource (slug name catalogId : string) : Net value :=
  response <~ publicApiRequest transport this "/sources"
                {| init_method := Some "POST";
                   init_body := JSON_stringify (Obj [ ("slug", Str slug);
                                                      ("name", Str name);
                                                      ("metadataId", Str catalogId) ]);
                   init_headers := None |} ;;
  data <~ lift (get response "data") ;;
  lift (get data "source").

(** [name?: string], [enabled?: boolean]: each a value or [undefined]. *)
Definition updateSource (sourceId : string) (name enabled : value) : Net value :=
  response <~ publicApiRequest transport this ("/sources/" ++ sourceId)
                {| init_method := Some "PATCH";
                   init_body := JSON_stringify (Obj [ ("name", name); ("enabled", enabled) ]);
                   init_headers := None |} ;;
  data <~ lift (get response "data") ;;
  lift (get data "source").

Definition deleteSource (sourceId : string) : Net value :=
  _ <~ publicApiRequest transport this ("/sources/" ++ sourceId)
         {| init_method := Some "DELETE"; init_body := None; init_headers := None |} ;;
  ret Undefined.

(** [if (x !== undefined) body.k = x], on the body built so far. *)
Definition assignIfDefined (k : string) (x : value) (body : list (string * value))
  : list (string * value) :=
  match x with
  | Undefined => body
  | _ => (body ++ [ (k, x) ])%list
  end.

Definition updateDestinationFilter (destinationId filterId : string)
  (title ifClause actions enabled description : value) : Net value :=
  let body := [] in
  let body := assignIfDefined "title" title body in
  let body := assignIfDefined "if" ifClause body in
  let body := assignIfDefined "actions" actions body in
  let body := assignIfDefined "enabled" enabled body in
  let body := assignIfDefined "description" description body in
  response <~ publicApiRequest transport this
                ("/destinations/" ++ destinationId ++ "/filters/" ++ filterId)
                {| init_method := Some "PATCH";
                   init_body := JSON_stringify (Obj body);
                   init_headers := None |} ;;
  data <~ lift (get response "data") ;;
  lift (get data "filter").

End Operations.

End ClientOps.

(* ===================================================================== *)
(** ** tools and index.ts: handlers with a text of their own, the worker *)
(* ===================================================================== *)

Module Worker.
Import Js Errors Control Web Env Client Formatters Tools EnvHelpers ClientOps.

Definition textResponse (t : option string) (isError : option bool) : ToolResponse :=
  {| content := [ {| type := "text"; text := t |} ]; isError := isError |}.

Definition segment_delete_source (transport : Request -> FetchOutcome)
  (client : SegmentClientImpl) (sourceId : string)
  : Net ToolResponse :=
  handler (deleteSource transport client sourceId)
          (fun _ => Ok (textResponse
                          (JSON_stringify_2
                             (Obj [ ("success", Bool true);
                                    ("message", Str ("Source " ++ sourceId ++ " deleted")) ]))
                          None)).

Definition segment_identify (transport : Request -> FetchOutcome)
  (client : SegmentClientImpl) (userId : string) (traits anonymousId context : value)
  : Net ToolResponse :=
  handler (identify transport client userId traits context anonymousId)
          (fun result => Ok (textResponse
                               (JSON_stringify_2
                                  (Obj [ ("success", Bool true);
                                         ("message", Str "Identify call sent");
                                         ("result", result) ]))
                               None)).



Definition SERVER_NAME : string := "primrose-mcp-segment".
Definition SERVER_VERSION : string := "1.0.0".

(** The request as the worker reads it: the path of its URL, its method and
    its headers. *)
Record WorkerRequest : Type := mkWorkerRequest {
  pathname : string;
  method : string;
  request_headers : HeaderList
}.

(** [new Response(body, { status, headers })]; the status is 200 when not
    given. *)
Record WorkerResponse : Type := mkWorkerResponse {
  response_body : option string;
  response_status : Z;
  response_headers : HeaderList
}.

(** The worker answers by itself, or hands the request to the MCP handler of
    a server created for the tenant's credentials. *)
Inductive Outcome : Type :=
| Reply (r : WorkerResponse)
| Delegate (credentials : TenantCredentials).

Definition jsonHeaders : HeaderList := [ ("Content-Type", "application/json") ].

Definition strings (l : list string) : value := Arr (map Str l).

Definition documentation : value :=
  Obj [ ("name", Str SERVER_NAME);
        ("version", Str SERVER_VERSION);
        ("description", Str "Multi-tenant Segment MCP Server");
        ("endpoints",
         Obj [ ("mcp", Str "/mcp (POST) - Streamable HTTP MCP endpoint");
               ("health", Str "/health - Health check") ]);
        ("authentication",
         Obj [ ("description", Str "Pass tenant credentials via request headers");
               ("tracking_api",
                Obj [ ("header", Str "X-Segment-Write-Key");
                      ("description",
                       Str "Write key for Tracking API (identify, track, page, etc.)") ]);
               ("public_api",
                Obj [ ("header", Str "X-Segment-Access-Token");
                      ("description",
                       Str "Bearer token for Public API (sources, destinations, etc.)") ]) ]);
        ("tools",
         Obj [ ("tracking",
                strings [ "segment_identify"; "segment_track"; "segment_page";
                          "segment_screen"; "segment_group"; "segment_alias";
                          "segment_batch" ]);
               ("sources",
                strings [ "segment_list_sources"; "segment_get_source";
                          "segment_create_source"; "segment_update_source";
                          "segment_delete_source" ]);
               ("destinations",
                strings [ "segment_list_destinations"; "segment_get_destination";
                          "segment_create_destination"; "segment_update_destination";
                          "segment_delete_destination" ]);
               ("warehouses",
                strings [ "segment_list_warehouses"; "segment_get_warehouse";
                          "segment_create_warehouse"; "segment_update_warehouse";
                          "segment_delete_warehouse" ]);
               ("tracking_plans",
                strings [ "segment_list_tracking_plans"; "segment_get_tracking_plan";
                          "segment_create_tracking_plan" ]);
               ("functions",
                strings [ "segment_list_functions"; "segment_get_function";
                          "segment_create_function"; "segment_deploy_function" ]);
               ("engage",
                strings [ "segment_list_audiences"; "segment_list_computed_traits";
                          "segment_list_spaces" ]);
               ("admin",
                strings [ "segment_list_users"; "segment_list_labels";
                          "segment_list_audit_events"; "segment_get_workspace" ]) ]) ].

(** The worker's [fetch], up to the point where it hands over to the MCP
    handler. *)
Definition worker_fetch (request : WorkerRequest) : Outcome :=
  if pathname request =? "/health" then
    Reply {| response_body := JSON_stringify (Obj [ ("status", Str "ok");
                                                    ("server", Str SERVER_NAME) ]);
             response_status := 200;
             response_headers := jsonHeaders |}
  else if (pathname request =? "/mcp") && (method request =? "POST") then
    let credentials := parseTenantCredentials (request_headers request) in
    match validateCredentials credentials with
    | Throw error =>
        Reply {| response_body :=
                   JSON_stringify
                     (Obj [ ("error", Str "Unauthorized");
                            ("message", Str (messageOr error "Invalid credentials"));
                            ("required_headers",
                             strings [ "X-Segment-Write-Key or X-Segment-Access-Token" ]) ]);
                 response_status := 401;
                 response_headers := jsonHeaders |}
    | Ok _ => Delegate credentials
    end
  else if pathname request =? "/sse" then
    Reply {| response_body :=
               Some "SSE endpoint requires Durable Objects. Enable in wrangler.jsonc.";
             response_status := 501;
             response_headers := [] |}
  else
    Reply {| response_body := JSON_stringify documentation;
             response_status := 200;
             response_headers := jsonHeaders |}.

End Worker.

(* ===================================================================== *)
(** ** The specification's vocabulary *)
(* ===================================================================== *)

(** The definitions below follow the words of the specification, or of its
    amended sentences; the theorems compare them with the embedding of the
    code above. *)

Module Spec.
Import Js Errors Control Web Formatters.
Local Open Scope result_scope.

(** The flag the taxonomy attaches to a kind. *)
Definition kindRetryable (k : Kind) : bool :=
  match k with
  | RateLimited => true
  | _ => false
  end.

(** The default of the base constructor's fourth parameter. *)
Definition flagOrDefault (r : option bool) : bool :=
  match r with
  | Some b => b
  | None => false
  end.

(** A message that indicates network unreachability, a timeout or a
    connection reset. *)
Definition transportMarker (msg : string) : bool :=
  includes "network" msg || includes "timeout" msg || includes "ECONNRESET" msg.





(** [v?.k] as a value: reading through an absent object gives
    [undefined]. *)
Definition field (v : value) (k : string) : value :=
  match getOpt v k with
  | Ok x => x
  | Throw _ => Undefined
  end.

Definition property (k : string) (props : list (string * value)) : value :=
  match lookup k props with
  | Some x => x
  | None => Undefined
  end.

(** A word with its first character in upper case. *)
Definition capitalized (s : string) : string :=
  match s with
  | "" => ""
  | String c r => toUpperCaseUnit c ++ r
  end.

(** A string whose first character has its upper case among the code units
    the embedding carries. *)
Definition headMapped (s : string) : bool :=
  match s with
  | "" => true
  | String c _ => caseMapped c
  end.

(** The singular of a resource kind: the kind without its final s, when it
    has one. *)
Fixpoint endsWithS (s : string) : bool :=
  match s with
  | "" => false
  | String c r =>
      match r with
      | "" => (Js.code c =? 115)%N
      | _ => endsWithS r
      end
  end.

Definition singular (s : string) : string :=
  if endsWithS s then substring 0 (String.length s - 1) s else s.

(** The summary line of an empty collection; [t] is the total as a
    string. *)
Definition emptySummary (total : value) (t : string) : string :=
  match total with
  | Undefined => "**Showing:** 0"
  | _ => "**Total:** " ++ t ++ " | **Showing:** 0"
  end.

(** The more-available line, present when there is a next cursor; [c] is
    the cursor as a string. *)
Definition moreLines (next : value) (c : string) : list string :=
  if truthy next
  then [ "**More available:** Yes (cursor: `" ++ c ++ "`)" ]
  else [].

Definition noItemsLine : string := "_No items found._".

(** The lines of an empty paginated collection. *)
Definition emptyCollectionLines (resourceKind : string) (total : value) (t : string)
  (next : value) (c : string) : list string :=
  let heading := "## " ++ capitalized resourceKind in
  (heading :: "" :: emptySummary total t
   :: moreLines next c ++ [ ""; noItemsLine ])%list.

(** A table row, header or separator line starts with a vertical bar. *)
Definition isTableLine (l : string) : bool := prefix "|" l.

(** The lines of a text, and a string that is one line. *)
Fixpoint textLines (s : string) : list string :=
  match s with
  | "" => [ "" ]
  | String c r =>
      if (Js.code c =? 10)%N then "" :: textLines r
      else match textLines r with
           | l :: ls => String c l :: ls
           | [] => [ String c "" ]
           end
  end.

Fixpoint singleLine (s : string) : bool :=
  match s with
  | "" => true
  | String c r => negb (Js.code c =? 10)%N && singleLine r
  end.

(** The resource kinds with a column layout of their own. *)
Definition recognised (resourceKind : string) : bool :=
  existsb (String.eqb resourceKind)
    [ "sources"; "destinations"; "warehouses"; "tracking-plans"; "functions";
      "audiences"; "computed-traits"; "transformations" ].

(** The columns of the generic table: the first five keys of the first
    item. *)
Definition columns (first : list (string * value)) : list string :=
  firstn 5 (map fst first).

(** The members every object inherits, with the name each function goes
    by. *)
Definition inheritedFunctions : list (string * string) :=
  [ ("constructor", "Object"); ("toString", "toString"); ("valueOf", "valueOf");
    ("toLocaleString", "toLocaleString"); ("hasOwnProperty", "hasOwnProperty");
    ("isPrototypeOf", "isPrototypeOf");
    ("propertyIsEnumerable", "propertyIsEnumerable");
    ("__defineGetter__", "__defineGetter__"); ("__defineSetter__", "__defineSetter__");
    ("__lookupGetter__", "__lookupGetter__"); ("__lookupSetter__", "__lookupSetter__") ].

(** The cell of a column the row's object has no value for: a dash, unless
    the column is named as an inherited member, which is then what is
    printed. *)
Definition missingCell (k : string) : string :=
  if k =? "__proto__" then "[object Object]"
  else match methodName k inheritedFunctions with
       | Some n => "function " ++ n ++ "() { [native code] }"
       | None => "-"
       end.

(** A cell: the value of the column in the row's object as a string, a dash
    when it is [null] or [undefined]. *)
Definition cell (props : list (string * value)) (k : string) : Result string :=
  match lookup k props with
  | Some Undefined | Some Null => Ok "-"
  | Some v => ToString v
  | None => Ok (missingCell k)
  end.

Definition separator (keys : list string) : string :=
  "|" ++ join "|" (map (fun _ => "---") keys) ++ "|".

Definition genericTable (first : list (string * value))
  (rest : list (list (string * value))) : Result string :=
  let keys := columns first in
  rows <- mapM (fun props => cells <- mapM (cell props) keys ;; Ok (row cells))
            (first :: rest) ;;
  Ok (join LF (row keys :: separator keys :: rows)).

(** An upper-case letter among the code units carried: A..Z, and the
    capitals 192..222 but for the multiplication sign. *)
Definition isCapital (c : ascii) : bool :=
  let n := Js.code c in
  (between 65 90 n || (between 192 222 n && negb (n =? 215)))%N.

(** A space before each upper-case letter. *)
Fixpoint spaceCapitals (s : string) : string :=
  match s with
  | "" => ""
  | String c r =>
      if isCapital c then String " " (String c (spaceCapitals r))
      else String c (spaceCapitals r)
  end.

(** Title Case of a camelCase key, as the specification words it: a space
    before each internal upper-case letter, and the first character
    capitalised. *)
Definition titleCase (key : string) : string :=
  match key with
  | "" => ""
  | String c r => toUpperCaseUnit c ++ spaceCapitals r
  end.

(** A space before each of the letters A..Z. *)
Fixpoint spaceUppers (s : string) : string :=
  match s with
  | "" => ""
  | String c r =>
      if isUpper c then String " " (String c (spaceUppers r))
      else String c (spaceUppers r)
  end.

(** The label of a key, as the code makes it: a space before every letter
    A..Z, the first character of the result in upper case, the white space
    at both ends removed. *)
Definition label (key : string) : string := trim (capitalized (spaceUppers key)).

(** A key with no white space at either end, as a camelCase key is. *)
Definition trimmed (key : string) : Prop := trim key = key.

(** A key whose upper-case letters are all among A..Z. *)
Fixpoint plainCapitals (key : string) : bool :=
  match key with
  | "" => true
  | String c r => (isUpper c || negb (isCapital c)) && plainCapitals r
  end.

(** The structured serialization of a nested value. *)
Definition serialization (v : value) : string :=
  match JSON_stringify_2 v with
  | Some s => s
  | None => ""
  end.

(** A scalar as a string. *)
Definition scalarText (v : value) : string :=
  match v with
  | Bool b => if b then "true" else "false"
  | Num n => Number_toString n
  | Str s => s
  | _ => ""
  end.

(** The lines of one top-level field: none for [null] and [undefined], a
    labelled fenced block for an object or array, one line for a scalar. *)
Definition fieldLines (kv : string * value) : list string :=
  match snd kv with
  | Undefined | Null => []
  | Arr _ | Obj _ =>
      [ "**" ++ label (fst kv) ++ ":**";
        "```json";
        serialization (snd kv);
        "```" ]
  | Bool _ | Num _ | Str _ =>
      [ "**" ++ label (fst kv) ++ ":** " ++ scalarText (snd kv) ]
  end.

(** The rendering of a single object. *)
Definition objectSection (props : list (string * value)) (resourceKind : string)
  : string :=
  join LF (("## " ++ capitalized (singular resourceKind))
           :: "" :: flat_map fieldLines props).

(** The entries of a parameter mapping that reach the query string: those
    whose value is neither [undefined] nor [null]. *)
Definition kept (entries : list (string * value)) : list (string * value) :=
  filter (fun kv => negb (isNullish (snd kv))) entries.

(** An entry with its value stringified. *)
Definition stringified (kv : string * value) : Result (string * string) :=
  s <- ToString (snd kv) ;; Ok (fst kv, s).

(** One [name=value] pair, both form-encoded. *)
Definition pair (nv : string * string) : string :=
  urlencode (fst nv) ++ "=" ++ urlencode (snd nv).

Definition queryString (pairs : list (string * string)) : string :=
  match pairs with
  | [] => ""
  | l => "?" ++ join "&" (map pair l)
  end.

(** A number, a string or a boolean: what the tools pass as parameters. *)
Definition scalar (v : value) : bool :=
  match v with
  | Bool _ | Num _ | Str _ => true
  | _ => false
  end.

(** The loop body of [buildQueryString]. *)
Definition step (acc : Result URLSearchParams) (kv : string * value)
  : Result URLSearchParams :=
  q <- acc ;;
  if negb (isNullish (snd kv))
  then s <- ToString (snd kv) ;; Ok (Web.set (fst kv) s q)
  else Ok q.

(** The value of a decimal numeral read from its most significant digit,
    as [parseInt] accumulates it. *)
Fixpoint horner (d : Decimal.uint) (acc : Z) : Z :=
  match d with
  | Decimal.Nil => acc
  | Decimal.D0 l => horner l (10 * acc + 0)
  | Decimal.D1 l => horner l (10 * acc + 1)
  | Decimal.D2 l => horner l (10 * acc + 2)
  | Decimal.D3 l => horner l (10 * acc + 3)
  | Decimal.D4 l => horner l (10 * acc + 4)
  | Decimal.D5 l => horner l (10 * acc + 5)
  | Decimal.D6 l => horner l (10 * acc + 6)
  | Decimal.D7 l => horner l (10 * acc + 7)
  | Decimal.D8 l => horner l (10 * acc + 8)
  | Decimal.D9 l => horner l (10 * acc + 9)
  end%Z.

End Spec.

(* ===================================================================== *)
(** ** Vocabulary of the further properties *)
(* ===================================================================== *)

Module Vocabulary.
Import Js Errors Control Web Env Client Formatters EnvHelpers ClientOps Worker.

(** The request the tracking helper hands to [fetch]. *)
Definition trackingCall (this : SegmentClientImpl) (endpoint : string) (payload : value)
  : Request :=
  {| req_url := this_trackingBaseUrl this ++ endpoint;
     req_method := Some "POST";
     req_headers :=
       [ ("Authorization",
          "Basic " ++ btoa (interpolate (writeKey (credentials this)) ++ ":"));
         ("Content-Type", "application/json") ];
     req_body := JSON_stringify payload |}.

(** The request the public helper hands to [fetch]. *)
Definition publicCall (this : SegmentClientImpl) (endpoint : string) (options : RequestInit)
  : Request :=
  {| req_url := this_publicApiBaseUrl this ++ endpoint;
     req_method := init_method options;
     req_headers :=
       spread [ ("Authorization",
                 "Bearer " ++ interpolate (accessToken (credentials this)));
                ("Content-Type", "application/json") ]
              (match init_headers options with
               | Some h => h
               | None => []
               end);
     req_body := init_body options |}.

(** The first truthy candidate, or the default: what a chain of [||] ending
    in the default message yields. *)
Fixpoint firstTruthy (candidates : list value) (dflt : string) : value :=
  match candidates with
  | [] => Str dflt
  | v :: r => if truthy v then v else firstTruthy r dflt
  end.

(** The Generic error a failed response gives, with the message [m]. *)
Definition failure (response : Response) (m : string) : Thrown :=
  ThrownApi {| name := "SegmentApiError"; message := m;
               statusCode := Some (Int (status response));
               code := "SEGMENT_ERROR"; retryable := false; subclass := Base |}.

(** What constructing the Generic error from the message chosen gives: the
    error whose message is that value as a string, or what converting the
    value to a string throws. *)
Definition raised (response : Response) (chosen : value) : Result value :=
  match ToString chosen with
  | Ok m => Throw (failure response m)
  | Throw t => Throw t
  end.

(** The error the conversion of an object to a string throws. *)
Definition notConvertible : Thrown :=
  TypeError "Cannot convert object to primitive value".

(** A value whose conversion to a string, and that of every value inside
    it, succeeds: no object in it has a member named [toString]. *)
Fixpoint printable (v : value) : bool :=
  match v with
  | Arr items => forallb printable items
  | Obj props =>
      match lookup "toString" props with
      | Some _ => false
      | None => forallb (fun kv => printable (snd kv)) props
      end
  | _ => true
  end.

(** A property whose value is not [undefined]: the ones [JSON.stringify]
    writes. *)
Definition written (kv : string * value) : bool :=
  match snd kv with
  | Undefined => false
  | _ => true
  end.

(** The number of occurrences of a code unit in a string. *)
Fixpoint occurrences (c : ascii) (s : string) : nat :=
  match s with
  | "" => 0
  | String x r => (if Ascii.eqb x c then 1 else 0) + occurrences c r
  end.

(** A string that starts with a lower-case letter, as a property name of the
    error bodies does. *)
Definition startsLower (k : string) : bool :=
  match k with
  | "" => false
  | String c _ => isLower c
  end.


(** A tool result that is one text. *)
Definition textResult (t : option string) : ToolResponse :=
  {| content := [ {| type := "text"; text := t |} ]; isError := None |}.

(** The table formatter the paginated renderer picks for a resource kind. *)
Definition tableOf (entityType : string) (items : list value) : Result string :=
  if entityType =? "sources" then formatSourcesTable items
  else if entityType =? "destinations" then formatDestinationsTable items
  else if entityType =? "warehouses" then formatWarehousesTable items
  else if entityType =? "tracking-plans" then formatTrackingPlansTable items
  else if entityType =? "functions" then formatFunctionsTable items
  else if entityType =? "audiences" then formatAudiencesTable items
  else if entityType =? "computed-traits" then formatComputedTraitsTable items
  else if entityType =? "transformations" then formatTransformationsTable items
  else formatGenericTable items.

(** The header line of the table of a recognised resource kind. *)
Definition headerOf (entityType : string) : string :=
  if entityType =? "sources" then "| ID | Name | Slug | Enabled |"
  else if entityType =? "destinations" then "| ID | Name | Type | Enabled |"
  else if entityType =? "warehouses" then "| ID | Name | Type | Enabled |"
  else if entityType =? "tracking-plans" then "| ID | Name | Type | Updated |"
  else if entityType =? "functions" then "| ID | Name | Type | Deployed |"
  else if entityType =? "transformations" then "| ID | Name | Source ID | Enabled |"
  else "| ID | Name | Key | Status | Enabled |".

Definition separatorOf (entityType : string) : string :=
  if (entityType =? "audiences") || (entityType =? "computed-traits")
  then "|---|---|---|---|---|"
  else "|---|---|---|---|".

(** The summary line of a page of [n] items; [t] is the total as a
    string. *)
Definition pageSummary (total : value) (t : string) (n : nat) : string :=
  match total with
  | Undefined => "**Showing:** " ++ Number_toString (Int (Z.of_nat n))
  | _ => "**Total:** " ++ t ++ " | **Showing:** " ++ Number_toString (Int (Z.of_nat n))
  end.

(** The lines before the table of a page. *)
Definition pagePreamble (entityType : string) (total : value) (t : string) (n : nat)
  (next : value) (c : string) : list string :=
  let heading := "## " ++ Spec.capitalized entityType in
  (heading :: "" :: pageSummary total t n :: Spec.moreLines next c ++ [ "" ])%list.

(** What the connection test reports for a 2xx answer of the public API:
    connected when the answer holds a [data] member to read the workspace
    from, else the message of the error that reading it threw. *)
Definition reading (receiver k : string) : string :=
  "Cannot read properties of " ++ receiver ++ " (reading '" ++ k ++ "')".

Definition connectionReport (response : Response) : ConnectionResult :=
  let failed := mkConnectionResult false in
  if (status response =? 204)%Z then failed (reading "undefined" "data")
  else match parsed response with
       | ParseFailure msg => failed msg
       | ParsedValue Undefined => failed (reading "undefined" "data")
       | ParsedValue Null => failed (reading "null" "data")
       | ParsedValue v =>
           match Spec.field v "data" with
           | Undefined => failed (reading "undefined" "workspace")
           | Null => failed (reading "null" "workspace")
           | _ => mkConnectionResult true "Successfully connected to Segment Public API"
           end
       end.

(** *** Outcomes of computations *)

(** An error the engine raised, as opposed to one of the taxonomy or a
    value that is no error. *)
Definition native (t : Thrown) : Prop := exists e, t = ThrownError e.

Definition throwsNative {A : Type} (r : Result A) : Prop :=
  forall t, r = Throw t -> native t.

(** A computation that returns. *)
Definition succeeds {A : Type} (r : Result A) : Prop := exists a, r = Ok a.

(** A computation that throws nothing but the error of a failed conversion
    to a string. *)
Definition throwsConversion {A : Type} (r : Result A) : Prop :=
  forall t, r = Throw t -> t = notConvertible.

(** The body gives no message: it is not JSON, or it is JSON but not an
    object. *)
Definition noMessage (p : Parsed) : Prop :=
  match p with
  | ParseFailure _ => True
  | ParsedValue (Obj _) => False
  | ParsedValue _ => True
  end.

(** A string without white space. *)
Fixpoint noWhite (s : string) : bool :=
  match s with
  | "" => true
  | String c r => negb (isWhiteSpace c) && noWhite r
  end.

End Vocabulary.

Ltac by_char c :=
  destruct c as [[] [] [] [] [] [] [] []]; vm_compute;
  intros; try reflexivity; try discriminate.

(* ===================================================================== *)
(** * Properties *)
(* ===================================================================== *)

Import Js Errors Control Logging Web Env Client Formatters Tools Spec.
Import EnvHelpers ClientOps Worker Vocabulary.

(** ** Strings, numbers and results *)

Lemma append_nil_r (s : string) : s ++ "" = s.
Proof. induction s as [| c s IH]; cbn; [reflexivity | now rewrite IH]. Qed.


Lemma capitalize_capitalized (s : string) : capitalize s = capitalized s.
Proof.
  destruct s as [| c r]; [reflexivity |].
  unfold capitalize. cbn [charAt0 slice1 toUpperCase capitalized].
  now rewrite append_nil_r.
Qed.

Lemma terminator_upper (c : ascii) :
  isLineTerminator c = true -> toUpperCaseUnit c = String c "".
Proof. by_char c. Qed.

Lemma upperFirst_capitalized (s : string) : upperFirst s = capitalized s.
Proof.
  destruct s as [| c r]; [reflexivity |]. cbn [upperFirst capitalized].
  destruct (isLineTerminator c) eqn:E; [| reflexivity].
  now rewrite (terminator_upper c E).
Qed.

Lemma dropFinalS_singular (s : string) : dropFinalS s = singular s.
Proof.
  unfold singular. induction s as [| c r IH]; [reflexivity |].
  cbn [dropFinalS endsWithS String.length]. rewrite Nat.sub_1_r. cbn [Nat.pred].
  destruct r as [| d r'].
  - destruct (Js.code c =? 115)%N; reflexivity.
  - rewrite IH. cbn [String.length]. rewrite Nat.sub_1_r. cbn [Nat.pred].
    destruct (endsWithS (String d r')); [| reflexivity].
    reflexivity.
Qed.

Lemma getOpt_field (v : value) (k : string) : getOpt v k = Ok (field v k).
Proof. unfold field, getOpt. destruct v; reflexivity. Qed.

Lemma get_Obj (props : list (string * value)) (k : string) :
  get (Obj props) k = Ok (property k props).
Proof. reflexivity. Qed.

Lemma decimal_negative (p : positive) :
  decimal (Z.neg p) = "-" ++ decimal (Z.pos p).
Proof. reflexivity. Qed.

Lemma toNumber_small (z : Z) : (Z.abs z < two53)%Z -> toNumber z = Int z.
Proof.
  intros H. unfold toNumber, nearest.
  apply Z.ltb_lt in H. rewrite H. f_equal.
  destruct z; reflexivity.
Qed.

(** A Number below 2^53 in magnitude prints as the decimal numeral of its
    integer. *)
Lemma Number_toString_small (z : Z) :
  (Z.abs z < two53)%Z -> Number_toString (Int z) = decimal z.
Proof.
  intros H. unfold Number_toString, nearest, printInteger.
  apply Z.ltb_lt in H. rewrite H, H.
  destruct z as [| p | p]; reflexivity.
Qed.

Lemma Number_toString_length (n : nat) :
  (Z.of_nat n < two53)%Z ->
  Number_toString (Int (Z.of_nat n)) = decimal (Z.of_nat n).
Proof. intros H. apply Number_toString_small. lia. Qed.

(** ** Induction on values *)

Section ValueInduction.

Variable P : value -> Prop.
Hypothesis P_Undefined : P Undefined.
Hypothesis P_Null : P Null.
Hypothesis P_Bool : forall b, P (Bool b).
Hypothesis P_Num : forall n, P (Num n).
Hypothesis P_Str : forall s, P (Str s).
Hypothesis P_Arr : forall items, Forall P items -> P (Arr items).
Hypothesis P_Obj : forall props, Forall (fun kv => P (snd kv)) props -> P (Obj props).

Fixpoint value_nested_ind (v : value) : P v :=
  match v with
  | Undefined => P_Undefined
  | Null => P_Null
  | Bool b => P_Bool b
  | Num n => P_Num n
  | Str s => P_Str s
  | Arr items =>
      P_Arr items
        ((fix all (l : list value) : Forall P l :=
            match l with
            | [] => Forall_nil P
            | x :: r => Forall_cons x (value_nested_ind x) (all r)
            end) items)
  | Obj props =>
      P_Obj props
        ((fix all (l : list (string * value)) : Forall (fun kv => P (snd kv)) l :=
            match l with
            | [] => Forall_nil _
            | kv :: r => Forall_cons kv (value_nested_ind (snd kv)) (all r)
            end) props)
  end.

End ValueInduction.

(** ** What the renderer can throw *)

Lemma native_TypeError (msg : string) : native (TypeError msg).
Proof. eexists. reflexivity. Qed.

Lemma throwsNative_Ok {A : Type} (a : A) : throwsNative (Ok a).
Proof. intros t H. discriminate. Qed.

Lemma throwsNative_TypeError {A : Type} (msg : string) :
  throwsNative (@Throw A (TypeError msg)).
Proof. intros t H. injection H as <-. apply native_TypeError. Qed.

Lemma throwsNative_bind {A B : Type} (r : Result A) (k : A -> Result B) :
  throwsNative r -> (forall a, throwsNative (k a)) -> throwsNative (bind r k).
Proof.
  intros Hr Hk t. destruct r as [a | t']; cbn [bind].
  - apply Hk.
  - intros H. injection H as <-. now apply Hr.
Qed.

Lemma throwsNative_mapM {A B : Type} (f : A -> Result B) (l : list A) :
  (forall a, throwsNative (f a)) -> throwsNative (mapM f l).
Proof.
  intros Hf. induction l as [| a l IH]; cbn [mapM]; [apply throwsNative_Ok |].
  apply throwsNative_bind; [apply Hf |]. intros b.
  apply throwsNative_bind; [exact IH |]. intros bs. apply throwsNative_Ok.
Qed.

Lemma mapM_Forall_throws {A B : Type} (f : A -> Result B) (l : list A)
  (Q : Thrown -> Prop) :
  Forall (fun a => forall t, f a = Throw t -> Q t) l ->
  forall t, mapM f l = Throw t -> Q t.
Proof.
  intros H. induction H as [| a l Ha _ IH]; intros t; cbn [mapM]; [discriminate |].
  destruct (f a) as [b | t'] eqn:E; cbn [bind].
  - destruct (mapM f l) as [bs | t'']; cbn [bind]; [discriminate |].
    intros H. injection H as <-. now apply IH.
  - intros H. injection H as <-. now apply Ha.
Qed.

(** The only error a conversion to a string throws. *)
Lemma ToString_throws (v : value) (t : Thrown) :
  ToString v = Throw t -> t = TypeError "Cannot convert object to primitive value".
Proof.
  revert t. induction v using value_nested_ind; intros t; cbn [ToString];
    try discriminate.
  - destruct (mapM _ items) as [parts | t'] eqn:E; cbn [bind]; [discriminate |].
    intros Ht. injection Ht as <-.
    revert t' E.
    apply (mapM_Forall_throws _ items
             (fun t => t = TypeError "Cannot convert object to primitive value")).
    eapply Forall_impl; [| exact H].
    intros x Hx t. destruct x; try discriminate; apply Hx.
  - destruct (lookup "toString" props); [| discriminate].
    intros Ht. now injection Ht as <-.
Qed.

Lemma throwsNative_ToString (v : value) : throwsNative (ToString v).
Proof. intros t H. rewrite (ToString_throws v t H). apply native_TypeError. Qed.

Lemma throwsNative_get (v : value) (k : string) : throwsNative (get v k).
Proof. destruct v; cbn [get]; try apply throwsNative_Ok; apply throwsNative_TypeError. Qed.

Lemma throwsNative_getOpt (v : value) (k : string) : throwsNative (getOpt v k).
Proof. rewrite getOpt_field. apply throwsNative_Ok. Qed.

Lemma throwsNative_read (v : value) (k : string) : throwsNative (read v k).
Proof. destruct v; cbn [read]; try apply throwsNative_Ok; apply throwsNative_TypeError. Qed.

Lemma throwsNative_memberString (m : Member) : throwsNative (memberString m).
Proof.
  destruct m as [v | n | []]; cbn [memberString];
    try apply throwsNative_Ok. apply throwsNative_ToString.
Qed.

(** A scalar converts to its text. *)
Lemma ToString_scalar (v : value) : scalar v = true -> ToString v = Ok (scalarText v).
Proof. destruct v; cbn; intros H; try discriminate; reflexivity. Qed.
(** ** Error taxonomy *)

Lemma base_constructor_kind m s c r : kind (new_SegmentApiError m s c r) = Generic.
Proof. reflexivity. Qed.

(** The error thrown for an unclassified failure is the Generic one with the
    default flag, or the [TypeError] of the conversion of its message. *)
Lemma generic_flag (message : value) (r : Response) (log log' : list Request)
  (e : SegmentApiError) :
  @throwGeneric value message r log = (Throw (ThrownApi e), log') ->
  retryable e = kindRetryable (kind e).
Proof.
  unfold throwGeneric, throw, genericError.
  destruct (ToString message) as [m | t] eqn:E.
  - intros H. inversion H. reflexivity.
  - rewrite (ToString_throws _ _ E). discriminate.
Qed.

(** Every error of the taxonomy that one of the two request helpers throws
    carries the flag of its kind: the helpers call the base constructor with
    its default flag only. *)
Lemma client_errors_flag_by_kind (transport : Request -> FetchOutcome)
  (this : SegmentClientImpl) (log log' : list Request) (e : SegmentApiError) :
  (forall endpoint payload,
      trackingRequest transport this endpoint payload log = (Throw (ThrownApi e), log') ->
      retryable e = kindRetryable (kind e))
  /\ (forall endpoint options,
         publicApiRequest transport this endpoint options log = (Throw (ThrownApi e), log') ->
         retryable e = kindRetryable (kind e)).
Proof.
  split.
  - intros endpoint payload.
    unfold trackingRequest, nbind, lift, fetch, throw, getTrackingHeaders, genericError.
    destruct (present (writeKey (credentials this))); cbn [negb];
      [| intros H; inversion H; reflexivity].
    match goal with |- context [transport ?r] => destruct (transport r) as [r' | err] end;
      [| discriminate].
    destruct (status r' =? 429)%Z; [intros H; inversion H; reflexivity |].
    destruct ((status r' =? 401) || (status r' =? 403))%Z;
      [intros H; inversion H; reflexivity |].
    destruct (negb (ok r')); [apply generic_flag |].
    unfold Response_json. destruct (parsed r'); discriminate.
  - intros endpoint options.
    unfold publicApiRequest, nbind, lift, fetch, throw, ret, getPublicApiHeaders, genericError.
    destruct (present (accessToken (credentials this))); cbn [negb];
      [| intros H; inversion H; reflexivity].
    match goal with |- context [transport ?r] => destruct (transport r) as [r' | err] end;
      [| discriminate].
    destruct (status r' =? 429)%Z; [intros H; inversion H; reflexivity |].
    destruct ((status r' =? 401) || (status r' =? 403))%Z;
      [intros H; inversion H; reflexivity |].
    destruct (negb (ok r')); [apply generic_flag |].
    destruct (status r' =? 204)%Z; [discriminate |].
    unfold Response_json. destruct (parsed r'); discriminate.
Qed.

Lemma kindRetryable_true (k : Kind) : kindRetryable k = true <-> k = RateLimited.
Proof. destruct k; cbn; split; congruence. Qed.

(** C6, as stated, fails: two Generic errors built by the base constructor
    differ in their flag, so no function of the kind gives the flag. *)
Lemma retryable_not_a_function_of_kind :
  ~ (exists f : Kind -> bool,
       forall c : Construction, retryable (construct c) = f (kind (construct c))).
Proof.
  intros [f Hf].
  pose proof (Hf (NewSegmentApiError "upstream busy" (Some (Int 503)) None (Some true))) as H1.
  pose proof (Hf (NewSegmentApiError "upstream busy" (Some (Int 503)) None None)) as H2.
  cbn in H1, H2. congruence.
Qed.

(** C6 (amended): the five subclass constructors fix the retryable flag by
    the kind, true for RateLimited only; the base constructor, which builds
    the Generic errors, takes the flag as its optional fourth argument and
    defaults it to false. The request helpers pass no flag, so on every
    error they throw the flag is the one of the kind. *)
Theorem retryable_by_constructor :
  (forall c : Construction,
      retryable (construct c)
      = match c with
        | NewSegmentApiError _ _ _ r => flagOrDefault r
        | _ => kindRetryable (kind (construct c))
        end)
  /\ (forall transport this log log' e,
         (forall endpoint payload,
             trackingRequest transport this endpoint payload log
             = (Throw (ThrownApi e), log') ->
             retryable e = kindRetryable (kind e))
         /\ (forall endpoint options,
                publicApiRequest transport this endpoint options log
                = (Throw (ThrownApi e), log') ->
                retryable e = kindRetryable (kind e))).
Proof.
  split.
  - intros c. destruct c; reflexivity.
  - intros. apply client_errors_flag_by_kind.
Qed.

Lemma retryable_by_constructor_witness :
  let client := createSegmentClient (mkTenantCredentials None (Some "tok") None None) in
  let response := {| status := 500; headers := []; body := "oops";
                     parsed := ParseFailure "Unexpected token o in JSON at position 0" |} in
  let e := new_SegmentApiError "Public API error: 500" (Some (Int 500)) None None in
  fst (publicApiRequest (fun _ => Resolved response) client "/sources" noInit [])
  = Throw (ThrownApi e)
  /\ retryable e = kindRetryable (kind e).
Proof.
  cbv zeta. split; [reflexivity |].
  refine (proj2 (proj2 retryable_by_constructor
                   (fun _ => Resolved {| status := 500; headers := []; body := "oops";
                                         parsed := ParseFailure "Unexpected token o in JSON at position 0" |})
                   (createSegmentClient (mkTenantCredentials None (Some "tok") None None))
                   [] _ _)
                "/sources" noInit eq_refl).
Defined.

(** C1, as stated, fails: a Generic error built with the flag set is neither
    RateLimited nor a transport failure, and [isRetryableError] answers
    true. *)
Lemma isRetryableError_generic_flagged :
  let e := new_SegmentApiError "upstream busy" (Some (Int 503)) None (Some true) in
  kind e = Generic
  /\ kind e <> RateLimited
  /\ isRetryableError (ThrownApi e) = true.
Proof. cbn. repeat split; discriminate. Qed.

(** C1 (amended): [isRetryableError] answers true exactly for an API error
    whose retryable flag is set and for an [Error] outside the taxonomy
    whose message contains network, timeout or ECONNRESET. The flag is set
    on every RateLimited error, on no Unauthenticated, NotFound,
    InvalidInput or MissingCredential error, and on a Generic error only
    when its constructor was given it, which the default leaves false; so on
    the API errors the request helpers throw, malformed bodies included, the
    answer is true exactly for RateLimited. *)
Theorem isRetryableError_spec :
  (forall x : Thrown,
      isRetryableError x = true <->
      (exists e, x = ThrownApi e /\ retryable e = true)
      \/ (exists e, x = ThrownError e /\ transportMarker (err_message e) = true))
  /\ (forall c : Construction,
         isRetryableError (ThrownApi (construct c))
         = match c with
           | NewSegmentApiError _ _ _ r => flagOrDefault r
           | NewRateLimitError _ _ => true
           | _ => false
           end)
  /\ (forall transport this log log' e,
         (forall endpoint payload,
             trackingRequest transport this endpoint payload log
             = (Throw (ThrownApi e), log') ->
             (isRetryableError (ThrownApi e) = true <-> kind e = RateLimited))
         /\ (forall endpoint options,
                publicApiRequest transport this endpoint options log
                = (Throw (ThrownApi e), log') ->
                (isRetryableError (ThrownApi e) = true <-> kind e = RateLimited))).
Proof.
  split; [| split].
  - intros [e | e | v]; cbn; split.
    + intros H. left. now exists e.
    + intros [[e' [He' H]] | [e' [He' _]]]; [now inversion He'; subst | discriminate].
    + intros H. right. now exists e.
    + intros [[e' [He' _]] | [e' [He' H]]]; [discriminate | now inversion He'; subst].
    + discriminate.
    + intros [[e' [He' _]] | [e' [He' _]]]; discriminate.
  - intros c. destruct c; reflexivity.
  - intros transport this log log' e.
    destruct (client_errors_flag_by_kind transport this log log' e) as [T P].
    split; intros ? ? H; cbn [isRetryableError];
      [rewrite (T _ _ H) | rewrite (P _ _ H)]; apply kindRetryable_true.
Qed.

Lemma isRetryableError_spec_witness :
  let client := createSegmentClient (mkTenantCredentials None (Some "tok") None None) in
  let response := {| status := 502; headers := []; body := "<html>Bad Gateway</html>";
                     parsed := ParseFailure "Unexpected token < in JSON at position 0" |} in
  let e := new_SegmentApiError "Public API error: 502" (Some (Int 502)) None None in
  fst (publicApiRequest (fun _ => Resolved response) client "/sources" noInit [])
  = Throw (ThrownApi e)
  /\ kind e = Generic
  /\ (isRetryableError (ThrownApi e) = true <-> kind e = RateLimited).
Proof.
  cbv zeta. split; [reflexivity | split; [reflexivity |]].
  refine (proj2 (proj2 (proj2 isRetryableError_spec)
                   (fun _ => Resolved {| status := 502; headers := [];
                                         body := "<html>Bad Gateway</html>";
                                         parsed := ParseFailure "Unexpected token < in JSON at position 0" |})
                   (createSegmentClient (mkTenantCredentials None (Some "tok") None None))
                   [] _ _)
                "/sources" noInit eq_refl).
Defined.

(** ** The error envelope *)



Lemma tryCatch_ret_log {A : Type} (body : Net A) (recover : Thrown -> A)
  (log : list Request) :
  snd (tryCatch body (fun error => ret (recover error)) log) = snd (body log)
  /\ exists a, fst (tryCatch body (fun error => ret (recover error)) log) = Ok a.
Proof.
  unfold tryCatch, ret. destruct (body log) as [[a | t] l]; split; try reflexivity;
    eexists; reflexivity.
Qed.

Lemma testConnection_returns (transport : Request -> FetchOutcome)
  (this : SegmentClientImpl) (log : list Request) :
  exists r, fst (testConnection transport this log) = Ok r.
Proof. unfold testConnection. apply tryCatch_ret_log. Qed.




(** ** Rendering of collections *)

Lemma isPaginatedResponse_Obj (props : list (string * value)) :
  isPaginatedResponse (Obj props)
  = match lookup "data" props with
    | Some d => isArray d
    | None => false
    end.
Proof.
  unfold isPaginatedResponse, hasProperty. cbn [typeofObject isNullish negb andb own get].
  destruct (lookup "data" props); reflexivity.
Qed.

Lemma falsy_converts (v : value) :
  truthy v = false -> exists s, ToString v = Ok s.
Proof. destruct v; cbn; intros H; try discriminate; eexists; reflexivity. Qed.

(** The rendering of a paginated collection: the total and the cursor are
    converted, then the lines before the table are laid out, then the table
    of the resource kind is made, unless the page is empty. *)
Lemma paginated_unfold (props : list (string * value)) (entityType : string)
  (items : list value) :
  lookup "data" props = Some (Arr items) ->
  let total := field (property "pagination" props) "totalEntries" in
  let next := field (property "pagination" props) "next" in
  formatAsMarkdown (Obj props) entityType
  = bind (ToString total) (fun t =>
    bind (ToString next) (fun c =>
      let preamble := pagePreamble entityType total t (List.length items) next c in
      match items with
      | [] => Ok (join LF (preamble ++ [ noItemsLine ])%list)
      | _ => bind (tableOf entityType items)
                  (fun table => Ok (join LF (preamble ++ [ table ])%list))
      end)).
Proof.
  intros Hdata total next. unfold formatAsMarkdown.
  rewrite isPaginatedResponse_Obj, Hdata. cbn [isArray].
  unfold formatPaginatedAsMarkdown.
  rewrite !get_Obj. unfold property at 1. rewrite Hdata.
  cbn [bind]. cbn [get own String.eqb Ascii.eqb Bool.eqb].
  cbn [bind]. rewrite !getOpt_field, capitalize_capitalized. cbn [bind].
  fold total next. clearbody total next.
  set (n := List.length items).
  assert (S : match total with
              | Undefined =>
                  bind (ToString (Num (Int (Z.of_nat n))))
                       (fun c => Ok ("**Showing:** " ++ c))
              | _ =>
                  bind (ToString total) (fun t =>
                    bind (ToString (Num (Int (Z.of_nat n))))
                         (fun c => Ok ("**Total:** " ++ t ++ " | **Showing:** " ++ c)))
              end
              = bind (ToString total) (fun t => Ok (pageSummary total t n))).
  { destruct total; reflexivity. }
  rewrite S. clear S.
  assert (M : (if truthy next
               then bind (ToString next)
                      (fun cursor =>
                         Ok [ "**More available:** Yes (cursor: `" ++ cursor ++ "`)" ])
               else Ok [])
              = bind (ToString next) (fun c => Ok (moreLines next c))).
  { unfold moreLines. destruct (truthy next) eqn:Tn; [reflexivity |].
    destruct (falsy_converts next Tn) as [c ->]. reflexivity. }
  rewrite M. clear M.
  destruct (ToString total) as [t | e]; [| reflexivity]. cbn [bind].
  destruct (ToString next) as [c | e]; [| reflexivity]. cbn [bind].
  subst n. destruct items as [| item items]; [reflexivity |].
  cbn [List.length Z.of_nat elements]. reflexivity.
Qed.

Lemma textLines_nonempty (s : string) : textLines s <> [].
Proof.
  destruct s as [| c r]; cbn [textLines]; [discriminate |].
  destruct (Js.code c =? 10)%N; [discriminate |].
  destruct (textLines r); discriminate.
Qed.

Lemma textLines_single (s : string) : singleLine s = true -> textLines s = [ s ].
Proof.
  induction s as [| c r IH]; cbn [singleLine textLines]; [reflexivity |].
  destruct (Js.code c =? 10)%N; cbn [negb andb]; [discriminate |].
  intros H. now rewrite (IH H).
Qed.

Lemma textLines_line (a b : string) :
  singleLine a = true -> textLines (a ++ LF ++ b) = a :: textLines b.
Proof.
  induction a as [| c r IH]; cbn [singleLine append]; [intros _; reflexivity |].
  cbn [textLines]. destruct (Js.code c =? 10)%N; cbn [negb andb]; [discriminate |].
  intros H. now rewrite (IH H).
Qed.

(** A text made of single lines joined by line feeds has these lines. *)
Lemma textLines_join (lines : list string) :
  lines <> [] -> forallb singleLine lines = true -> textLines (join LF lines) = lines.
Proof.
  induction lines as [| a l IH]; [intros H; now elim H |]. intros _.
  cbn [forallb]. rewrite andb_true_iff. intros [Ha Hl].
  destruct l as [| b l].
  - cbn. now apply textLines_single.
  - change (join LF (a :: b :: l)) with (a ++ LF ++ join LF (b :: l)).
    rewrite (textLines_line _ _ Ha). f_equal. apply IH; [discriminate | exact Hl].
Qed.

Lemma singleLine_app (a b : string) :
  singleLine (a ++ b) = singleLine a && singleLine b.
Proof.
  induction a as [| c r IH]; cbn [singleLine append]; [reflexivity |].
  rewrite IH. now rewrite andb_assoc.
Qed.

Lemma singleLine_upper (c : ascii) :
  (Js.code c =? 10)%N = false -> singleLine (toUpperCaseUnit c) = true.
Proof. by_char c. Qed.

Lemma singleLine_capitalized (s : string) :
  singleLine s = true -> singleLine (capitalized s) = true.
Proof.
  destruct s as [| c r]; [reflexivity |]. cbn [singleLine capitalized].
  rewrite andb_true_iff, negb_true_iff. intros [Hc Hr].
  now rewrite singleLine_app, (singleLine_upper c Hc), Hr.
Qed.

(** C7, as stated, fails: an empty paginated collection whose total is an
    object with a member named [toString] has no rendering, the conversion
    of the total to a string throws. *)
Lemma empty_collection_total_not_convertible :
  let props := [ ("data", Arr []);
                 ("pagination",
                  Obj [ ("totalEntries", Obj [ ("toString", Num (Int 1)) ]) ]) ] in
  isPaginatedResponse (Obj props) = true
  /\ property "data" props = Arr []
  /\ formatAsMarkdown (Obj props) "sources"
     = Throw (TypeError "Cannot convert object to primitive value")
  /\ ~ (exists text, formatAsMarkdown (Obj props) "sources" = Ok text).
Proof.
  cbv zeta. repeat split. intros [text H]. vm_compute in H. discriminate.
Qed.

(** C7 (amended): for a paginated collection whose items array is empty,
    the rendering converts the total (when [totalEntries] is not
    [undefined]) and the next cursor (when there is one) to strings; when
    one of the conversions throws, the rendering throws that error.
    Otherwise it is the heading made from the resource kind, a blank line,
    the summary line showing the count 0 (after the total when
    [totalEntries] is not [undefined]), the more-available line when there
    is a next cursor, a blank line and the no-items line. None of these is
    a table line and the no-items line occurs once; they are the lines of
    the text when the kind, the total and the cursor hold no line feed. *)
Theorem empty_collection_rendering (props : list (string * value)) (resourceKind : string) :
  lookup "data" props = Some (Arr []) ->
  headMapped resourceKind = true ->
  let total := field (property "pagination" props) "totalEntries" in
  let next := field (property "pagination" props) "next" in
  (forall t c,
      ToString total = Ok t -> ToString next = Ok c ->
      let lines := emptyCollectionLines resourceKind total t next c in
      formatAsMarkdown (Obj props) resourceKind = Ok (join LF lines)
      /\ hd_error lines = Some ("## " ++ capitalized resourceKind)
      /\ In (emptySummary total t) lines
      /\ forallb (fun l => negb (isTableLine l)) lines = true
      /\ List.length (filter (String.eqb noItemsLine) lines) = 1%nat
      /\ (singleLine resourceKind = true -> singleLine t = true ->
          singleLine c = true ->
          textLines (join LF lines) = lines))
  /\ (forall e, ToString total = Throw e ->
                formatAsMarkdown (Obj props) resourceKind = Throw e)
  /\ (forall t e, ToString total = Ok t -> ToString next = Throw e ->
                  formatAsMarkdown (Obj props) resourceKind = Throw e).
Proof.
  intros Hdata _ total next.
  pose proof (paginated_unfold props resourceKind [] Hdata) as U.
  cbv zeta in U. fold total next in U.
  split; [| split].
  - intros t c Ht Hc lines. subst lines.
    rewrite U, Ht, Hc. cbn [bind].
    split; [| split; [| split; [| split; [| split]]]].
    + do 2 f_equal. unfold pagePreamble, emptyCollectionLines, pageSummary, emptySummary.
      cbn [app List.length]. rewrite <- app_assoc. cbn [app].
      destruct total; reflexivity.
    + reflexivity.
    + right. right. left. reflexivity.
    + unfold emptyCollectionLines, moreLines, emptySummary.
      destruct total, (truthy next); reflexivity.
    + unfold emptyCollectionLines, moreLines, emptySummary.
      destruct total, (truthy next); reflexivity.
    + intros Hk Hst Hsc. apply textLines_join.
      * discriminate.
      * unfold emptyCollectionLines. cbn [forallb].
        rewrite forallb_app. cbn [forallb singleLine andb].
        rewrite (singleLine_app "## "), (singleLine_capitalized _ Hk).
        assert (S1 : singleLine (emptySummary total t) = true).
        { unfold emptySummary. destruct total; try reflexivity;
            rewrite !singleLine_app, Hst; reflexivity. }
        assert (S2 : forallb singleLine (moreLines next c) = true).
        { unfold moreLines. destruct (truthy next); [| reflexivity].
          cbn [forallb]. rewrite !singleLine_app, Hsc. reflexivity. }
        now rewrite S1, S2.
  - intros e He. now rewrite U, He.
  - intros t e Ht He. now rewrite U, Ht, He.
Qed.

Lemma empty_collection_rendering_witness :
  formatAsMarkdown
    (Obj [ ("data", Arr []);
           ("pagination", Obj [ ("totalEntries", Num (Int 0)); ("next", Str "MQ==") ]) ])
    "sources"
  = Ok (join LF [ "## Sources"; ""; "**Total:** 0 | **Showing:** 0";
                  "**More available:** Yes (cursor: `MQ==`)"; "";
                  "_No items found._" ])
  /\ formatAsMarkdown
       (Obj [ ("data", Arr []);
              ("pagination", Obj [ ("totalEntries", Num (Int 1000000000000000000000)) ]) ])
       "labels"
     = Ok (join LF [ "## Labels"; ""; "**Total:** 1e+21 | **Showing:** 0"; "";
                     "_No items found._" ]).
Proof.
  split.
  - exact (proj1 (proj1 (empty_collection_rendering
                           [ ("data", Arr []);
                             ("pagination", Obj [ ("totalEntries", Num (Int 0));
                                                  ("next", Str "MQ==") ]) ]
                           "sources" eq_refl eq_refl)
                    "0" "MQ==" eq_refl eq_refl)).
  - exact (proj1 (proj1 (empty_collection_rendering
                           [ ("data", Arr []);
                             ("pagination",
                              Obj [ ("totalEntries", Num (Int 1000000000000000000000)) ]) ]
                           "labels" eq_refl eq_refl)
                    "1e+21" "undefined" eq_refl eq_refl)).
Defined.

(** ** The generic table *)

Lemma decimal_not_word (z : Z) (k : string) :
  startsLower k = true -> (decimal z =? k) = false.
Proof.
  intros Hk. apply String.eqb_neq. intros E.
  destruct k as [| c r]; [discriminate |]. cbn in Hk.
  unfold decimal in E.
  destruct (Z.to_int z) as [d | d]; cbn [NilZero.string_of_int] in E.
  - destruct d; cbn in E; injection E as <- _; discriminate.
  - injection E as <- _. discriminate.
Qed.

Lemma findIndex_word (k : string) (l : list nat) (i : nat) :
  startsLower k = true ->
  findIndex k (map (fun i => decimal (Z.of_nat i)) l) i = None.
Proof.
  intros Hk. revert i.
  induction l as [| n l IH]; intros i; cbn [map findIndex]; [reflexivity |].
  now rewrite (decimal_not_word _ k Hk).
Qed.

Lemma isPaginatedResponse_Arr (items : list value) :
  isPaginatedResponse (Arr items) = false.
Proof.
  unfold isPaginatedResponse, hasProperty, own, indexKeys.
  rewrite (findIndex_word "data" _ 0 eq_refl). reflexivity.
Qed.

Lemma mapM_map_ext {A B C : Type} (f : B -> Result C) (h : A -> B) (g : A -> Result C)
  (l : list A) :
  (forall a, In a l -> f (h a) = g a) -> mapM f (map h l) = mapM g l.
Proof.
  induction l as [| a l IH]; intros H; cbn [map mapM]; [reflexivity |].
  rewrite (H a (or_introl eq_refl)), IH; [reflexivity |].
  intros x Hx. apply H. now right.
Qed.

Lemma mapM_ext {A B : Type} (f g : A -> Result B) (l : list A) :
  (forall a, In a l -> f a = g a) -> mapM f l = mapM g l.
Proof.
  intros H. rewrite <- (map_id l) at 1. now apply mapM_map_ext.
Qed.

Ltac member_name k s :=
  destruct (String.eqb_spec s k) as [<- | ?]; [reflexivity |].

(** The members an object inherits are those of the table of the
    specification's vocabulary. *)
Lemma inherited_object (k : string) :
  (k =? "__proto__") = false ->
  memberString (orDash (inherited [ ObjectPrototype ] k)) = Ok (missingCell k).
Proof.
  intros Hp. unfold missingCell. rewrite Hp.
  member_name k "constructor". member_name k "toString". member_name k "valueOf".
  member_name k "toLocaleString". member_name k "hasOwnProperty".
  member_name k "isPrototypeOf". member_name k "propertyIsEnumerable".
  member_name k "__defineGetter__". member_name k "__defineSetter__".
  member_name k "__lookupGetter__". member_name k "__lookupSetter__".
  cbn [inherited methods named map methodName inheritedFunctions].
  repeat match goal with
         | H : _ <> k |- _ => apply String.eqb_neq in H; rewrite H; clear H
         end.
  reflexivity.
Qed.

(** What the generic table prints in a cell of an object row. *)
Lemma cell_read (props : list (string * value)) (k : string) :
  bind (read (Obj props) k) (fun c => memberString (orDash c)) = cell props k.
Proof.
  unfold cell. cbn [read own bind].
  destruct (lookup k props) as [v |].
  - destruct v; reflexivity.
  - destruct (k =? "__proto__") eqn:E.
    + apply String.eqb_eq in E. subst k. reflexivity.
    + cbn [chain]. now apply inherited_object.
Qed.

Lemma formatGenericTable_objects (first : list (string * value))
  (rest : list (list (string * value))) :
  formatGenericTable (map Obj (first :: rest)) = genericTable first rest.
Proof.
  unfold formatGenericTable, genericTable, columns, separator.
  cbn [map Object_keys bind].
  change (Obj first :: map Obj rest) with (map Obj (first :: rest)).
  rewrite (mapM_map_ext _ Obj
             (fun props => bind (mapM (cell props) (firstn 5 (map fst first)))
                             (fun cells => Ok (row cells)))).
  - reflexivity.
  - intros props _. f_equal. apply mapM_ext. intros k _. apply cell_read.
Qed.



(** *** The order of the keys *)




Lemma mapM_length {A B : Type} (f : A -> Result B) (l : list A) (bs : list B) :
  mapM f l = Ok bs -> List.length bs = List.length l.
Proof.
  revert bs. induction l as [| a l IH]; intros bs; cbn [mapM].
  - intros H. now injection H as <-.
  - destruct (f a) as [b | t]; cbn [bind]; [| discriminate].
    destruct (mapM f l) as [bs' | t]; cbn [bind]; [| discriminate].
    intros H. injection H as <-. cbn. now rewrite (IH bs' eq_refl).
Qed.




(** ** Rendering of a single object *)

Lemma isUpper_not_white (c : ascii) : isUpper c = true -> isWhiteSpace c = false.
Proof. by_char c. Qed.

Lemma isUpper_fixed (c : ascii) : isUpper c = true -> toUpperCaseUnit c = String c "".
Proof. by_char c. Qed.

Lemma isUpper_capital (c : ascii) : isUpper c = true -> isCapital c = true.
Proof. by_char c. Qed.

Lemma upper_noWhite (c : ascii) :
  isWhiteSpace c = false -> noWhite (toUpperCaseUnit c) = true.
Proof. by_char c. Qed.

Lemma upper_nonempty (c : ascii) : toUpperCaseUnit c <> "".
Proof. by_char c. Qed.

Lemma trimEnd_app (a b : string) : noWhite a = true -> trimEnd (a ++ b) = a ++ trimEnd b.
Proof.
  induction a as [| x a IH]; cbn [noWhite append trimEnd]; [reflexivity |].
  rewrite andb_true_iff, negb_true_iff. intros [Hx Ha].
  now rewrite Hx, (IH Ha).
Qed.

Lemma trimStart_app (a b : string) :
  noWhite a = true -> a <> "" -> trimStart (a ++ b) = a ++ b.
Proof.
  destruct a as [| x a]; [intros _ H; now elim H |].
  cbn [noWhite append trimStart]. rewrite andb_true_iff, negb_true_iff.
  intros [Hx _] _. now rewrite Hx.
Qed.

Lemma spaceUppers_eq (s : string) : spaceBeforeUpper s = spaceUppers s.
Proof. induction s as [| c r IH]; cbn; [reflexivity | now rewrite IH]. Qed.

Lemma spaceUppers_empty (s : string) : (spaceUppers s =? "") = (s =? "").
Proof. destruct s as [| c r]; cbn; [reflexivity | destruct (isUpper c); reflexivity]. Qed.

Lemma spaceCapitals_plain (s : string) :
  plainCapitals s = true -> spaceCapitals s = spaceUppers s.
Proof.
  induction s as [| c r IH]; cbn [plainCapitals spaceCapitals spaceUppers]; [reflexivity |].
  rewrite andb_true_iff. intros [Hc Hr]. rewrite (IH Hr).
  destruct (isUpper c) eqn:U.
  - now rewrite (isUpper_capital c U).
  - cbn in Hc. apply negb_true_iff in Hc. now rewrite Hc.
Qed.

(** One step of [trimEnd] on a string that it leaves alone. *)
Lemma trimEnd_fixed_inv (c : ascii) (r : string) :
  trimEnd (String c r) = String c r ->
  isWhiteSpace c && (r =? "") = false /\ trimEnd r = r.
Proof.
  cbn [trimEnd].
  destruct (isWhiteSpace c && (trimEnd r =? "")) eqn:E; [discriminate |].
  intros H. injection H as Hr. rewrite Hr in E. now split.
Qed.

Lemma trimEnd_fixed_intro (c : ascii) (r : string) :
  isWhiteSpace c && (r =? "") = false -> trimEnd r = r ->
  trimEnd (String c r) = String c r.
Proof. intros E Hr. cbn [trimEnd]. now rewrite Hr, E. Qed.

Lemma trimEnd_spaceUppers (s : string) :
  trimEnd s = s -> trimEnd (spaceUppers s) = spaceUppers s.
Proof.
  induction s as [| c r IH]; [reflexivity |].
  intros H. apply trimEnd_fixed_inv in H. destruct H as [E Hr].
  specialize (IH Hr). cbn [spaceUppers].
  destruct (isUpper c) eqn:U.
  - apply trimEnd_fixed_intro; [reflexivity |].
    apply trimEnd_fixed_intro; [| exact IH].
    now rewrite (isUpper_not_white c U).
  - apply trimEnd_fixed_intro; [| exact IH].
    now rewrite spaceUppers_empty.
Qed.

Lemma trimStart_head (s : string) (c : ascii) (r : string) :
  trimStart s = String c r -> isWhiteSpace c = false.
Proof.
  induction s as [| x s IH]; cbn [trimStart]; [discriminate |].
  destruct (isWhiteSpace x) eqn:W; [exact IH |].
  intros H. injection H as -> _. exact W.
Qed.

Lemma trimEnd_head (s : string) (c : ascii) (r : string) :
  trimEnd s = String c r -> exists r', s = String c r'.
Proof.
  destruct s as [| x s]; cbn [trimEnd]; [discriminate |].
  destruct (isWhiteSpace x && (trimEnd s =? "")); [discriminate |].
  intros H. injection H as -> _. now exists s.
Qed.

Lemma trimmed_inv (c : ascii) (r : string) :
  trimmed (String c r) ->
  isWhiteSpace c = false /\ trimEnd (String c r) = String c r.
Proof.
  unfold trimmed, trim. intros H.
  assert (W : isWhiteSpace c = false).
  { destruct (trimEnd_head _ _ _ H) as [r' Hs]. exact (trimStart_head _ _ _ Hs). }
  split; [exact W |].
  cbn [trimStart] in H. now rewrite W in H.
Qed.

Lemma formatKey_label (key : string) : formatKey key = label key.
Proof. unfold formatKey, label. now rewrite upperFirst_capitalized, spaceUppers_eq. Qed.

(** On a key with no white space at its ends and no capital outside A..Z,
    the label is the Title Case of the specification. *)
Lemma label_titleCase (key : string) :
  trimmed key -> plainCapitals key = true -> label key = titleCase key.
Proof.
  destruct key as [| c r]; [reflexivity |].
  intros H Hp. apply trimmed_inv in H. destruct H as [W H].
  apply trimEnd_fixed_inv in H. destruct H as [_ H].
  apply trimEnd_spaceUppers in H.
  cbn [plainCapitals] in Hp. apply andb_true_iff in Hp. destruct Hp as [_ Hp].
  unfold label, titleCase, trim. rewrite (spaceCapitals_plain r Hp).
  cbn [spaceUppers].
  destruct (isUpper c) eqn:U.
  - rewrite (isUpper_fixed c U).
    change (capitalized (String " " (String c (spaceUppers r))))
      with (String " " (String c (spaceUppers r))).
    change (trimStart (String " " (String c (spaceUppers r))))
      with (trimStart (String c (spaceUppers r))).
    cbn [trimStart]. rewrite W.
    change (String c (spaceUppers r)) with (String c "" ++ spaceUppers r).
    rewrite trimEnd_app, H; [reflexivity |]. cbn. now rewrite W.
  - cbn [capitalized].
    rewrite trimStart_app by (apply upper_noWhite || apply upper_nonempty; exact W).
    now rewrite trimEnd_app, H by (now apply upper_noWhite).
Qed.

Lemma entryLines_fieldLines (kv : string * value) : entryLines kv = Ok (fieldLines kv).
Proof.
  destruct kv as [k v]. unfold entryLines, fieldLines, serialization. cbn [snd fst].
  rewrite formatKey_label. destruct v; reflexivity.
Qed.

Lemma mapM_total_map {A B : Type} (f : A -> Result B) (g : A -> B) (l : list A) :
  (forall a, f a = Ok (g a)) -> mapM f l = Ok (map g l).
Proof.
  intros H. induction l as [| a l IH]; cbn; [reflexivity |].
  now rewrite H, IH.
Qed.

(** [dropFinalS] removes one final s and nothing else. *)
Lemma dropFinalS_final (s : string) : dropFinalS (s ++ "s") = s.
Proof.
  induction s as [| c r IH]; [reflexivity |].
  cbn [append dropFinalS]. rewrite IH.
  destruct r; reflexivity.
Qed.

Lemma dropFinalS_other (s : string) :
  (forall t, s <> t ++ "s") -> dropFinalS s = s.
Proof.
  induction s as [| c r IH]; [reflexivity |].
  intros H. cbn [dropFinalS]. destruct r as [| d r'].
  - destruct (Js.code c =? 115)%N eqn:E; [| reflexivity].
    exfalso. apply (H ""). cbn. f_equal.
    apply N.eqb_eq in E. unfold Js.code in E.
    rewrite <- (ascii_N_embedding c), E. reflexivity.
  - rewrite IH; [reflexivity |].
    intros t Ht. apply (H (String c t)). cbn. now rewrite Ht.
Qed.

(** C9, as stated, fails: the label of a key is trimmed after its first
    character was put in upper case, so a key that starts with a space
    loses the space and keeps its first letter as it is; and a capital
    outside A..Z gets no space before it. *)
Lemma title_case_fails_on_padded_key :
  let props := [ (" id", Str "abc") ] in
  let accented := String "a" (String (chr 201) "") in
  isPaginatedResponse (Obj props) = false
  /\ formatAsMarkdown (Obj props) "source"
     = Ok (join LF [ "## Source"; ""; "**id:** abc" ])
  /\ titleCase " id" = " id"
  /\ formatAsMarkdown (Obj props) "source"
     <> Ok (join LF [ "## Source"; ""; "**" ++ titleCase " id" ++ ":** abc" ])
  /\ formatKey accented = String "A" (String (chr 201) "")
  /\ titleCase accented = String "A" (String " " (String (chr 201) "")).
Proof. cbv zeta. repeat split. discriminate. Qed.

(** C9 (amended): a single object, neither a paginated collection nor a
    list, renders as the heading made of the resource kind without its
    final s, capitalised, a blank line, and the lines of its fields in the
    order [Object.entries] lists them: a scalar field gives the line
    [**Label:** value], the value as [String] prints it; an object or array
    field gives the label line and a fenced block holding its JSON
    serialization; a field that is [null] or [undefined] gives no line. The
    label is the key with a space before every letter A..Z, its first
    character in upper case, then trimmed of white space at both ends: the
    Title Case of the specification for a key with no white space at its
    ends and no capital outside A..Z. *)
Theorem single_object_rendering (props : list (string * value)) (resourceKind : string) :
  isPaginatedResponse (Obj props) = false ->
  Forall (fun kv => headMapped (fst kv) = true) props ->
  headMapped resourceKind = true ->
  formatAsMarkdown (Obj props) resourceKind = Ok (objectSection props resourceKind)
  /\ (forall kv, In kv props ->
                 trimmed (fst kv) -> plainCapitals (fst kv) = true ->
                 label (fst kv) = titleCase (fst kv))
  /\ (forall kv, In kv props -> scalar (snd kv) = true ->
                 ToString (snd kv) = Ok (scalarText (snd kv))).
Proof.
  intros Hp _ _. split; [| split].
  - unfold formatAsMarkdown. rewrite Hp. cbn [typeofObject isNullish negb andb].
    unfold formatObjectAsMarkdown, objectSection. cbn [Object_entries bind].
    rewrite (mapM_total_map entryLines fieldLines props entryLines_fieldLines).
    cbn [bind].
    now rewrite capitalize_capitalized, dropFinalS_singular, flat_map_concat_map.
  - intros kv _. apply label_titleCase.
  - intros kv _. apply ToString_scalar.
Qed.

Lemma single_object_rendering_witness :
  let props := [ ("id", Str "abc"); ("name", Str "Widget"); ("enabled", Bool true);
                 ("createdAt", Null); ("nested", Obj [ ("x", Num (Int 1)) ]);
                 (String (chr 233) "tat", Str "ok"); ("writeKeys", Arr []) ] in
  formatAsMarkdown (Obj props) "sources"
  = Ok (join LF [ "## Source"; "";
                  "**Id:** abc"; "**Name:** Widget"; "**Enabled:** true";
                  "**Nested:**"; "```json";
                  join LF [ "{"; "  " ++ DQ ++ "x" ++ DQ ++ ": 1"; "}" ];
                  "```";
                  "**" ++ String (chr 201) "tat" ++ ":** ok";
                  "**Write Keys:**"; "```json"; "[]"; "```" ]).
Proof.
  intros props.
  refine (proj1 (single_object_rendering props "sources" eq_refl _ eq_refl)).
  repeat constructor.
Defined.

(** ** Query strings *)

Lemma set_fresh (k v : string) (q : URLSearchParams) :
  ~ In k (map fst q) -> Web.set k v q = (q ++ [ (k, v) ])%list.
Proof.
  induction q as [| [n x] q IH]; cbn [Web.set map fst In app]; [reflexivity |].
  intros H. destruct (String.eqb_spec n k) as [-> | Hne].
  - exfalso. apply H. now left.
  - rewrite IH; [reflexivity |]. intros Hin. apply H. now right.
Qed.

Lemma fold_step_throw (entries : list (string * value)) (t : Thrown) :
  fold_left step entries (Throw t) = Throw t.
Proof. induction entries as [| kv entries IH]; [reflexivity | exact IH]. Qed.

Lemma mapM_fst (l : list (string * value)) (pairs : list (string * string)) :
  mapM stringified l = Ok pairs -> map fst pairs = map fst l.
Proof.
  revert pairs. induction l as [| [k v] l IH]; intros pairs; cbn [mapM].
  - intros H. now injection H as <-.
  - unfold stringified at 1. cbn [fst snd].
    destruct (ToString v) as [s | t]; cbn [bind]; [| discriminate].
    destruct (mapM stringified l) as [bs | t]; cbn [bind]; [| discriminate].
    intros H. injection H as <-. cbn [map fst]. now rewrite (IH bs eq_refl).
Qed.

Lemma fold_step_fresh (entries : list (string * value)) :
  forall q : URLSearchParams,
    NoDup (map fst entries) ->
    (forall k, In k (map fst entries) -> ~ In k (map fst q)) ->
    fold_left step entries (Ok q)
    = bind (mapM stringified (kept entries)) (fun pairs => Ok (q ++ pairs)%list).
Proof.
  induction entries as [| [k v] entries IH]; intros q Hnd Hfresh.
  - cbn. now rewrite app_nil_r.
  - cbn [map fst] in Hnd. inversion Hnd as [| ? ? Hk Hrest]; subst.
    cbn [fold_left]. unfold step at 2. cbn [fst snd bind].
    unfold kept. cbn [filter snd].
    destruct (negb (isNullish v)) eqn:E.
    + fold (kept entries). cbn [mapM]. unfold stringified at 1. cbn [fst snd].
      destruct (ToString v) as [s | t]; cbn [bind]; [| apply fold_step_throw].
      rewrite set_fresh by (apply Hfresh; now left).
      rewrite IH; [| exact Hrest |].
      * destruct (mapM stringified (kept entries)) as [bs | t]; cbn [bind];
          [| reflexivity].
        now rewrite <- app_assoc.
      * intros k' Hin. rewrite map_app, in_app_iff. cbn [map fst In].
        intros [Hq | [<- | []]].
        -- apply (Hfresh k'); [now right | exact Hq].
        -- now apply Hk.
    + fold (kept entries). apply IH; [exact Hrest |].
      intros k' Hin. apply Hfresh. now right.
Qed.

Lemma append_empty (a b : string) : a ++ b = "" -> a = "" /\ b = "".
Proof. destruct a; cbn; [now intros -> | discriminate]. Qed.

Lemma pair_nonempty (nv : string * string) : pair nv <> "".
Proof.
  unfold pair. intros H. apply append_empty in H. destruct H as [_ H]. discriminate.
Qed.

Lemma join_pairs_nonempty (nv : string * string) (l : list (string * string)) :
  (join "&" (map pair (nv :: l)) =? "") = false.
Proof.
  apply String.eqb_neq. cbn [map join String.concat].
  destruct (map pair l).
  - apply pair_nonempty.
  - intros H. apply append_empty in H. destruct H as [H _]. now apply pair_nonempty in H.
Qed.

Lemma buildQueryString_entries (entries : list (string * value)) :
  NoDup (map fst entries) ->
  buildQueryString (Some entries)
  = bind (mapM stringified (kept entries)) (fun pairs => Ok (queryString pairs)).
Proof.
  intros Hnd. unfold buildQueryString.
  change (fold_left _ entries (Ok [])) with (fold_left step entries (Ok [])).
  rewrite fold_step_fresh; [| exact Hnd | intros k _ []].
  destruct (mapM stringified (kept entries)) as [pairs | t]; cbn [bind app];
    [| reflexivity].
  unfold URLSearchParams_toString, queryString.
  change (fun nv : string * string => urlencode (fst nv) ++ "=" ++ urlencode (snd nv))
    with pair.
  destruct pairs as [| nv l]; [reflexivity |].
  now rewrite join_pairs_nonempty.
Qed.

Lemma mapM_scalars (l : list (string * value)) :
  Forall (fun kv => scalar (snd kv) = true) l ->
  mapM stringified l = Ok (map (fun kv => (fst kv, scalarText (snd kv))) l).
Proof.
  induction 1 as [| [k v] l Hv _ IH]; [reflexivity |].
  cbn [mapM map fst snd]. unfold stringified at 1. cbn [fst snd] in *.
  now rewrite (ToString_scalar v Hv), IH.
Qed.

(** C10: the query string built from a parameter mapping holds exactly the
    entries whose value is neither [undefined] nor [null], in order, each
    as [name=value] with the value stringified, joined by an ampersand
    after a question mark; it is the empty string, with no question mark,
    when the mapping is absent and exactly when no entry survives. A value
    that cannot be stringified makes the call throw what the conversion
    throws; numbers, strings and booleans, which the tools pass, always
    can. *)
Theorem buildQueryString_spec :
  buildQueryString None = Ok ""
  /\ forall entries : list (string * value),
       NoDup (map fst entries) ->
       buildQueryString (Some entries)
       = bind (mapM stringified (kept entries)) (fun pairs => Ok (queryString pairs))
       /\ (buildQueryString (Some entries) = Ok "" <-> kept entries = [])
       /\ Forall (fun kv => snd kv <> Undefined /\ snd kv <> Null) (kept entries)
       /\ (Forall (fun kv => scalar (snd kv) = true) (kept entries) ->
           buildQueryString (Some entries)
           = Ok (queryString (map (fun kv => (fst kv, scalarText (snd kv)))
                                  (kept entries))))
       /\ (forall pairs, mapM stringified (kept entries) = Ok pairs ->
                         map fst pairs = map fst (kept entries)).
Proof.
  split; [reflexivity |].
  intros entries Hnd. rewrite (buildQueryString_entries entries Hnd).
  split; [reflexivity | split; [| split; [| split]]].
  - split.
    + destruct (mapM stringified (kept entries)) as [pairs | t] eqn:E; cbn [bind];
        [| discriminate].
      intros H. apply mapM_fst in E.
      destruct pairs as [| nv l]; [| cbn in H; discriminate H].
      destruct (kept entries); [reflexivity | discriminate E].
    + intros ->. reflexivity.
  - unfold kept. apply Forall_forall. intros kv Hin.
    apply filter_In in Hin. destruct Hin as [_ H].
    destruct (snd kv); cbn in H; split; discriminate.
  - intros H. now rewrite (mapM_scalars _ H).
  - intros pairs. apply mapM_fst.
Qed.

Lemma buildQueryString_spec_witness :
  let entries := [ ("count", Num (Int 20)); ("cursor", Undefined);
                   ("filter", Null); ("q", Str "a b") ] in
  NoDup (map fst entries)
  /\ buildQueryString (Some entries) = Ok "?count=20&q=a+b"
  /\ buildQueryString (Some [ ("cursor", Undefined) ]) = Ok "".
Proof.
  cbv zeta. split; [| split].
  - repeat constructor; cbn; intuition discriminate.
  - refine (proj1 (proj2 buildQueryString_spec
                     [ ("count", Num (Int 20)); ("cursor", Undefined);
                       ("filter", Null); ("q", Str "a b") ] _)).
    repeat constructor; cbn; intuition discriminate.
  - reflexivity.
Defined.

(** ** The request executor *)

Lemma includes_here (needle rest : string) : includes needle (needle ++ rest) = true.
Proof.
  assert (P : prefix needle (needle ++ rest) = true).
  { induction needle as [| c n IH]; cbn; [destruct rest; reflexivity |].
    destruct (ascii_dec c c) as [_ | Hne]; [exact IH | now elim Hne]. }
  destruct needle; cbn in *; [destruct rest; reflexivity | now rewrite P].
Qed.

Lemma includes_later (needle before s : string) :
  includes needle s = true -> includes needle (before ++ s) = true.
Proof.
  intros H. induction before as [| c b IH]; [exact H |].
  cbn. rewrite IH. apply orb_true_r.
Qed.

Lemma missing_credential_names_header (header : string) :
  let e := new_MissingCredentialsError header in
  kind e = MissingCredential
  /\ message e = "Missing required credential: " ++ header
                 ++ ". Please provide it via request headers."
  /\ includes header (message e) = true
  /\ retryable e = false.
Proof.
  cbv zeta. repeat split.
  unfold new_MissingCredentialsError, derive, new_SegmentApiError. cbn [message].
  apply includes_later, includes_here.
Qed.

(** C3: on either surface, when the credential the surface requires is
    absent (or empty), the request fails with the MissingCredential error
    that names the missing header, and the log of requests handed to
    [fetch] is left as it was: no network call is made. The operations of
    the client inherit this from the two request helpers; one that builds
    a query string first fails so once the string is built, and throws
    what building it throws otherwise, again with no network call. *)
Theorem missing_credential_sends_nothing (transport : Request -> FetchOutcome)
  (this : SegmentClientImpl) (log : list Request) :
  (present (writeKey (credentials this)) = false ->
   let failure := Throw (ThrownApi (new_MissingCredentialsError "X-Segment-Write-Key")) in
   (forall endpoint body,
       trackingRequest transport this endpoint body log = (failure, log))
   /\ (forall userId traits context anonymousId,
          identify transport this userId traits context anonymousId log = (failure, log))
   /\ (forall payload, batch transport this payload log = (failure, log)))
  /\ (present (accessToken (credentials this)) = false ->
      let failure := Throw (ThrownApi (new_MissingCredentialsError "X-Segment-Access-Token")) in
      (forall endpoint options,
          publicApiRequest transport this endpoint options log = (failure, log))
      /\ (forall params,
             listSources transport this params log
             = (match buildQueryString params with
                | Ok _ => failure
                | Throw t => Throw t
                end, log))
      /\ listSources transport this None log = (failure, log)
      /\ (forall entries,
             Forall (fun kv => scalar (snd kv) = true) (kept entries) ->
             NoDup (map fst entries) ->
             listSources transport this (Some entries) log = (failure, log))
      /\ (forall sourceId, getSource transport this sourceId log = (failure, log)))
  /\ (forall header,
         kind (new_MissingCredentialsError header) = MissingCredential
         /\ includes header (message (new_MissingCredentialsError header)) = true).
Proof.
  assert (T : present (writeKey (credentials this)) = false ->
              forall endpoint body,
                trackingRequest transport this endpoint body log
                = (Throw (ThrownApi (new_MissingCredentialsError "X-Segment-Write-Key")), log)).
  { intros H endpoint body.
    unfold trackingRequest, nbind, lift, getTrackingHeaders. now rewrite H. }
  assert (P : present (accessToken (credentials this)) = false ->
              forall endpoint options,
                publicApiRequest transport this endpoint options log
                = (Throw (ThrownApi (new_MissingCredentialsError "X-Segment-Access-Token")), log)).
  { intros H endpoint options.
    unfold publicApiRequest, nbind, lift, getPublicApiHeaders. now rewrite H. }
  assert (L : present (accessToken (credentials this)) = false ->
              forall params,
                listSources transport this params log
                = (match buildQueryString params with
                   | Ok _ => Throw (ThrownApi (new_MissingCredentialsError
                                                 "X-Segment-Access-Token"))
                   | Throw t => Throw t
                   end, log)).
  { intros H params. unfold listSources, nbind, lift.
    destruct (buildQueryString params) as [qs | t]; [now apply P | reflexivity]. }
  split; [| split]; [intros H; cbv zeta; repeat split; intros ..
                    | intros header; split; [reflexivity |];
                      apply (missing_credential_names_header header)].
  - now apply T.
  - unfold identify. now apply T.
  - unfold batch. now apply T.
  - now apply P.
  - now apply L.
  - now rewrite L.
  - rewrite L by exact H.
    rewrite (buildQueryString_entries entries) by assumption.
    now rewrite mapM_scalars by assumption.
  - unfold getSource, nbind. now rewrite P.
Qed.

Lemma missing_credential_sends_nothing_witness :
  let client := createSegmentClient (mkTenantCredentials None (Some "") None None) in
  let transport := fun _ : Request => Rejected (mkNativeError "TypeError" "fetch failed" "") in
  present (writeKey (credentials client)) = false
  /\ present (accessToken (credentials client)) = false
  /\ batch transport client (Obj []) []
     = (Throw (ThrownApi (new_MissingCredentialsError "X-Segment-Write-Key")), [])
  /\ listSources transport client None []
     = (Throw (ThrownApi (new_MissingCredentialsError "X-Segment-Access-Token")), []).
Proof.
  cbv zeta.
  pose proof (missing_credential_sends_nothing
                (fun _ : Request => Rejected (mkNativeError "TypeError" "fetch failed" ""))
                (createSegmentClient (mkTenantCredentials None (Some "") None None))
                []) as (T & P & _).
  split; [reflexivity | split; [reflexivity | split]].
  - exact (proj2 (proj2 (T eq_refl)) (Obj [])).
  - exact (proj1 (proj2 (proj2 (P eq_refl)))).
Defined.

Lemma ok_not_classified (r : Response) :
  ok r = true ->
  (status r =? 429)%Z = false /\ (status r =? 401)%Z = false
  /\ (status r =? 403)%Z = false.
Proof.
  unfold ok. rewrite andb_true_iff, !Z.leb_le. intros [Hlo Hhi].
  repeat split; apply Z.eqb_neq; lia.
Qed.

(** Whatever [formatError] returns is flagged as an error. *)
Lemma formatError_isError (t : Thrown) (r : ToolResponse) :
  formatError t = Ok r -> isError r = Some true.
Proof.
  unfold formatError.
  destruct (formatErrorForLogging t) as [info | t1]; cbn [bind]; [| discriminate].
  destruct t as [e | e | v]; cbn [bind].
  - intros H. now injection H as <-.
  - intros H. now injection H as <-.
  - destruct (ToString v); cbn [bind]; [| discriminate].
    intros H. now injection H as <-.
Qed.

(** An error raised by the engine is always formatted. *)
Lemma formatError_native (e : NativeError) :
  exists r, formatError (ThrownError e) = Ok r /\ isError r = Some true.
Proof. eexists. split; reflexivity. Qed.




(** ** Rate limiting *)

Lemma retryAfterSeconds_absent : retryAfterSeconds None = Int 60.
Proof. reflexivity. Qed.

Lemma retryAfterSeconds_empty : retryAfterSeconds (Some "") = Int 60.
Proof. reflexivity. Qed.

Lemma retryAfterSeconds_present (h : string) :
  h <> "" -> retryAfterSeconds (Some h) = parseInt10 h.
Proof.
  intros H. unfold retryAfterSeconds.
  apply String.eqb_neq in H. now rewrite H.
Qed.

(** Classification of a 429 response, on both surfaces. *)
Lemma rate_limited_classification (this : SegmentClientImpl) (response : Response)
  (log : list Request) :
  status response = 429%Z ->
  let transport := fun _ : Request => Resolved response in
  let e := new_RateLimitError "Rate limit exceeded"
             (retryAfterSeconds (Headers_get "Retry-After" (headers response))) in
  kind e = RateLimited
  /\ retryable e = true
  /\ (present (writeKey (credentials this)) = true ->
      forall endpoint payload, exists req,
        trackingRequest transport this endpoint payload log
        = (Throw (ThrownApi e), (log ++ [ req ])%list))
  /\ (present (accessToken (credentials this)) = true ->
      forall endpoint options, exists req,
        publicApiRequest transport this endpoint options log
        = (Throw (ThrownApi e), (log ++ [ req ])%list)).
Proof.
  intros Hs transport e. split; [reflexivity | split; [reflexivity | split]].
  - intros Hkey endpoint payload. eexists.
    unfold trackingRequest, nbind, lift, getTrackingHeaders, fetch, throw, transport.
    rewrite Hkey, Hs. reflexivity.
  - intros Htoken endpoint options. eexists.
    unfold publicApiRequest, nbind, lift, getPublicApiHeaders, fetch, throw, transport.
    rewrite Htoken, Hs. reflexivity.
Qed.

(** C2 fails on the code for a Retry-After header that is not an integer,
    here the HTTP-date form of the header: [parseInt] yields [NaN], which
    becomes [retryAfterSeconds], where the claim has 60. *)
Theorem rate_limit_http_date_is_NaN :
  let client := createSegmentClient (mkTenantCredentials (Some "wk") (Some "tok") None None) in
  let response := {| status := 429;
                     headers := [ ("Retry-After", "Wed, 21 Oct 2015 07:28:00 GMT") ];
                     body := "";
                     parsed := ParseFailure "Unexpected end of JSON input" |} in
  let transport := fun _ : Request => Resolved response in
  fst (publicApiRequest transport client "/sources" noInit [])
  = Throw (ThrownApi (new_RateLimitError "Rate limit exceeded" NaN))
  /\ fst (batch transport client (Obj []) [])
     = Throw (ThrownApi (new_RateLimitError "Rate limit exceeded" NaN))
  /\ NaN <> Int 60.
Proof. cbv zeta. repeat split. discriminate. Qed.

(** *** [parseInt] reads back the decimal numeral of an integer *)

Lemma digitsValue_horner (d : Decimal.uint) :
  forall acc, digitsValue acc (NilEmpty.string_of_uint d) = horner d acc.
Proof.
  induction d; intros acc; cbn [NilEmpty.string_of_uint horner];
    [reflexivity | ..];
    cbn [digitsValue]; rewrite <- IHd; reflexivity.
Qed.

Lemma horner_pos (d : Decimal.uint) :
  forall p, horner d (Z.pos p) = Z.pos (Pos.of_uint_acc d p).
Proof.
  induction d; intros p; cbn [horner Pos.of_uint_acc]; [reflexivity | ..];
    rewrite <- IHd; f_equal; lia.
Qed.

Lemma horner_zero (d : Decimal.uint) : horner d 0 = Z.of_uint d.
Proof.
  unfold Z.of_uint.
  induction d; cbn [horner Pos.of_uint]; [reflexivity | exact IHd | ..];
    cbn [Z.mul Z.add]; rewrite horner_pos; reflexivity.
Qed.

Lemma numeral_starts_with_digit (d : Decimal.uint) :
  exists c r, NilZero.string_of_uint d = String c r /\ isDigit c = true.
Proof. destruct d; cbn; eexists; eexists; split; reflexivity. Qed.

Lemma numeral_value (d : Decimal.uint) :
  digitsValue 0 (NilZero.string_of_uint d) = Z.of_uint d.
Proof.
  destruct d; [reflexivity | ..];
    unfold NilZero.string_of_uint; rewrite digitsValue_horner; apply horner_zero.
Qed.

Lemma digit_plain (c : ascii) :
  isDigit c = true ->
  isWhiteSpace c = false /\ (Js.code c =? 45)%N = false /\ (Js.code c =? 43)%N = false.
Proof. by_char c; repeat split. Qed.

Lemma parseInt10_unsigned (s : string) (c : ascii) (r : string) :
  s = String c r -> isDigit c = true -> parseInt10 s = toNumber (digitsValue 0 s).
Proof.
  intros -> Hd. destruct (digit_plain c Hd) as (W & M & P).
  unfold parseInt10. cbn [trimStart]. rewrite W, M, P.
  cbn [startsWithDigit]. rewrite Hd. f_equal; lia.
Qed.

Lemma parseInt10_negative (s : string) (c : ascii) (r : string) :
  s = String c r -> isDigit c = true ->
  parseInt10 (String "-" s) = toNumber (- digitsValue 0 s).
Proof.
  intros -> Hd. unfold parseInt10.
  change (trimStart (String "-" (String c r))) with (String "-" (String c r)).
  cbv beta iota.
  set (b := (Js.code _ =? 45)%N). vm_compute in b. subst b. cbv beta iota.
  cbn [startsWithDigit]. rewrite Hd. f_equal; lia.
Qed.

(** [parseInt] on the decimal numeral of an integer gives the Number
    nearest to it: the integer itself below 2^53. *)
Lemma parseInt10_decimal (z : Z) : parseInt10 (decimal z) = toNumber z.
Proof.
  unfold decimal.
  rewrite <- (DecimalZ.of_to z) at 2.
  destruct (Z.to_int z) as [d | d]; cbn [NilZero.string_of_int Z.of_int];
    destruct (numeral_starts_with_digit d) as (c & r & E & Hd).
  - rewrite (parseInt10_unsigned _ c r E Hd). now rewrite numeral_value.
  - rewrite (parseInt10_negative _ c r E Hd). now rewrite numeral_value.
Qed.

Lemma decimal_nonempty (n : Z) : decimal n <> "".
Proof.
  unfold decimal.
  destruct (Z.to_int n) as [d | d]; cbn; [| discriminate].
  destruct (numeral_starts_with_digit d) as (c & r & E & _). rewrite E. discriminate.
Qed.

(** The part of C2 the code keeps: an absent (or empty) header gives 60, and
    a header holding the decimal numeral of an integer gives the Number
    nearest to that integer, which below 2^53 is the integer. *)
Lemma retryAfterSeconds_integer (n : Z) :
  retryAfterSeconds (Some (decimal n)) = toNumber n
  /\ ((Z.abs n < two53)%Z -> retryAfterSeconds (Some (decimal n)) = Int n).
Proof.
  rewrite retryAfterSeconds_present by apply decimal_nonempty.
  rewrite parseInt10_decimal. split; [reflexivity | apply toNumber_small].
Qed.

(** [parseInt] also stops at the first character that is not a digit, so a
    header that only starts with digits gives its numeric prefix; beyond
    2^53 the integer read is rounded to the nearest Number. *)
Example retry_after_prefix :
  retryAfterSeconds (Some "1.5") = Int 1
  /\ retryAfterSeconds (Some "30s") = Int 30
  /\ retryAfterSeconds (Some "soon") = NaN
  /\ retryAfterSeconds (Some "-5") = Int (-5)
  /\ retryAfterSeconds (Some "9007199254740993") = Int 9007199254740992.
Proof. repeat split. Qed.

(** ** The specification's scenarios, evaluated *)

Section Scenarios.

Let client : SegmentClientImpl :=
  createSegmentClient (mkTenantCredentials (Some "wk") (Some "tok") None None).

Let answering (status : Z) (headers : HeaderList) (parsed : Parsed) : Request -> FetchOutcome :=
  fun _ => Resolved {| status := status; headers := headers; body := ""; parsed := parsed |}.

Example rate_limited_after_30 :
  fst (publicApiRequest (answering 429 [ ("retry-after", "30") ] (ParsedValue Null))
         client "/sources" noInit [])
  = Throw (ThrownApi (new_RateLimitError "Rate limit exceeded" (Int 30))).
Proof. reflexivity. Qed.

Example rate_limited_default :
  fst (publicApiRequest (answering 429 [] (ParsedValue Null)) client "/sources" noInit [])
  = Throw (ThrownApi (new_RateLimitError "Rate limit exceeded" (Int 60))).
Proof. reflexivity. Qed.

Example unauthenticated_whatever_the_body :
  fst (publicApiRequest (answering 403 [] (ParsedValue (Obj [ ("message", Str "no") ])))
         client "/sources" noInit [])
  = Throw (ThrownApi (new_AuthenticationError "Authentication failed. Check your access token."))
  /\ fst (batch (answering 401 [] (ParseFailure "Unexpected end of JSON input")) client (Obj []) [])
     = Throw (ThrownApi (new_AuthenticationError "Authentication failed. Check your write key.")).
Proof. split; reflexivity. Qed.

Example message_priority :
  fst (publicApiRequest
         (answering 404 []
            (ParsedValue (Obj [ ("message", Str "outer");
                                ("errors", Arr [ Obj [ ("message", Str "Source not found") ] ]) ])))
         client "/sources/x" noInit [])
  = Throw (ThrownApi (new_SegmentApiError "Source not found" (Some (Int 404)) None None)).
Proof. reflexivity. Qed.

(** A message that is an object with a member named [toString] cannot
    become the error's message: constructing the error throws. *)
Example message_not_convertible :
  fst (publicApiRequest
         (answering 500 []
            (ParsedValue (Obj [ ("message", Obj [ ("toString", Num (Int 1)) ]) ])))
         client "/sources/x" noInit [])
  = Throw (TypeError "Cannot convert object to primitive value").
Proof. reflexivity. Qed.

Example no_content :
  publicApiRequest (answering 204 [] (ParseFailure "Unexpected end of JSON input"))
    client "/labels/a/b" {| init_method := Some "DELETE"; init_body := None; init_headers := None |} []
  = (Ok Undefined,
     [ {| req_url := "https://api.segmentapis.com/labels/a/b";
          req_method := Some "DELETE";
          req_headers := [ ("Authorization", "Bearer tok");
                           ("Content-Type", "application/json") ];
          req_body := None |} ]).
Proof. reflexivity. Qed.

Example basic_credentials :
  getTrackingHeaders client
  = Ok [ ("Authorization", "Basic d2s6"); ("Content-Type", "application/json") ].
Proof. reflexivity. Qed.

Example five_of_five :
  formatAsMarkdown
    (Obj [ ("data", Arr (map (fun i => Obj [ ("id", Str i); ("name", Str "n");
                                             ("slug", Str "s"); ("enabled", Bool true) ])
                             [ "1"; "2"; "3"; "4"; "5" ]));
           ("pagination", Obj [ ("totalEntries", Num (Int 5)) ]) ])
    "sources"
  = Ok (join LF [ "## Sources"; "";
                  "**Total:** 5 | **Showing:** 5"; "";
                  join LF [ "| ID | Name | Slug | Enabled |";
                            "|---|---|---|---|";
                            "| 1 | n | s | Yes |"; "| 2 | n | s | Yes |";
                            "| 3 | n | s | Yes |"; "| 4 | n | s | Yes |";
                            "| 5 | n | s | Yes |" ] ]).
Proof. reflexivity. Qed.

Example title_case_keys :
  formatKey "createdAt" = "Created At"
  /\ formatKey "writeKeys" = "Write Keys"
  /\ formatKey "ID" = "I D"
  /\ formatKey "name" = "Name".
Proof. repeat split. Qed.

Example transport_failures :
  isRetryableError (ThrownError (mkNativeError "TypeError" "network unreachable" "")) = true
  /\ isRetryableError (ThrownError (mkNativeError "Error" "read ECONNRESET" "")) = true
  /\ isRetryableError (ThrownError (mkNativeError "TypeError" "fetch failed" "")) = false
  /\ isRetryableError (ThrownValue (Str "timeout")) = false.
Proof. repeat split. Qed.

(** The envelope of an InvalidInput error, written out. *)
Example validation_envelope :
  formatError (ThrownApi (new_ValidationError "Bad input"
                         (Some [ ("name", [ "required"; "short" ]) ])))
  = Ok {| content :=
            [ {| type := "text";
                 text := Some (join LF
                   [ "{";
                     "  " ++ DQ ++ "error" ++ DQ ++ ": " ++ DQ ++ "Error: Bad input" ++ DQ ++ ",";
                     "  " ++ DQ ++ "details" ++ DQ ++ ": {";
                     "    " ++ DQ ++ "name" ++ DQ ++ ": " ++ DQ ++ "ValidationError" ++ DQ ++ ",";
                     "    " ++ DQ ++ "message" ++ DQ ++ ": " ++ DQ ++ "Bad input" ++ DQ ++ ",";
                     "    " ++ DQ ++ "code" ++ DQ ++ ": " ++ DQ ++ "VALIDATION_ERROR" ++ DQ ++ ",";
                     "    " ++ DQ ++ "statusCode" ++ DQ ++ ": 400,";
                     "    " ++ DQ ++ "retryable" ++ DQ ++ ": false,";
                     "    " ++ DQ ++ "details" ++ DQ ++ ": {";
                     "      " ++ DQ ++ "name" ++ DQ ++ ": [";
                     "        " ++ DQ ++ "required" ++ DQ ++ ",";
                     "        " ++ DQ ++ "short" ++ DQ;
                     "      ]";
                     "    }";
                     "  }";
                     "}" ]) |} ];
          isError := Some true |}.
Proof. reflexivity. Qed.

(** Upper case among the code units below 256. *)
Example latin1_upper_case :
  capitalize (String (chr 233) "cole") = String (chr 201) "cole"
  /\ capitalize (String (chr 223) "") = "SS"
  /\ capitalize (String (chr 247) "") = String (chr 247) ""
  /\ capitalize "sources" = "Sources"
  /\ caseMapped (chr 181) = false.
Proof. repeat split. Qed.

(** Numbers print as the engine prints them. *)
Example number_strings :
  Number_toString (Int 1000000000000000000000) = "1e+21"
  /\ Number_toString (Int 123456789012345678901234) = "1.2345678901234569e+23"
  /\ Number_toString (Int 9007199254740993) = "9007199254740992"
  /\ Number_toString (Int (-42)) = "-42"
  /\ JSON_stringify (Num (Int 1000000000000000000000)) = Some "1e+21".
Proof. repeat split; vm_compute; reflexivity. Qed.

End Scenarios.
(** ** Settings and credentials *)

(** X1: [getEnvNumber] never yields [NaN] when its default is a number: a
    member that is not a string, or a string [parseInt] cannot read, gives
    the default; a string holding the decimal numeral of an integer gives
    the Number nearest to that integer, which is the integer itself when
    its magnitude is below 2^53. *)
Theorem getEnvNumber_result (env : Env) (key : EnvKey) (d : number) :
  (d <> NaN -> getEnvNumber env key d <> NaN)
  /\ (forall n, member env key = EnvString (decimal n) ->
                getEnvNumber env key d = toNumber n
                /\ ((Z.abs n < two53)%Z -> getEnvNumber env key d = Int n))
  /\ (forall s, member env key = EnvString s -> parseInt10 s = NaN ->
                getEnvNumber env key d = d)
  /\ ((forall s, member env key <> EnvString s) -> getEnvNumber env key d = d).
Proof.
  unfold getEnvNumber. split; [| split; [| split]].
  - intros Hd. destruct (member env key) as [s | |]; try exact Hd.
    destruct (parseInt10 s) eqn:E; [exact Hd | discriminate | discriminate].
  - intros n H. rewrite H, parseInt10_decimal.
    assert (E : match toNumber n with NaN => d | _ => toNumber n end = toNumber n).
    { unfold toNumber. destruct (nearest (Z.abs n)); reflexivity. }
    split; [exact E |]. intros Hn. rewrite <- (toNumber_small n Hn). exact E.
  - intros s H E. now rewrite H, E.
  - intros H. destruct (member env key) as [s | |]; try reflexivity.
    now elim (H s).
Qed.

Lemma getEnvNumber_result_witness :
  let env := mkEnv (EnvString "25000") (EnvString "many") EnvUnset EnvBinding EnvUnset EnvUnset in
  getCharacterLimit env = Int 25000
  /\ getDefaultPageSize env = Int 20
  /\ getMaxPageSize env = Int 100
  /\ getEnvNumber env K_OAUTH_KV (Int 7) <> NaN.
Proof.
  intros env. split; [| split; [| split]].
  - exact (proj2 (proj1 (proj2 (getEnvNumber_result env K_CHARACTER_LIMIT (Int 50000)))
                    25000%Z eq_refl) eq_refl).
  - exact (proj1 (proj2 (proj2 (getEnvNumber_result env K_DEFAULT_PAGE_SIZE (Int 20))))
             "many" eq_refl eq_refl).
  - apply (proj2 (proj2 (proj2 (getEnvNumber_result env K_MAX_PAGE_SIZE (Int 100))))).
    intros s. discriminate.
  - apply (proj1 (getEnvNumber_result env K_OAUTH_KV (Int 7))). discriminate.
Defined.

Lemma headerOrUndefined_present (name : string) (h : HeaderList) :
  present (headerOrUndefined name h) = true
  <-> exists v, Headers_get name h = Some v /\ v <> "".
Proof.
  unfold headerOrUndefined, present.
  destruct (Headers_get name h) as [v |].
  - destruct (String.eqb_spec v "") as [-> | Hne]; split.
    + discriminate.
    + intros [v [H Hv]]. inversion H. congruence.
    + intros _. exists v. now split.
    + intros _. apply String.eqb_neq in Hne. now rewrite Hne.
  - split; [discriminate | intros [v [H _]]; discriminate].
Qed.

Lemma headerOrUndefined_not_empty (name : string) (h : HeaderList) :
  headerOrUndefined name h <> Some "".
Proof.
  unfold headerOrUndefined. destruct (Headers_get name h) as [v |]; [| discriminate].
  destruct (String.eqb_spec v "") as [-> | Hne]; [discriminate | congruence].
Qed.

Lemma validateCredentials_ok (c : TenantCredentials) :
  validateCredentials c = Ok tt
  <-> present (writeKey c) = true \/ present (accessToken c) = true.
Proof.
  unfold validateCredentials.
  destruct (present (writeKey c)), (present (accessToken c)); cbn; split;
    intros H; try reflexivity; try discriminate; auto.
  destruct H; discriminate.
Qed.

(** X2: the credentials parsed from the request headers pass validation
    exactly when the write-key header or the access-token header has a
    non-empty value; an empty header counts as absent, so a parsed
    credential is never the empty string. *)
Theorem parsed_credentials_valid_iff (h : HeaderList) :
  let c := parseTenantCredentials h in
  (validateCredentials c = Ok tt
   <-> (exists v, Headers_get "X-Segment-Write-Key" h = Some v /\ v <> "")
       \/ (exists v, Headers_get "X-Segment-Access-Token" h = Some v /\ v <> ""))
  /\ writeKey c <> Some ""
  /\ accessToken c <> Some ""
  /\ (validateCredentials c <> Ok tt ->
      exists e, validateCredentials c = Throw (ThrownError e) /\ err_name e = "Error").
Proof.
  cbv zeta. split; [| split; [| split]].
  - rewrite validateCredentials_ok. cbn [parseTenantCredentials writeKey accessToken].
    now rewrite !headerOrUndefined_present.
  - apply headerOrUndefined_not_empty.
  - apply headerOrUndefined_not_empty.
  - unfold validateCredentials.
    destruct (negb _ && negb _); [intros _; eexists; split; reflexivity | now intros H].
Qed.

Lemma parsed_credentials_valid_iff_witness :
  let h := [ ("x-segment-write-key", ""); ("X-SEGMENT-ACCESS-TOKEN", "tok") ] in
  validateCredentials (parseTenantCredentials h) = Ok tt
  /\ writeKey (parseTenantCredentials h) = None.
Proof.
  cbv zeta. split; [| reflexivity].
  apply (proj1 (parsed_credentials_valid_iff
                  [ ("x-segment-write-key", ""); ("X-SEGMENT-ACCESS-TOKEN", "tok") ])).
  right. exists "tok". split; [reflexivity | discriminate].
Defined.

(** ** The worker's routing *)

Lemma worker_fetch_mcp (r : WorkerRequest) :
  pathname r = "/mcp" -> method r = "POST" ->
  worker_fetch r
  = match validateCredentials (parseTenantCredentials (request_headers r)) with
    | Ok _ => Delegate (parseTenantCredentials (request_headers r))
    | Throw error =>
        Reply {| response_body :=
                   JSON_stringify
                     (Obj [ ("error", Str "Unauthorized");
                            ("message", Str (messageOr error "Invalid credentials"));
                            ("required_headers",
                             strings [ "X-Segment-Write-Key or X-Segment-Access-Token" ]) ]);
                 response_status := 401;
                 response_headers := jsonHeaders |}
    end.
Proof. intros Hp Hm. unfold worker_fetch. rewrite Hp, Hm. reflexivity. Qed.

(** X3: the worker hands a request to the MCP handler exactly when its path
    is /mcp, its method is POST and at least one of the two credentials is
    present in its headers; the credentials handed over are the parsed
    ones. So every tenant server is created with a credential. *)
Theorem worker_delegates_iff (r : WorkerRequest) (c : TenantCredentials) :
  worker_fetch r = Delegate c
  <-> pathname r = "/mcp"
      /\ method r = "POST"
      /\ c = parseTenantCredentials (request_headers r)
      /\ (present (writeKey c) = true \/ present (accessToken c) = true).
Proof.
  split.
  - unfold worker_fetch.
    destruct (String.eqb_spec (pathname r) "/health") as [Hh | Hh]; [discriminate |].
    destruct (String.eqb_spec (pathname r) "/mcp") as [Hp | Hp];
      destruct (String.eqb_spec (method r) "POST") as [Hm | Hm]; cbn [andb];
      try (destruct (pathname r =? "/sse"); discriminate).
    destruct (validateCredentials _) as [[] |] eqn:V; [| discriminate].
    intros H. injection H as <-.
    repeat split; try assumption. now apply validateCredentials_ok.
  - intros (Hp & Hm & -> & Hc).
    rewrite (worker_fetch_mcp r Hp Hm).
    apply validateCredentials_ok in Hc. now rewrite Hc.
Qed.

(** X4: every answer the worker gives by itself has status 200, 401 or 501:
    401 exactly for a POST to /mcp without credentials, 501 exactly for
    /sse; /health is answered with 200 whatever the method and the headers,
    and so is any other path, and /mcp under another method, with the
    server's description: the worker never answers 404 or 405. *)
Theorem worker_reply_status (r : WorkerRequest) (w : WorkerResponse) :
  worker_fetch r = Reply w ->
  (response_status w = 401%Z
   <-> pathname r = "/mcp" /\ method r = "POST"
       /\ present (writeKey (parseTenantCredentials (request_headers r))) = false
       /\ present (accessToken (parseTenantCredentials (request_headers r))) = false)
  /\ (response_status w = 501%Z <-> pathname r = "/sse")
  /\ (response_status w <> 401%Z -> response_status w <> 501%Z ->
      response_status w = 200%Z /\ response_headers w = jsonHeaders)
  /\ (pathname r = "/health" ->
      w = {| response_body := JSON_stringify (Obj [ ("status", Str "ok");
                                                    ("server", Str SERVER_NAME) ]);
             response_status := 200;
             response_headers := jsonHeaders |}).
Proof.
  unfold worker_fetch.
  destruct (String.eqb_spec (pathname r) "/health") as [Hh | Hh].
  { intros H. injection H as <-. cbn. rewrite Hh.
    repeat split; try discriminate; intros; try reflexivity;
      try (exfalso; intuition discriminate). }
  destruct (String.eqb_spec (pathname r) "/mcp") as [Hp | Hp];
    destruct (String.eqb_spec (method r) "POST") as [Hm | Hm]; cbn [andb].
  - unfold validateCredentials.
    destruct (present (writeKey _)) eqn:W, (present (accessToken _)) eqn:A;
      cbn [negb andb]; try discriminate.
    intros H. injection H as <-. cbn. rewrite Hp.
    repeat split; try discriminate; try congruence; intros; try reflexivity;
      try (exfalso; intuition discriminate).
  - destruct (String.eqb_spec (pathname r) "/sse") as [Hs | Hs]; [congruence |].
    intros H. injection H as <-. cbn.
    repeat split; try discriminate; try congruence; intros; try reflexivity;
      try (exfalso; intuition congruence).
  - destruct (String.eqb_spec (pathname r) "/sse") as [Hs | Hs];
      intros H; injection H as <-; cbn;
      repeat split; try discriminate; try congruence; intros; try reflexivity;
      try (exfalso; intuition congruence).
  - destruct (String.eqb_spec (pathname r) "/sse") as [Hs | Hs];
      intros H; injection H as <-; cbn;
      repeat split; try discriminate; try congruence; intros; try reflexivity;
      try (exfalso; intuition congruence).
Qed.

Lemma worker_reply_status_witness :
  let r := {| pathname := "/mcp"; method := "GET"; request_headers := [] |} in
  exists w, worker_fetch r = Reply w /\ response_status w = 200%Z.
Proof.
  cbv zeta. eexists. split; [reflexivity |].
  refine (proj1 (proj1 (proj2 (proj2 (worker_reply_status
            {| pathname := "/mcp"; method := "GET"; request_headers := [] |} _ eq_refl)))
            _ _)); cbn; discriminate.
Defined.

(** ** One request per call *)

Lemma throwGeneric_log {A : Type} (message : value) (r : Response) (log : list Request) :
  snd (@throwGeneric A message r log) = log.
Proof. unfold throwGeneric. destruct (ToString message); reflexivity. Qed.

Ltac open_request :=
  unfold trackingRequest, publicApiRequest, nbind, lift, fetch, throw, ret,
    getTrackingHeaders, getPublicApiHeaders.

Lemma trackingRequest_log (transport : Request -> FetchOutcome)
  (this : SegmentClientImpl) (endpoint : string) (payload : value) (log : list Request) :
  present (writeKey (credentials this)) = true ->
  snd (trackingRequest transport this endpoint payload log)
  = (log ++ [ trackingCall this endpoint payload ])%list.
Proof.
  intros H. open_request. rewrite H. cbn [negb]. fold (trackingCall this endpoint payload).
  destruct (transport (trackingCall this endpoint payload)) as [r | e]; [| reflexivity].
  destruct (status r =? 429)%Z; [reflexivity |].
  destruct ((status r =? 401) || (status r =? 403))%Z; [reflexivity |].
  destruct (negb (ok r)); [apply throwGeneric_log | reflexivity].
Qed.

Lemma publicApiRequest_log (transport : Request -> FetchOutcome)
  (this : SegmentClientImpl) (endpoint : string) (options : RequestInit)
  (log : list Request) :
  present (accessToken (credentials this)) = true ->
  snd (publicApiRequest transport this endpoint options log)
  = (log ++ [ publicCall this endpoint options ])%list.
Proof.
  intros H. open_request. rewrite H. cbn [negb]. fold (publicCall this endpoint options).
  destruct (transport (publicCall this endpoint options)) as [r | e]; [| reflexivity].
  destruct (status r =? 429)%Z; [reflexivity |].
  destruct ((status r =? 401) || (status r =? 403))%Z; [reflexivity |].
  destruct (negb (ok r)); [apply throwGeneric_log |].
  destruct (status r =? 204)%Z; reflexivity.
Qed.

(** What a request helper returns depends on the transport only through its
    answer to the one request. *)
Lemma publicApiRequest_outcome (transport : Request -> FetchOutcome)
  (this : SegmentClientImpl) (endpoint : string) (options : RequestInit)
  (log : list Request) (r : Response) :
  present (accessToken (credentials this)) = true ->
  transport (publicCall this endpoint options) = Resolved r ->
  publicApiRequest transport this endpoint options log
  = publicApiRequest (fun _ => Resolved r) this endpoint options log.
Proof.
  intros H T. open_request. rewrite H. cbn [negb].
  fold (publicCall this endpoint options). now rewrite T.
Qed.

Lemma trackingRequest_outcome (transport : Request -> FetchOutcome)
  (this : SegmentClientImpl) (endpoint : string) (payload : value)
  (log : list Request) (r : Response) :
  present (writeKey (credentials this)) = true ->
  transport (trackingCall this endpoint payload) = Resolved r ->
  trackingRequest transport this endpoint payload log
  = trackingRequest (fun _ => Resolved r) this endpoint payload log.
Proof.
  intros H T. open_request. rewrite H. cbn [negb].
  fold (trackingCall this endpoint payload). now rewrite T.
Qed.

(** X5: with its credential present, a request helper hands exactly one
    request to [fetch], whatever the transport answers (a response of any
    status, or a failure): there is no retry. The request goes to the
    surface's base URL followed by the endpoint and carries the
    Authorization header made from the credential; the tracking request is
    a POST of the compact JSON of the payload. *)
Theorem one_request_per_call (transport : Request -> FetchOutcome)
  (this : SegmentClientImpl) (log : list Request) :
  (present (writeKey (credentials this)) = true ->
   forall endpoint payload,
     snd (trackingRequest transport this endpoint payload log)
     = (log ++ [ trackingCall this endpoint payload ])%list)
  /\ (present (accessToken (credentials this)) = true ->
      forall endpoint options,
        snd (publicApiRequest transport this endpoint options log)
        = (log ++ [ publicCall this endpoint options ])%list
        /\ (init_headers options = None ->
            req_headers (publicCall this endpoint options)
            = [ ("Authorization",
                 "Bearer " ++ interpolate (accessToken (credentials this)));
                ("Content-Type", "application/json") ])).
Proof.
  split.
  - intros H endpoint payload. now apply trackingRequest_log.
  - intros H endpoint options. split; [now apply publicApiRequest_log |].
    intros Hh. unfold publicCall. now rewrite Hh.
Qed.

Lemma one_request_per_call_witness :
  let client := createSegmentClient (mkTenantCredentials (Some "wk") (Some "tok") None None) in
  let transport := fun _ : Request => Rejected (mkNativeError "TypeError" "fetch failed" "") in
  snd (batch transport client (Obj [ ("batch", Arr []) ]) [])
  = [ {| req_url := "https://api.segment.io/v1/batch";
         req_method := Some "POST";
         req_headers := [ ("Authorization", "Basic d2s6");
                          ("Content-Type", "application/json") ];
         req_body := Some ("{" ++ DQ ++ "batch" ++ DQ ++ ":[]}") |} ].
Proof.
  intros client transport.
  exact (proj1 (one_request_per_call transport client []) eq_refl "/batch"
           (Obj [ ("batch", Arr []) ])).
Defined.

(** ** Classification of responses *)

Lemma success_body_helper (this : SegmentClientImpl) (response : Response)
  (v : value) (log : list Request) :
  ok response = true ->
  parsed response = ParsedValue v ->
  (present (writeKey (credentials this)) = true ->
   forall endpoint payload,
     fst (trackingRequest (fun _ => Resolved response) this endpoint payload log) = Ok v)
  /\ (present (accessToken (credentials this)) = true ->
      forall endpoint options,
        fst (publicApiRequest (fun _ => Resolved response) this endpoint options log)
        = if (status response =? 204)%Z then Ok Undefined else Ok v).
Proof.
  intros Hok Hparsed.
  destruct (ok_not_classified response Hok) as (H429 & H401 & H403).
  split.
  - intros Hkey endpoint payload. open_request.
    rewrite Hkey. cbn [negb]. rewrite H429, H401, H403, Hok. cbn [orb negb].
    unfold Response_json. now rewrite Hparsed.
  - intros Htoken endpoint options. open_request.
    rewrite Htoken. cbn [negb]. rewrite H429, H401, H403, Hok. cbn [orb negb].
    destruct (status response =? 204)%Z; [reflexivity |].
    unfold Response_json. now rewrite Hparsed.
Qed.

(** X6: a 2xx response whose body is valid JSON is returned as the parsed
    value, unchanged, by both helpers; the public helper returns
    [undefined] for status 204 instead, whatever the body. *)
Theorem success_returns_parsed_body (this : SegmentClientImpl) (response : Response)
  (v : value) (log : list Request) :
  ok response = true ->
  parsed response = ParsedValue v ->
  let transport := fun _ : Request => Resolved response in
  (present (writeKey (credentials this)) = true ->
   forall endpoint payload,
     fst (trackingRequest transport this endpoint payload log) = Ok v)
  /\ (present (accessToken (credentials this)) = true ->
      forall endpoint options,
        fst (publicApiRequest transport this endpoint options log)
        = if (status response =? 204)%Z then Ok Undefined else Ok v).
Proof.
  intros Hok Hparsed transport. exact (success_body_helper this response v log Hok Hparsed).
Qed.

Lemma success_returns_parsed_body_witness :
  let client := createSegmentClient (mkTenantCredentials (Some "wk") (Some "tok") None None) in
  let v := Obj [ ("success", Bool true) ] in
  let response := {| status := 200; headers := []; body := "{}"; parsed := ParsedValue v |} in
  fst (batch (fun _ => Resolved response) client (Obj []) []) = Ok v.
Proof.
  intros client v response.
  exact (proj1 (success_returns_parsed_body client response v [] eq_refl eq_refl)
           eq_refl "/batch" (Obj [])).
Defined.

(** X7: a response with status 401 or 403 is classified as an
    authentication failure whatever its headers and body, on both surfaces;
    the error carries the status code 401 in both cases, also when the
    response was a 403, and is not retryable. *)
Theorem unauthenticated_whatever_the_response (this : SegmentClientImpl)
  (response : Response) (log : list Request) :
  status response = 401%Z \/ status response = 403%Z ->
  let transport := fun _ : Request => Resolved response in
  (present (writeKey (credentials this)) = true ->
   forall endpoint payload,
     fst (trackingRequest transport this endpoint payload log)
     = Throw (ThrownApi (new_AuthenticationError "Authentication failed. Check your write key.")))
  /\ (present (accessToken (credentials this)) = true ->
      forall endpoint options,
        fst (publicApiRequest transport this endpoint options log)
        = Throw (ThrownApi (new_AuthenticationError "Authentication failed. Check your access token.")))
  /\ (forall m, statusCode (new_AuthenticationError m) = Some (Int 401)
                /\ retryable (new_AuthenticationError m) = false
                /\ kind (new_AuthenticationError m) = Unauthenticated).
Proof.
  intros Hs transport.
  assert (H429 : (status response =? 429)%Z = false) by (apply Z.eqb_neq; lia).
  assert (H40x : ((status response =? 401) || (status response =? 403))%Z = true).
  { destruct Hs as [-> | ->]; reflexivity. }
  split; [| split].
  - intros Hkey endpoint payload. open_request. unfold transport.
    rewrite Hkey. cbn [negb]. now rewrite H429, H40x.
  - intros Htoken endpoint options. open_request. unfold transport.
    rewrite Htoken. cbn [negb]. now rewrite H429, H40x.
  - intros m. repeat split.
Qed.

Lemma unauthenticated_whatever_the_response_witness :
  let client := createSegmentClient (mkTenantCredentials None (Some "tok") None None) in
  let response := {| status := 403; headers := [ ("Retry-After", "5") ];
                     body := "{}";
                     parsed := ParsedValue (Obj [ ("message", Str "forbidden") ]) |} in
  fst (publicApiRequest (fun _ => Resolved response) client "/sources" noInit [])
  = Throw (ThrownApi (new_AuthenticationError "Authentication failed. Check your access token.")).
Proof.
  intros client response.
  exact (proj1 (proj2 (unauthenticated_whatever_the_response client response []
                         (or_intror eq_refl)))
           eq_refl "/sources" noInit).
Defined.

(** ** Messages of unclassified failures *)

(** A printable value converts to a string. *)
Lemma ToString_printable (v : value) :
  printable v = true -> exists s, ToString v = Ok s.
Proof.
  induction v using value_nested_ind; cbn [ToString printable]; intros Hp;
    try (eexists; reflexivity).
  - assert (M : exists parts,
               mapM (fun x => match x with
                              | Undefined | Null => Ok ""
                              | _ => ToString x
                              end) items = Ok parts).
    { induction H as [| x items Hx _ IH]; [eexists; reflexivity |].
      cbn [forallb] in Hp. apply andb_true_iff in Hp. destruct Hp as [Px Pi].
      destruct (IH Pi) as [parts Hparts]. destruct (Hx Px) as [s Hs].
      cbn [mapM]. rewrite Hparts.
      destruct x; try (eexists; reflexivity); rewrite Hs; eexists; reflexivity. }
    destruct M as [parts ->]. eexists. reflexivity.
  - destruct (lookup "toString" props); [discriminate | eexists; reflexivity].
Qed.

(** Reading a property named by a word other than length from a JSON value
    that is not an object gives [undefined], or throws for [null]. *)
Lemma get_word_not_object (v : value) (k : string) :
  startsLower k = true -> (k =? "length") = false ->
  match v with
  | Obj _ => True
  | Undefined | Null => exists t, get v k = Throw t
  | _ => get v k = Ok Undefined
  end.
Proof.
  intros Hk Hl. destruct v; cbn [get own]; try reflexivity; try (eexists; reflexivity).
  - rewrite Hl. unfold indexKeys. now rewrite (findIndex_word k _ 0 Hk).
  - rewrite Hl. unfold indexKeys. now rewrite (findIndex_word k _ 0 Hk).
Qed.

Lemma throwGeneric_fst (chosen : value) (r : Response) (log : list Request) :
  fst (@throwGeneric value chosen r log) = raised r chosen.
Proof. unfold throwGeneric, raised. destruct (ToString chosen); reflexivity. Qed.

Section UnclassifiedFailure.

Variable this : SegmentClientImpl.
Variable response : Response.
Variable log : list Request.

Hypothesis failed : ok response = false.
Hypothesis not429 : status response <> 429%Z.
Hypothesis not401 : status response <> 401%Z.
Hypothesis not403 : status response <> 403%Z.

Let transport : Request -> FetchOutcome := fun _ => Resolved response.

Let publicDefault : string := "Public API error: " ++ statusString response.
Let trackingDefault : string := "Tracking API error: " ++ statusString response.

Lemma unclassified_tests :
  (status response =? 429)%Z = false
  /\ ((status response =? 401) || (status response =? 403))%Z = false
  /\ negb (ok response) = true.
Proof.
  repeat split.
  - now apply Z.eqb_neq.
  - apply orb_false_iff. split; now apply Z.eqb_neq.
  - now rewrite failed.
Qed.

Lemma public_failure_object (props : list (string * value)) (endpoint : string)
  (options : RequestInit) :
  present (accessToken (credentials this)) = true ->
  parsed response = ParsedValue (Obj props) ->
  fst (publicApiRequest transport this endpoint options log)
  = raised response
      (firstTruthy [ field (field (property "errors" props) "0") "message";
                     property "message" props;
                     property "error" props ] publicDefault).
Proof.
  intros Htoken Hparsed.
  destruct unclassified_tests as (H429 & H40x & Hnok).
  open_request. unfold transport. rewrite Htoken. cbn [negb].
  rewrite H429, H40x, Hnok. rewrite throwGeneric_fst. f_equal.
  unfold JSON_parse_text, Response_json. rewrite Hparsed. cbn [bind].
  rewrite !get_Obj. cbn [bind].
  rewrite (getOpt_field (property "errors" props) "0"). cbn [bind].
  rewrite (getOpt_field (field (property "errors" props) "0") "message").
  cbn [bind firstTruthy].
  destruct (truthy (field (field (property "errors" props) "0") "message"));
    [reflexivity |].
  cbn [bind]. destruct (truthy (property "message" props)); [reflexivity |].
  cbn [bind orKeep]. unfold or_else.
  destruct (truthy (property "error" props)); reflexivity.
Qed.

Lemma tracking_failure_object (props : list (string * value)) (endpoint : string)
  (payload : value) :
  present (writeKey (credentials this)) = true ->
  parsed response = ParsedValue (Obj props) ->
  fst (trackingRequest transport this endpoint payload log)
  = raised response
      (firstTruthy [ property "message" props; property "error" props ] trackingDefault).
Proof.
  intros Hkey Hparsed.
  destruct unclassified_tests as (H429 & H40x & Hnok).
  open_request. unfold transport. rewrite Hkey. cbn [negb].
  rewrite H429, H40x, Hnok. rewrite throwGeneric_fst. f_equal.
  unfold JSON_parse_text, Response_json. rewrite Hparsed. cbn [bind].
  rewrite !get_Obj. cbn [bind firstTruthy].
  destruct (truthy (property "message" props)); [reflexivity |].
  cbn [bind orKeep]. unfold or_else.
  destruct (truthy (property "error" props)); reflexivity.
Qed.

Lemma public_failure_default (endpoint : string) (options : RequestInit) :
  present (accessToken (credentials this)) = true ->
  noMessage (parsed response) ->
  fst (publicApiRequest transport this endpoint options log)
  = Throw (genericError publicDefault response).
Proof.
  intros Htoken Hno.
  destruct unclassified_tests as (H429 & H40x & Hnok).
  open_request. unfold transport. rewrite Htoken. cbn [negb].
  rewrite H429, H40x, Hnok. rewrite throwGeneric_fst.
  transitivity (raised response (Str publicDefault)); [| reflexivity]. f_equal.
  unfold JSON_parse_text, Response_json.
  destruct (parsed response) as [v | msg]; [| reflexivity].
  cbn [bind].
  pose proof (get_word_not_object v "errors" eq_refl eq_refl) as He.
  pose proof (get_word_not_object v "message" eq_refl eq_refl) as Hm.
  pose proof (get_word_not_object v "error" eq_refl eq_refl) as Hr.
  destruct v;
    [ destruct He as [t ->]; reflexivity
    | destruct He as [t ->]; reflexivity
    | rewrite He, Hm, Hr; reflexivity ..
    | now elim Hno ].
Qed.

Lemma tracking_failure_default (endpoint : string) (payload : value) :
  present (writeKey (credentials this)) = true ->
  noMessage (parsed response) ->
  fst (trackingRequest transport this endpoint payload log)
  = Throw (genericError trackingDefault response).
Proof.
  intros Hkey Hno.
  destruct unclassified_tests as (H429 & H40x & Hnok).
  open_request. unfold transport. rewrite Hkey. cbn [negb].
  rewrite H429, H40x, Hnok. rewrite throwGeneric_fst.
  transitivity (raised response (Str trackingDefault)); [| reflexivity]. f_equal.
  unfold JSON_parse_text, Response_json.
  destruct (parsed response) as [v | msg]; [| reflexivity].
  cbn [bind].
  pose proof (get_word_not_object v "message" eq_refl eq_refl) as Hm.
  pose proof (get_word_not_object v "error" eq_refl eq_refl) as Hr.
  destruct v;
    [ destruct Hm as [t ->]; reflexivity
    | destruct Hm as [t ->]; reflexivity
    | rewrite Hm, Hr; reflexivity ..
    | now elim Hno ].
Qed.

End UnclassifiedFailure.

(** X8: for a failure that is neither 429, 401 nor 403 and whose body is a
    JSON object, the message is chosen as the first truthy one of
    [errors[0].message], [message] and [error] on the public surface, and of
    [message] and [error] on the tracking surface (which does not look at
    [errors]); with none, it is the default message naming the surface and
    the status. The request then throws the Generic error with that value,
    stringified, as its message, the response status, the code
    SEGMENT_ERROR and no retryable flag; when the value chosen cannot be
    converted to a string (an object with a member named [toString], or an
    array holding one), it throws the [TypeError] of the conversion
    instead. *)
Theorem failure_message_priority (this : SegmentClientImpl) (response : Response)
  (log : list Request) (props : list (string * value)) :
  ok response = false ->
  status response <> 429%Z -> status response <> 401%Z -> status response <> 403%Z ->
  parsed response = ParsedValue (Obj props) ->
  let transport := fun _ : Request => Resolved response in
  let error := fun message =>
    ThrownApi {| name := "SegmentApiError"; message := message;
                 statusCode := Some (Int (status response));
                 code := "SEGMENT_ERROR"; retryable := false; subclass := Base |} in
  let outcome := fun chosen : value =>
    match ToString chosen with
    | Ok m => Throw (error m)
    | Throw t => Throw t
    end in
  (present (accessToken (credentials this)) = true ->
   forall endpoint options,
     fst (publicApiRequest transport this endpoint options log)
     = outcome (firstTruthy
                  [ field (field (property "errors" props) "0") "message";
                    property "message" props;
                    property "error" props ]
                  ("Public API error: " ++ Number_toString (Int (status response)))))
  /\ (present (writeKey (credentials this)) = true ->
      forall endpoint payload,
        fst (trackingRequest transport this endpoint payload log)
        = outcome (firstTruthy
                     [ property "message" props; property "error" props ]
                     ("Tracking API error: " ++ Number_toString (Int (status response)))))
  /\ (forall chosen, printable chosen = true ->
                     exists m, ToString chosen = Ok m /\ outcome chosen = Throw (error m))
  /\ (forall chosen, scalar chosen = true ->
                     outcome chosen = Throw (error (scalarText chosen)))
  /\ (forall chosen t, ToString chosen = Throw t ->
                       outcome chosen = Throw notConvertible /\ printable chosen = false).
Proof.
  intros Hf H429 H401 H403 Hparsed transport error outcome.
  split; [| split; [| split; [| split]]].
  - intros Htoken endpoint options.
    exact (public_failure_object this response log Hf H429 H401 H403 props endpoint
             options Htoken Hparsed).
  - intros Hkey endpoint payload.
    exact (tracking_failure_object this response log Hf H429 H401 H403 props endpoint
             payload Hkey Hparsed).
  - intros chosen Hp. destruct (ToString_printable chosen Hp) as [m Hm].
    exists m. split; [exact Hm |]. unfold outcome. now rewrite Hm.
  - intros chosen Hs. unfold outcome. now rewrite (ToString_scalar chosen Hs).
  - intros chosen t Ht. split.
    + unfold outcome. rewrite Ht. now rewrite (ToString_throws chosen t Ht).
    + destruct (printable chosen) eqn:Hp; [| reflexivity].
      destruct (ToString_printable chosen Hp) as [m Hm]. congruence.
Qed.

Lemma failure_message_priority_witness :
  let client := createSegmentClient (mkTenantCredentials (Some "wk") (Some "tok") None None) in
  let props := [ ("error", Str "bad request");
                 ("errors", Arr [ Obj [ ("type", Str "not-found");
                                        ("message", Str "Source not found") ] ]) ] in
  let response := {| status := 404; headers := []; body := "{}";
                     parsed := ParsedValue (Obj props) |} in
  fst (publicApiRequest (fun _ => Resolved response) client "/sources/x" noInit [])
  = Throw (ThrownApi (new_SegmentApiError "Source not found" (Some (Int 404)) None None))
  /\ fst (batch (fun _ => Resolved response) client (Obj []) [])
     = Throw (ThrownApi (new_SegmentApiError "bad request" (Some (Int 404)) None None)).
Proof.
  intros client props response.
  assert (H : ok response = false
              /\ status response <> 429%Z /\ status response <> 401%Z
              /\ status response <> 403%Z) by (cbn; repeat split; discriminate).
  destruct H as (Hf & H429 & H401 & H403).
  destruct (failure_message_priority client response [] props Hf H429 H401 H403 eq_refl)
    as (P & T & _).
  split.
  - exact (P eq_refl "/sources/x" noInit).
  - exact (T eq_refl "/batch" (Obj [])).
Defined.

(** X9: for a failure that is neither 429, 401 nor 403 and whose body is
    not JSON, or is JSON but not an object ([null], a number, a string, a
    boolean, an array), the error is the Generic error with the default
    message naming the surface and the status: what the extraction throws
    on the way is swallowed. *)
Theorem failure_message_default (this : SegmentClientImpl) (response : Response)
  (log : list Request) :
  ok response = false ->
  status response <> 429%Z -> status response <> 401%Z -> status response <> 403%Z ->
  match parsed response with
  | ParseFailure _ => True
  | ParsedValue (Obj _) => False
  | ParsedValue _ => True
  end ->
  let transport := fun _ : Request => Resolved response in
  (present (accessToken (credentials this)) = true ->
   forall endpoint options,
     fst (publicApiRequest transport this endpoint options log)
     = Throw (ThrownApi (new_SegmentApiError
                ("Public API error: " ++ Number_toString (Int (status response)))
                (Some (Int (status response))) None None)))
  /\ (present (writeKey (credentials this)) = true ->
      forall endpoint payload,
        fst (trackingRequest transport this endpoint payload log)
        = Throw (ThrownApi (new_SegmentApiError
                   ("Tracking API error: " ++ Number_toString (Int (status response)))
                   (Some (Int (status response))) None None)))
  /\ ((Z.abs (status response) < two53)%Z ->
      Number_toString (Int (status response)) = decimal (status response)).
Proof.
  intros Hf H429 H401 H403 Hno transport. split; [| split].
  - intros Htoken endpoint options.
    exact (public_failure_default this response log Hf H429 H401 H403 endpoint options
             Htoken Hno).
  - intros Hkey endpoint payload.
    exact (tracking_failure_default this response log Hf H429 H401 H403 endpoint payload
             Hkey Hno).
  - apply Number_toString_small.
Qed.

Lemma failure_message_default_witness :
  let client := createSegmentClient (mkTenantCredentials (Some "wk") None None None) in
  let response := {| status := 500; headers := []; body := "null";
                     parsed := ParsedValue Null |} in
  fst (batch (fun _ => Resolved response) client (Obj []) [])
  = Throw (ThrownApi (new_SegmentApiError "Tracking API error: 500" (Some (Int 500)) None None)).
Proof.
  intros client response.
  assert (H : ok response = false
              /\ status response <> 429%Z /\ status response <> 401%Z
              /\ status response <> 403%Z) by (cbn; repeat split; discriminate).
  destruct H as (Hf & H429 & H401 & H403).
  exact (proj1 (proj2 (failure_message_default client response [] Hf H429 H401 H403 I))
           eq_refl "/batch" (Obj [])).
Defined.

(** ** The connection test *)

Lemma pairing {A B : Type} (p : A * B) (a : A) (b : B) :
  fst p = a -> snd p = b -> p = (a, b).
Proof. destruct p. cbn. now intros -> ->. Qed.

Lemma getWorkspace_log (transport : Request -> FetchOutcome) (this : SegmentClientImpl)
  (log : list Request) :
  snd (getWorkspace transport this log)
  = snd (publicApiRequest transport this "/" noInit log).
Proof.
  unfold getWorkspace, nbind, lift.
  destruct (publicApiRequest transport this "/" noInit log) as [[v | t] l]; [| reflexivity].
  destruct (get v "data") as [d | t]; reflexivity.
Qed.

Lemma then_ret_log {A B : Type} (m : Net A) (b : B) (log : list Request) :
  snd (nbind m (fun _ => ret b) log) = snd (m log).
Proof. unfold nbind, ret. destruct (m log) as [[a | t] l]; reflexivity. Qed.

(** X10: the connection test never throws. Without credentials it reports
    that none were provided and sends nothing. With an access token it
    sends exactly one request, to the root of the public API, whether or
    not a write key is present too; with a write key only, it sends exactly
    one identify call to the tracking API. *)
Theorem testConnection_requests (transport : Request -> FetchOutcome)
  (this : SegmentClientImpl) (log : list Request) :
  (exists r, fst (testConnection transport this log) = Ok r)
  /\ (present (accessToken (credentials this)) = false ->
      present (writeKey (credentials this)) = false ->
      testConnection transport this log
      = (Ok {| connected := false; connection_message := "No credentials provided" |},
         log))
  /\ (present (accessToken (credentials this)) = true ->
      snd (testConnection transport this log)
      = (log ++ [ publicCall this "/" noInit ])%list)
  /\ (present (accessToken (credentials this)) = false ->
      present (writeKey (credentials this)) = true ->
      snd (testConnection transport this log)
      = (log ++ [ trackingCall this "/identify"
                    (Obj [ ("type", Str "identify");
                           ("userId", Str "segment-mcp-test");
                           ("traits", Obj [ ("test", Bool true) ]);
                           ("context", Undefined);
                           ("anonymousId", Undefined) ]) ])%list).
Proof.
  unfold testConnection.
  split; [apply tryCatch_ret_log | split; [| split]].
  - intros Ht Hk. rewrite Ht, Hk. reflexivity.
  - intros Ht. rewrite Ht.
    rewrite (proj1 (tryCatch_ret_log _ _ log)), then_ret_log, getWorkspace_log.
    now apply publicApiRequest_log.
  - intros Ht Hk. rewrite Ht, Hk.
    rewrite (proj1 (tryCatch_ret_log _ _ log)), then_ret_log.
    unfold identify. now apply trackingRequest_log.
Qed.

Lemma testConnection_requests_witness :
  let client := createSegmentClient (mkTenantCredentials (Some "wk") (Some "tok") None None) in
  let transport := fun _ : Request => Rejected (mkNativeError "TypeError" "fetch failed" "") in
  List.map req_url (snd (testConnection transport client []))
  = [ "https://api.segmentapis.com/" ].
Proof.
  intros client transport.
  rewrite (proj1 (proj2 (proj2 (testConnection_requests transport client []))) eq_refl).
  reflexivity.
Defined.

(** What the public helper returns for a 2xx answer. *)
Lemma publicApiRequest_2xx (this : SegmentClientImpl) (response : Response)
  (endpoint : string) (options : RequestInit) (log : list Request) :
  present (accessToken (credentials this)) = true ->
  ok response = true ->
  publicApiRequest (fun _ => Resolved response) this endpoint options log
  = (if (status response =? 204)%Z then Ok Undefined else Response_json response,
     (log ++ [ publicCall this endpoint options ])%list).
Proof.
  intros Ht Hok.
  destruct (ok_not_classified response Hok) as (H429 & H401 & H403).
  open_request. rewrite Ht. cbn [negb].
  fold (publicCall this endpoint options).
  rewrite H429, H401, H403, Hok. cbn [orb negb].
  destruct (status response =? 204)%Z; reflexivity.
Qed.

Lemma publicApiRequest_success (this : SegmentClientImpl) (response : Response)
  (v : value) (endpoint : string) (options : RequestInit) (log : list Request) :
  present (accessToken (credentials this)) = true ->
  ok response = true ->
  parsed response = ParsedValue v ->
  publicApiRequest (fun _ => Resolved response) this endpoint options log
  = (if (status response =? 204)%Z then Ok Undefined else Ok v,
     (log ++ [ publicCall this endpoint options ])%list).
Proof.
  intros Ht Hok Hp. rewrite (publicApiRequest_2xx this response endpoint options log Ht Hok).
  unfold Response_json. now rewrite Hp.
Qed.

Lemma get_field (v : value) (k : string) :
  isNullish v = false -> get v k = Ok (field v k).
Proof. intros H. rewrite <- getOpt_field. unfold getOpt. now rewrite H. Qed.

(** The connection test on a 2xx answer. *)
Lemma testConnection_2xx (this : SegmentClientImpl) (response : Response)
  (log : list Request) :
  present (accessToken (credentials this)) = true ->
  ok response = true ->
  fst (testConnection (fun _ => Resolved response) this log)
  = Ok (connectionReport response).
Proof.
  intros Ht Hok.
  unfold testConnection, tryCatch, nbind, ret, getWorkspace, nbind, lift. rewrite Ht.
  rewrite (publicApiRequest_2xx this response "/" noInit log Ht Hok).
  unfold connectionReport, Response_json.
  destruct (status response =? 204)%Z; [reflexivity |].
  destruct (parsed response) as [v | msg]; [| reflexivity].
  destruct (isNullish v) eqn:N.
  - destruct v; try discriminate; reflexivity.
  - rewrite (get_field v "data" N).
    destruct v; try discriminate;
      destruct (field _ "data"); reflexivity.
Qed.

(** X11: with an access token, the connection test on a 2xx answer reports
    [connected: true], with the message of success, exactly when the status
    is not 204 and the body is JSON for a value, neither [null] nor
    [undefined], whose [data] member is neither [undefined] nor [null]; for
    an object that is its own [data] property. Otherwise it reports
    [connected: false] with the message of the error thrown on the way: the
    parser's message for a body that is not JSON; for a 204, where nothing
    was parsed, that [data] cannot be read of undefined; for a body that is
    [null], that [data] cannot be read of null; and, when [data] is missing
    or [null], that [workspace] cannot be read of it. *)
Theorem testConnection_needs_data (this : SegmentClientImpl) (response : Response)
  (log : list Request) :
  present (accessToken (credentials this)) = true ->
  ok response = true ->
  let report := connectionReport response in
  fst (testConnection (fun _ => Resolved response) this log) = Ok report
  /\ (connected report = true
      <-> (status response =? 204)%Z = false
          /\ exists v, parsed response = ParsedValue v
                       /\ isNullish v = false
                       /\ isNullish (field v "data") = false)
  /\ (connected report = true ->
      connection_message report = "Successfully connected to Segment Public API")
  /\ (forall props, parsed response = ParsedValue (Obj props) ->
        connected report
        = negb (status response =? 204)%Z && negb (isNullish (property "data" props)))
  /\ (connected report = false ->
      connection_message report
      = if (status response =? 204)%Z
        then "Cannot read properties of undefined (reading 'data')"
        else match parsed response with
             | ParseFailure msg => msg
             | ParsedValue Undefined => "Cannot read properties of undefined (reading 'data')"
             | ParsedValue Null => "Cannot read properties of null (reading 'data')"
             | ParsedValue v =>
                 match field v "data" with
                 | Null => "Cannot read properties of null (reading 'workspace')"
                 | _ => "Cannot read properties of undefined (reading 'workspace')"
                 end
             end).
Proof.
  intros Ht Hok report.
  split; [exact (testConnection_2xx this response log Ht Hok) |].
  unfold report, connectionReport.
  destruct (status response =? 204)%Z.
  { cbn. repeat split; try discriminate; intros; try reflexivity.
    destruct H as [H _]. discriminate. }
  split; [| split; [| split]].
  - destruct (parsed response) as [v | msg].
    + split.
      * intros H. split; [reflexivity |]. exists v. split; [reflexivity |].
        destruct v; try discriminate H;
          (split; [reflexivity |]); destruct (field _ "data"); try discriminate H;
          reflexivity.
      * intros [_ [v' [E [Nv Nd]]]]. injection E as <-.
        destruct v; try discriminate Nv;
          destruct (field _ "data"); try discriminate Nd; reflexivity.
    + split; [discriminate |]. intros [_ [v [E _]]]. discriminate.
  - destruct (parsed response) as [v | msg]; [| discriminate].
    destruct v; try discriminate; destruct (field _ "data"); try discriminate;
      reflexivity.
  - intros props ->. change (field (Obj props) "data") with (property "data" props).
    destruct (property "data" props); reflexivity.
  - destruct (parsed response) as [v | msg]; [| reflexivity].
    destruct v; try reflexivity; destruct (field _ "data"); try discriminate;
      reflexivity.
Qed.

Lemma testConnection_needs_data_witness :
  let client := createSegmentClient (mkTenantCredentials None (Some "tok") None None) in
  let response := {| status := 200; headers := []; body := "{}";
                     parsed := ParsedValue (Obj []) |} in
  fst (testConnection (fun _ => Resolved response) client [])
  = Ok {| connected := false;
          connection_message := "Cannot read properties of undefined (reading 'workspace')" |}.
Proof.
  intros client response.
  exact (proj1 (testConnection_needs_data client response [] eq_refl eq_refl)).
Defined.

(** ** Failures outside the taxonomy *)

(** X13: when [fetch] itself fails, a public operation run by a tool
    handler ends as a result with [isError = true], after the one request:
    the error text is the transport's message after Error: with no
    (retryable) suffix, also when [isRetryableError] answers true for it,
    and the details are the error's name, message and stack. *)
Theorem transport_failure_envelope (transport : Request -> FetchOutcome)
  (this : SegmentClientImpl) (endpoint : string) (options : RequestInit)
  (render : value -> Result ToolResponse) (e : NativeError) (log : list Request) :
  present (accessToken (credentials this)) = true ->
  transport (publicCall this endpoint options) = Rejected e ->
  handler (publicApiRequest transport this endpoint options) render log
  = (Ok {| content :=
             [ {| type := "text";
                  text := JSON_stringify_2
                            (Obj [ ("error", Str ("Error: " ++ err_message e));
                                   ("details",
                                    Obj [ ("name", Str (err_name e));
                                          ("message", Str (err_message e));
                                          ("stack", Str (err_stack e)) ]) ]) |} ];
           isError := Some true |},
     (log ++ [ publicCall this endpoint options ])%list).
Proof.
  intros Ht Hr. unfold handler. open_request. rewrite Ht. cbn [negb].
  fold (publicCall this endpoint options). rewrite Hr. reflexivity.
Qed.

Lemma transport_failure_envelope_witness :
  let client := createSegmentClient (mkTenantCredentials None (Some "tok") None None) in
  let e := mkNativeError "TypeError" "network timeout" "TypeError: network timeout" in
  isRetryableError (ThrownError e) = true
  /\ fst (segment_list_sources (fun _ => Rejected e) client
            (Num (Int 20)) Undefined json [])
     = Ok {| content :=
               [ {| type := "text";
                    text := JSON_stringify_2
                              (Obj [ ("error", Str "Error: network timeout");
                                     ("details",
                                      Obj [ ("name", Str "TypeError");
                                            ("message", Str "network timeout");
                                            ("stack", Str "TypeError: network timeout") ]) ]) |} ];
             isError := Some true |}.
Proof.
  intros client e. split; [reflexivity |].
  change (segment_list_sources (fun _ => Rejected e) client (Num (Int 20)) Undefined json [])
    with (handler (publicApiRequest (fun _ => Rejected e) client "/sources?count=20" noInit)
            (fun result => formatResponse result json "sources") []).
  rewrite (transport_failure_envelope (fun _ => Rejected e) client _ noInit _ e []
             eq_refl eq_refl).
  reflexivity.
Defined.

(** ** Operations of the public surface *)

(** X14: [getSource] strips the envelope of a successful answer: from a
    body [{data: {source: S}}] it returns [S], and the tool in JSON mode
    prints [S] alone. When the body has no [data] member (or a [null] one)
    the operation fails with the engine's [TypeError] instead of an error of
    the taxonomy. *)
Theorem getSource_unwraps (this : SegmentClientImpl) (response : Response)
  (props : list (string * value)) (sourceId : string) (log : list Request) :
  present (accessToken (credentials this)) = true ->
  ok response = true ->
  status response <> 204%Z ->
  parsed response = ParsedValue (Obj props) ->
  let transport := fun _ : Request => Resolved response in
  (forall d,
      property "data" props = Obj d ->
      fst (getSource transport this sourceId log) = Ok (property "source" d)
      /\ fst (segment_get_source transport this sourceId json log)
         = Ok (textResult (JSON_stringify_2 (property "source" d))))
  /\ (isNullish (property "data" props) = true ->
      exists msg, fst (getSource transport this sourceId log) = Throw (TypeError msg))
  /\ snd (getSource transport this sourceId log)
     = (log ++ [ publicCall this ("/sources/" ++ sourceId) noInit ])%list.
Proof.
  intros Ht Hok H204 Hp transport.
  assert (E : getSource transport this sourceId log
              = (bind (get (Obj props) "data") (fun data => get data "source"),
                 (log ++ [ publicCall this ("/sources/" ++ sourceId) noInit ])%list)).
  { unfold getSource, nbind, lift, transport.
    rewrite (publicApiRequest_2xx this response _ noInit log Ht Hok).
    apply Z.eqb_neq in H204. rewrite H204.
    unfold Response_json. rewrite Hp.
    destruct (get (Obj props) "data") as [d | t]; [| reflexivity]. cbn [bind].
    destruct (get d "source"); reflexivity. }
  split; [| split].
  - intros d Hd.
    assert (G : fst (getSource transport this sourceId log) = Ok (property "source" d)).
    { rewrite E. cbn [fst]. rewrite get_Obj, Hd. reflexivity. }
    split; [exact G |].
    unfold segment_get_source, handler.
    destruct (getSource transport this sourceId log) as [[v | t] l]; cbn [fst] in G;
      [| discriminate].
    injection G as ->. reflexivity.
  - intros Hn. rewrite E. cbn [fst]. rewrite get_Obj. cbn [bind].
    destruct (property "data" props); try discriminate; eexists; reflexivity.
  - now rewrite E.
Qed.

Lemma getSource_unwraps_witness :
  let client := createSegmentClient (mkTenantCredentials None (Some "tok") None None) in
  let source := Obj [ ("id", Str "abc"); ("enabled", Bool true) ] in
  let response := {| status := 200; headers := []; body := "{}";
                     parsed := ParsedValue (Obj [ ("data", Obj [ ("source", source) ]) ]) |} in
  fst (getSource (fun _ => Resolved response) client "abc" []) = Ok source.
Proof.
  intros client source response.
  assert (H204 : status response <> 204%Z) by discriminate.
  exact (proj1 (proj1 (getSource_unwraps client response _ "abc" []
                         eq_refl eq_refl H204 eq_refl)
                  [ ("source", source) ] eq_refl)).
Defined.

(** X15: [deleteSource] sends one DELETE without a body and, on a 2xx
    answer, returns [undefined] when the status is 204 or the body is JSON
    (which it discards); a 2xx answer of another status whose body is not
    JSON, an empty 200 for instance, makes it fail with the parser's
    [SyntaxError] although the server accepted the deletion. On success the
    tool's text names the deleted source. *)
Theorem deleteSource_outcome (this : SegmentClientImpl) (response : Response)
  (sourceId : string) (log : list Request) :
  present (accessToken (credentials this)) = true ->
  ok response = true ->
  let transport := fun _ : Request => Resolved response in
  let call := {| req_url := this_publicApiBaseUrl this ++ "/sources/" ++ sourceId;
                 req_method := Some "DELETE";
                 req_headers :=
                   [ ("Authorization",
                      "Bearer " ++ interpolate (accessToken (credentials this)));
                     ("Content-Type", "application/json") ];
                 req_body := None |} in
  let succeeded :=
    (status response =? 204)%Z
    || match parsed response with
       | ParsedValue _ => true
       | ParseFailure _ => false
       end in
  deleteSource transport this sourceId log
  = (match parsed response with
     | ParseFailure msg =>
         if (status response =? 204)%Z then Ok Undefined else Throw (SyntaxError msg)
     | ParsedValue _ => Ok Undefined
     end,
     (log ++ [ call ])%list)
  /\ (succeeded = true ->
      fst (segment_delete_source transport this sourceId log)
      = Ok (textResponse
              (JSON_stringify_2 (Obj [ ("success", Bool true);
                                       ("message", Str ("Source " ++ sourceId ++ " deleted")) ]))
              None))
  /\ (succeeded = false ->
      exists r, fst (segment_delete_source transport this sourceId log) = Ok r
                /\ isError r = Some true).
Proof.
  intros Ht Hok transport call succeeded.
  assert (E : deleteSource transport this sourceId log
              = (match parsed response with
                 | ParseFailure msg =>
                     if (status response =? 204)%Z then Ok Undefined
                     else Throw (SyntaxError msg)
                 | ParsedValue _ => Ok Undefined
                 end, (log ++ [ call ])%list)).
  { unfold deleteSource, nbind, ret, transport.
    rewrite (publicApiRequest_2xx this response _ _ log Ht Hok).
    unfold Response_json.
    destruct (status response =? 204)%Z, (parsed response); reflexivity. }
  split; [exact E | split]; intros Hs; unfold segment_delete_source, handler;
    rewrite E; subst succeeded;
    destruct (status response =? 204)%Z, (parsed response);
    cbn in Hs; try discriminate; try reflexivity;
    eexists; split; reflexivity.
Qed.

Lemma deleteSource_outcome_witness :
  let client := createSegmentClient (mkTenantCredentials None (Some "tok") None None) in
  let response := {| status := 200; headers := []; body := "";
                     parsed := ParseFailure "Unexpected end of JSON input" |} in
  deleteSource (fun _ => Resolved response) client "abc" []
  = (Throw (SyntaxError "Unexpected end of JSON input"),
     [ {| req_url := "https://api.segmentapis.com/sources/abc";
          req_method := Some "DELETE";
          req_headers := [ ("Authorization", "Bearer tok");
                           ("Content-Type", "application/json") ];
          req_body := None |} ]).
Proof.
  intros client response.
  exact (proj1 (deleteSource_outcome client response "abc" [] eq_refl eq_refl)).
Defined.

(** ** Request bodies *)

Lemma serialize_written (gap indent : string) (props : list (string * value)) :
  serialize gap indent (Obj props) = serialize gap indent (Obj (filter written props)).
Proof.
  cbn [serialize]. do 2 f_equal.
  induction props as [| [k v] props IH]; [reflexivity |].
  cbn [flat_map filter]. unfold written at 1. cbn [snd fst].
  destruct v; cbn [flat_map serialize app]; rewrite IH; reflexivity.
Qed.

Lemma assignIfDefined_written (k : string) (x : value) (body : list (string * value)) :
  assignIfDefined k x body = (body ++ filter written [ (k, x) ])%list.
Proof. destruct x; cbn; rewrite ?app_nil_r; reflexivity. Qed.

Lemma updateDestinationFilter_log (transport : Request -> FetchOutcome)
  (this : SegmentClientImpl) (destinationId filterId : string)
  (title ifClause actions enabled description : value) (log : list Request) :
  present (accessToken (credentials this)) = true ->
  snd (updateDestinationFilter transport this destinationId filterId
         title ifClause actions enabled description log)
  = (log ++ [ publicCall this ("/destinations/" ++ destinationId ++ "/filters/" ++ filterId)
                {| init_method := Some "PATCH";
                   init_body :=
                     JSON_stringify
                       (Obj (filter written
                               [ ("title", title); ("if", ifClause); ("actions", actions);
                                 ("enabled", enabled); ("description", description) ]));
                   init_headers := None |} ])%list.
Proof.
  intros Ht. unfold updateDestinationFilter.
  rewrite !assignIfDefined_written. cbn [app].
  change [ ("title", title); ("if", ifClause); ("actions", actions);
           ("enabled", enabled); ("description", description) ]
    with ([ ("title", title) ] ++ [ ("if", ifClause) ] ++ [ ("actions", actions) ]
          ++ [ ("enabled", enabled) ] ++ [ ("description", description) ])%list.
  rewrite !filter_app, <- !app_assoc.
  match goal with
  | |- snd (nbind ?m ?k log) = _ =>
      assert (L : snd (nbind m k log) = snd (m log))
  end.
  { unfold nbind, lift.
    match goal with |- context [publicApiRequest ?t ?c ?e ?o log] =>
      destruct (publicApiRequest t c e o log) as [[v | t'] l] end; [| reflexivity].
    destruct (get v "data") as [d | t']; [| reflexivity]. cbn.
    destruct (get d "filter"); reflexivity. }
  rewrite L. now apply publicApiRequest_log.
Qed.

(** X16: an argument left [undefined] is never sent. The body of an
    identify call, of [updateSource] (an object literal handed to
    [JSON.stringify]) and of [updateDestinationFilter] (an object filled
    field by field) is in each case the compact JSON of exactly the fields
    whose argument was given, in declaration order. *)
Theorem undefined_arguments_not_sent (transport : Request -> FetchOutcome)
  (this : SegmentClientImpl) (log : list Request) :
  (present (writeKey (credentials this)) = true ->
   forall userId traits context anonymousId,
     List.map req_body
       (skipn (List.length log)
          (snd (identify transport this userId traits context anonymousId log)))
     = [ JSON_stringify
           (Obj (("type", Str "identify") :: ("userId", Str userId)
                 :: filter written [ ("traits", traits); ("context", context);
                                     ("anonymousId", anonymousId) ])) ])
  /\ (present (accessToken (credentials this)) = true ->
      (forall sourceId name enabled,
          List.map req_body
            (skipn (List.length log)
               (snd (updateSource transport this sourceId name enabled log)))
          = [ JSON_stringify
                (Obj (filter written [ ("name", name); ("enabled", enabled) ])) ])
      /\ (forall destinationId filterId title ifClause actions enabled description,
             List.map req_body
               (skipn (List.length log)
                  (snd (updateDestinationFilter transport this destinationId filterId
                          title ifClause actions enabled description log)))
             = [ JSON_stringify
                   (Obj (filter written
                           [ ("title", title); ("if", ifClause); ("actions", actions);
                             ("enabled", enabled); ("description", description) ])) ])).
Proof.
  assert (S : forall (l : list Request) (r : Request),
             skipn (List.length l) (l ++ [ r ])%list = [ r ]).
  { intros l r. induction l as [| x l IH]; [reflexivity | exact IH]. }
  split; [| split].
  - intros Hk userId traits context anonymousId. unfold identify.
    rewrite (trackingRequest_log transport this _ _ log Hk), S.
    cbn [List.map trackingCall req_body]. unfold JSON_stringify.
    now rewrite serialize_written.
  - intros sourceId name enabled.
    assert (L : snd (updateSource transport this sourceId name enabled log)
                = snd (publicApiRequest transport this ("/sources/" ++ sourceId)
                         {| init_method := Some "PATCH";
                            init_body := JSON_stringify (Obj [ ("name", name);
                                                               ("enabled", enabled) ]);
                            init_headers := None |} log)).
    { unfold updateSource, nbind, lift.
      match goal with |- context [publicApiRequest ?t ?c ?e ?o log] =>
        destruct (publicApiRequest t c e o log) as [[v | t'] l] end; [| reflexivity].
      destruct (get v "data") as [d | t']; [| reflexivity]. cbn.
      destruct (get d "source"); reflexivity. }
    rewrite L, (publicApiRequest_log transport this _ _ log H), S.
    cbn [List.map publicCall req_body init_body]. unfold JSON_stringify.
    now rewrite serialize_written.
  - intros. rewrite (updateDestinationFilter_log transport this _ _ _ _ _ _ _ log H), S.
    reflexivity.
Qed.

Lemma undefined_arguments_not_sent_witness :
  let client := createSegmentClient (mkTenantCredentials (Some "wk") (Some "tok") None None) in
  let transport := fun _ : Request => Rejected (mkNativeError "TypeError" "fetch failed" "") in
  List.map req_body (snd (updateSource transport client "abc" Undefined (Bool false) []))
  = [ Some ("{" ++ DQ ++ "enabled" ++ DQ ++ ":false}") ].
Proof.
  intros client transport.
  exact (proj1 (proj2 (undefined_arguments_not_sent transport client []) eq_refl)
           "abc" Undefined (Bool false)).
Defined.

(** ** Tables of the recognised kinds *)

Lemma succeeds_Ok {A : Type} (a : A) : succeeds (Ok a).
Proof. now exists a. Qed.

Lemma succeeds_bind {A B : Type} (r : Result A) (k : A -> Result B) :
  succeeds r -> (forall a, succeeds (k a)) -> succeeds (bind r k).
Proof. intros [a ->] Hk. apply Hk. Qed.

Lemma succeeds_ToString (v : value) : printable v = true -> succeeds (ToString v).
Proof. apply ToString_printable. Qed.

Lemma throwsConversion_Ok {A : Type} (a : A) : throwsConversion (Ok a).
Proof. intros t H. discriminate. Qed.

Lemma throwsConversion_bind {A B : Type} (r : Result A) (k : A -> Result B) :
  throwsConversion r -> (forall a, throwsConversion (k a)) -> throwsConversion (bind r k).
Proof.
  intros Hr Hk t. destruct r as [a | t']; cbn [bind].
  - apply Hk.
  - intros H. injection H as <-. now apply Hr.
Qed.

Lemma throwsConversion_ToString (v : value) : throwsConversion (ToString v).
Proof. intros t. apply ToString_throws. Qed.

Lemma printable_property (props : list (string * value)) (k : string) :
  Forall (fun kv => printable (snd kv) = true) props ->
  printable (property k props) = true.
Proof.
  intros H. unfold property.
  induction H as [| [n v] props Hv _ IH]; cbn [lookup]; [reflexivity |].
  destruct (n =? k); [exact Hv | exact IH].
Qed.

Lemma printable_members (props : list (string * value)) :
  printable (Obj props) = true ->
  Forall (fun kv => printable (snd kv) = true) props.
Proof.
  cbn [printable]. destruct (lookup "toString" props); [discriminate |].
  intros H. apply Forall_forall. intros kv Hin.
  rewrite forallb_forall in H. now apply H.
Qed.

Lemma printable_nth (items : list value) (i : nat) :
  forallb printable items = true -> printable (nth i items Undefined) = true.
Proof.
  revert i. induction items as [| x items IH]; intros i H; [destruct i; reflexivity |].
  cbn [forallb] in H. apply andb_true_iff in H. destruct H as [Hx Hi].
  destruct i; [exact Hx | now apply IH].
Qed.

Lemma printable_field (v : value) (k : string) :
  printable v = true -> printable (field v k) = true.
Proof.
  intros H. unfold field, getOpt.
  destruct v; cbn [isNullish get own]; try reflexivity.
  - destruct (k =? "length"); [reflexivity |].
    destruct (findIndex k _ 0); reflexivity.
  - destruct (k =? "length"); [reflexivity |].
    destruct (findIndex k _ 0); [| reflexivity]. now apply printable_nth.
  - now apply printable_property, printable_members.
Qed.

Lemma printable_or_else (v : value) (d : string) :
  printable v = true -> printable (or_else v (Str d)) = true.
Proof. intros H. unfold or_else. destruct (truthy v); [exact H | reflexivity]. Qed.

Lemma mapM_succeeds {A B C : Type} (f : B -> Result C) (h : A -> B) (l : list A) :
  Forall (fun a => succeeds (f (h a))) l ->
  exists cs, mapM f (map h l) = Ok cs /\ List.length cs = List.length l.
Proof.
  induction 1 as [| a l [c Hc] _ (cs & E & L)]; cbn [map mapM].
  - exists []. now split.
  - rewrite Hc, E. cbn [bind]. exists (c :: cs). cbn. now rewrite L.
Qed.

Lemma mapM_throws {A B : Type} (f : A -> Result B) (l : list A) (a : A) :
  In a l -> (exists t, f a = Throw t) -> exists t, mapM f l = Throw t.
Proof.
  intros Hin [t Ht]. induction l as [| x l IH]; [contradiction |].
  cbn [mapM]. destruct Hin as [-> | Hin].
  - rewrite Ht. now exists t.
  - destruct (f x) as [b | t']; [| now exists t']. cbn [bind].
    destruct (IH Hin) as [t' E]. rewrite E. now exists t'.
Qed.

Ltac split_kind k s := destruct (String.eqb_spec k s) as [-> | ?].

Ltac by_kind k :=
  split_kind k "sources";
  [| split_kind k "destinations";
     [| split_kind k "warehouses";
        [| split_kind k "tracking-plans";
           [| split_kind k "functions";
              [| split_kind k "audiences";
                 [| split_kind k "computed-traits";
                    [| split_kind k "transformations" ]]]]]]];
  unfold tableOf, headerOf, separatorOf;
  cbn [String.eqb Ascii.eqb Bool.eqb orb].

Ltac unrecognised Hk :=
  exfalso;
  repeat match goal with
         | H : _ <> _ |- _ => apply String.eqb_neq in H; rewrite H in Hk; clear H
         end;
  cbn in Hk; discriminate.

Ltac unfold_tables :=
  unfold formatSourcesTable, formatDestinationsTable, formatWarehousesTable,
    formatTrackingPlansTable, formatFunctionsTable, formatAudiencesTable,
    formatComputedTraitsTable, formatTransformationsTable.

(** The cells of a row of an object, opened. *)
Ltac open_row :=
  unfold cellOf, cellOr, metadataName, enabledCell;
  rewrite ?get_Obj; cbn [bind]; rewrite ?getOpt_field; cbn [bind].

Ltac row_succeeds :=
  repeat first
    [ apply succeeds_Ok
    | apply succeeds_ToString;
      first [ now apply printable_property
            | now apply printable_or_else, printable_property
            | now apply printable_or_else, printable_field, printable_property ]
    | apply succeeds_bind; [| intros ?] ].

Ltac row_conversion :=
  repeat first
    [ apply throwsConversion_Ok
    | apply throwsConversion_ToString
    | apply throwsConversion_bind; [| intros ?] ].

Ltac table_rows objs Hp :=
  match goal with
  | |- exists rows, bind (mapM ?f (map Obj objs)) _ = _ /\ _ =>
      let H := fresh in
      assert (H : Forall (fun props => succeeds (f (Obj props))) objs)
        by (eapply Forall_impl; [| exact Hp];
            intros props ?; cbv beta; open_row; row_succeeds);
      destruct (mapM_succeeds f Obj objs H) as (rows & E & L);
      exists rows; rewrite E; cbn [bind]; split; [reflexivity | exact L]
  end.

Lemma tableOf_objects (entityType : string) (objs : list (list (string * value))) :
  recognised entityType = true ->
  Forall (fun props => Forall (fun kv => printable (snd kv) = true) props) objs ->
  exists rows,
    tableOf entityType (map Obj objs)
    = Ok (join LF (headerOf entityType :: separatorOf entityType :: rows))
    /\ List.length rows = List.length objs.
Proof.
  intros Hk Hp. unfold recognised in Hk. cbn [existsb] in Hk.
  by_kind entityType; try (unfold_tables; table_rows objs Hp).
  unrecognised Hk.
Qed.

Ltac table_conversion objs :=
  match goal with
  | |- throwsConversion (bind (mapM ?f (map Obj objs)) _) =>
      apply throwsConversion_bind; [| intros ?; apply throwsConversion_Ok];
      unfold throwsConversion at 1;
      apply (mapM_Forall_throws f (map Obj objs) (fun t => t = notConvertible));
      apply Forall_forall; intros x Hx; apply in_map_iff in Hx;
      destruct Hx as (props & <- & _);
      change (throwsConversion (f (Obj props))); cbv beta;
      open_row; row_conversion
  end.

Lemma tableOf_conversion (entityType : string) (objs : list (list (string * value))) :
  recognised entityType = true ->
  throwsConversion (tableOf entityType (map Obj objs)).
Proof.
  intros Hk. unfold recognised in Hk. cbn [existsb] in Hk.
  by_kind entityType; try (unfold_tables; table_conversion objs).
  unrecognised Hk.
Qed.

Lemma tableOf_shape (entityType : string) (items : list value) (table : string) :
  recognised entityType = true ->
  tableOf entityType items = Ok table ->
  exists rows,
    table = join LF (headerOf entityType :: separatorOf entityType :: rows)
    /\ List.length rows = List.length items.
Proof.
  intros Hk. unfold recognised in Hk. cbn [existsb] in Hk.
  by_kind entityType;
    try (unfold_tables;
         match goal with
         | |- bind (mapM ?f items) _ = _ -> _ =>
             destruct (mapM f items) as [rows | t] eqn:E; cbn [bind]; [| discriminate];
             intros H; injection H as <-; exists rows; split; [reflexivity |];
             exact (mapM_length _ _ _ E)
         end).
  unrecognised Hk.
Qed.

(** X17: the table of a recognised resource kind on a list of objects is
    the kind's header line, its separator line and one row per item,
    whatever members the objects have or lack, provided the values they
    hold can be converted to strings: no object among them, at any depth,
    has a member named [toString]. Without that proviso the table may
    throw, and then throws the [TypeError] of the failed conversion and
    nothing else; whenever it returns, on any list, its text has that
    shape. *)
Theorem recognised_table_rows (entityType : string)
  (objs : list (list (string * value))) :
  recognised entityType = true ->
  (Forall (fun props => Forall (fun kv => printable (snd kv) = true) props) objs ->
   exists rows,
     tableOf entityType (map Obj objs)
     = Ok (join LF (headerOf entityType :: separatorOf entityType :: rows))
     /\ List.length rows = List.length objs)
  /\ (forall t, tableOf entityType (map Obj objs) = Throw t -> t = notConvertible)
  /\ (forall items table,
         tableOf entityType items = Ok table ->
         exists rows,
           table = join LF (headerOf entityType :: separatorOf entityType :: rows)
           /\ List.length rows = List.length items).
Proof.
  intros Hk. split; [| split].
  - now apply tableOf_objects.
  - now apply tableOf_conversion.
  - intros items table. now apply tableOf_shape.
Qed.

Lemma recognised_table_rows_witness :
  (exists rows,
     formatDestinationsTable
       [ Obj [ ("id", Str "d1"); ("name", Str "Webhook"); ("enabled", Bool false) ];
         Obj [ ("id", Str "d2"); ("metadata", Obj [ ("name", Str "Slack") ]) ] ]
     = Ok (join LF ("| ID | Name | Type | Enabled |" :: "|---|---|---|---|" :: rows))
     /\ List.length rows = 2%nat)
  /\ formatSourcesTable [ Obj [ ("id", Obj [ ("toString", Num (Int 1)) ]) ] ]
     = Throw notConvertible.
Proof.
  split.
  - refine (proj1 (recognised_table_rows "destinations"
                     [ [ ("id", Str "d1"); ("name", Str "Webhook"); ("enabled", Bool false) ];
                       [ ("id", Str "d2"); ("metadata", Obj [ ("name", Str "Slack") ]) ] ]
                     eq_refl) _).
    repeat constructor.
  - reflexivity.
Defined.

(** X18: a paginated collection holding at least one item renders as the
    heading, a blank line, the summary line, the more-available line when
    there is a next cursor, a blank line and the table of its resource
    kind. The count shown is the number of items in the page; the total is
    printed as the server gave it, converted to a string, without comparing
    the two. The total is converted first, then the cursor, then the table
    is made: the rendering throws what the first of these to throw does.
    The heading is as the embedding has it for a resource kind whose first
    character has its upper case among the code units carried. *)
Theorem page_rendering (props : list (string * value)) (entityType : string)
  (item : value) (items : list value) :
  lookup "data" props = Some (Arr (item :: items)) ->
  headMapped entityType = true ->
  let n := S (List.length items) in
  let pagination := property "pagination" props in
  let total := field pagination "totalEntries" in
  let next := field pagination "next" in
  let heading := "## " ++ capitalized entityType in
  (forall t c table,
      ToString total = Ok t -> ToString next = Ok c ->
      tableOf entityType (item :: items) = Ok table ->
      formatAsMarkdown (Obj props) entityType
      = Ok (join LF (heading :: "" :: pageSummary total t n
                     :: moreLines next c ++ [ ""; table ])%list))
  /\ (forall t c e,
         ToString total = Ok t -> ToString next = Ok c ->
         tableOf entityType (item :: items) = Throw e ->
         formatAsMarkdown (Obj props) entityType = Throw e)
  /\ (forall e, ToString total = Throw e ->
                formatAsMarkdown (Obj props) entityType = Throw e)
  /\ (forall t e, ToString total = Ok t -> ToString next = Throw e ->
                  formatAsMarkdown (Obj props) entityType = Throw e)
  /\ (forall t,
         let shown := Number_toString (Int (Z.of_nat n)) in
         pageSummary total t n
         = match total with
           | Undefined => "**Showing:** " ++ shown
           | _ => "**Total:** " ++ t ++ " | **Showing:** " ++ shown
           end)
  /\ ((Z.of_nat n < two53)%Z ->
      Number_toString (Int (Z.of_nat n)) = decimal (Z.of_nat n))
  /\ (scalar total = true -> ToString total = Ok (scalarText total))
  /\ (truthy next = false -> forall c c', moreLines next c = moreLines next c').
Proof.
  intros Hdata _ n pagination total next heading.
  pose proof (paginated_unfold props entityType _ Hdata) as U. cbv zeta in U.
  fold pagination in U. fold total next in U.
  split; [| split; [| split; [| split; [| split; [| split; [| split]]]]]].
  - intros t c table Ht Hc Htable. rewrite U, Ht, Hc. cbn [bind]. rewrite Htable.
    cbn [bind]. unfold pagePreamble. cbn [app List.length]. now rewrite <- app_assoc.
  - intros t c e Ht Hc Htable. rewrite U, Ht, Hc. cbn [bind]. now rewrite Htable.
  - intros e Ht. now rewrite U, Ht.
  - intros t e Ht Hc. rewrite U, Ht. cbn [bind]. now rewrite Hc.
  - intros t. reflexivity.
  - apply Number_toString_length.
  - apply ToString_scalar.
  - intros Hn c c'. unfold moreLines. now rewrite Hn.
Qed.

Lemma page_rendering_witness :
  let props := [ ("data", Arr [ Obj [ ("id", Str "s1"); ("name", Str "Web");
                                      ("slug", Str "web"); ("enabled", Bool true) ] ]);
                 ("pagination", Obj [ ("totalEntries", Num (Int 40));
                                      ("next", Str "MQ==") ]) ] in
  formatAsMarkdown (Obj props) "sources"
  = Ok (join LF [ "## Sources"; "";
                  "**Total:** 40 | **Showing:** 1";
                  "**More available:** Yes (cursor: `MQ==`)"; "";
                  join LF [ "| ID | Name | Slug | Enabled |"; "|---|---|---|---|";
                            "| s1 | Web | web | Yes |" ] ]).
Proof.
  intros props.
  exact (proj1 (page_rendering props "sources" _ [] eq_refl eq_refl)
           _ _ _ eq_refl eq_refl eq_refl).
Defined.

(** ** What the renderer throws *)

Lemma throwsNative_Object_keys (v : value) : throwsNative (Object_keys v).
Proof. destruct v; cbn [Object_keys]; try apply throwsNative_Ok; apply throwsNative_TypeError. Qed.

Lemma throwsNative_Object_entries (v : value) : throwsNative (Object_entries v).
Proof.
  destruct v; cbn [Object_entries]; try apply throwsNative_Ok; apply throwsNative_TypeError.
Qed.

Ltac native_steps :=
  repeat first
    [ apply throwsNative_Ok
    | apply throwsNative_ToString
    | apply throwsNative_get
    | apply throwsNative_getOpt
    | apply throwsNative_read
    | apply throwsNative_memberString
    | apply throwsNative_Object_keys
    | apply throwsNative_Object_entries
    | apply throwsNative_mapM; intros ?
    | apply throwsNative_bind; [| intros ?] ].

Lemma throwsNative_tables (items : list value) :
  throwsNative (formatSourcesTable items)
  /\ throwsNative (formatDestinationsTable items)
  /\ throwsNative (formatWarehousesTable items)
  /\ throwsNative (formatTrackingPlansTable items)
  /\ throwsNative (formatFunctionsTable items)
  /\ throwsNative (formatAudiencesTable items)
  /\ throwsNative (formatComputedTraitsTable items)
  /\ throwsNative (formatTransformationsTable items).
Proof.
  repeat split; unfold_tables; unfold cellOf, cellOr, metadataName, enabledCell;
    native_steps.
Qed.

Lemma throwsNative_formatGenericTable (items : list value) :
  throwsNative (formatGenericTable items).
Proof.
  unfold formatGenericTable. destruct items as [| first rest]; native_steps.
Qed.

Lemma throwsNative_tableOf (entityType : string) (items : list value) :
  throwsNative (tableOf entityType items).
Proof.
  destruct (throwsNative_tables items) as (A & B & C & D & E & F & G & H).
  unfold tableOf.
  repeat match goal with
         | |- throwsNative (if ?b then _ else _) => destruct b; [assumption |]
         end.
  apply throwsNative_formatGenericTable.
Qed.

(** Every error the Markdown renderer throws is one the engine raised. *)
Lemma throwsNative_formatAsMarkdown (data : value) (entityType : string) :
  throwsNative (formatAsMarkdown data entityType).
Proof.
  unfold formatAsMarkdown. destruct (isPaginatedResponse data).
  - unfold formatPaginatedAsMarkdown.
    apply throwsNative_bind; [apply throwsNative_get | intros items].
    apply throwsNative_bind; [apply throwsNative_get | intros count].
    apply throwsNative_bind; [apply throwsNative_get | intros pagination].
    apply throwsNative_bind; [apply throwsNative_getOpt | intros total].
    apply throwsNative_bind; [destruct total; native_steps | intros summary].
    apply throwsNative_bind; [apply throwsNative_getOpt | intros next].
    apply throwsNative_bind; [destruct (truthy next); native_steps | intros more].
    assert (T : forall k : string -> Result string,
               (forall table, throwsNative (k table)) ->
               throwsNative (bind (tableOf entityType (elements items)) k)).
    { intros k Hk. apply throwsNative_bind; [apply throwsNative_tableOf | exact Hk]. }
    unfold tableOf in T.
    destruct count as [| | b | [| neg | [| p | p]] | s | l | o];
      first [ apply throwsNative_Ok | apply T; intros table; apply throwsNative_Ok ].
  - destruct data; cbn [typeofObject isNullish negb andb];
      try apply throwsNative_ToString.
    + apply throwsNative_formatGenericTable.
    + unfold formatObjectAsMarkdown, entryLines. native_steps.
      destruct a0 as [key v]. destruct (isNullish v); [apply throwsNative_Ok |].
      destruct (typeofObject v); native_steps.
Qed.

(** X19: one item that is [null] (or [undefined]) in a page of a recognised
    kind makes the Markdown rendering throw an error of the engine: a tool
    that received the page successfully then returns an error result in
    Markdown mode, while JSON mode still prints the page. *)
Theorem null_item_breaks_markdown (props : list (string * value)) (entityType : string)
  (items : list value) :
  recognised entityType = true ->
  lookup "data" props = Some (Arr items) ->
  In Null items \/ In Undefined items ->
  (exists t, formatAsMarkdown (Obj props) entityType = Throw t)
  /\ (forall (op : Net value) log log',
         op log = (Ok (Obj props), log') ->
         (exists r,
             fst (handler op (fun r => formatResponse r markdown entityType) log) = Ok r
             /\ isError r = Some true)
         /\ fst (handler op (fun r => formatResponse r json entityType) log)
            = Ok {| content := [ {| type := "text"; text := JSON_stringify_2 (Obj props) |} ];
                    isError := None |}).
Proof.
  intros Hk Hdata Hin.
  assert (T : exists t, tableOf entityType items = Throw t).
  { unfold recognised in Hk. cbn [existsb] in Hk.
    assert (N : exists a, In a items /\ (a = Null \/ a = Undefined)).
    { destruct Hin as [H | H]; eexists; split; eauto. }
    destruct N as (a & Ha & Hnull).
    by_kind entityType;
      try (unfold_tables;
           match goal with
           | |- exists t, bind (mapM ?f items) _ = _ =>
               destruct (mapM_throws f items a Ha) as [t E];
               [ destruct Hnull as [-> | ->]; eexists; reflexivity
               | rewrite E; now exists t ]
           end).
    unrecognised Hk. }
  destruct T as [t Ht].
  assert (F : exists t', formatAsMarkdown (Obj props) entityType = Throw t').
  { rewrite (paginated_unfold props entityType items Hdata). cbv zeta.
    destruct (ToString (field (property "pagination" props) "totalEntries"));
      [| eexists; reflexivity]. cbn [bind].
    destruct (ToString (field (property "pagination" props) "next"));
      [| eexists; reflexivity]. cbn [bind].
    destruct items as [| item items]; [destruct Hin as [[] | []] |].
    rewrite Ht. eexists. reflexivity. }
  destruct F as [t' F].
  split; [now exists t' |].
  intros op log log' Hop. unfold handler, formatResponse. rewrite Hop, F. cbn [bind fst].
  split; [| reflexivity].
  destruct (throwsNative_formatAsMarkdown (Obj props) entityType t' F) as [e ->].
  apply formatError_native.
Qed.

Lemma null_item_breaks_markdown_witness :
  let props := [ ("data", Arr [ Obj [ ("id", Str "s1") ]; Null ]) ] in
  formatAsMarkdown (Obj props) "sources"
  = Throw (TypeError "Cannot read properties of null (reading 'id')").
Proof.
  intros props.
  destruct (proj1 (null_item_breaks_markdown props "sources" _ eq_refl eq_refl
                     (or_introl (or_intror (or_introl eq_refl))))) as [t Ht].
  rewrite Ht. vm_compute in Ht. now injection Ht as <-.
Defined.

(** ** More on the generic table *)

(** X20: in the generic table, only the first item decides the columns: the
    rendering of later rows depends on nothing but their values at the
    first item's first five keys, so a member a later item has under
    another key is never shown. *)
Theorem generic_table_shows_only_columns (first : list (string * value))
  (rest rest' : list (list (string * value))) :
  Forall2 (fun a b => forall k, In k (columns first) -> lookup k a = lookup k b)
          rest rest' ->
  formatGenericTable (map Obj (first :: rest))
  = formatGenericTable (map Obj (first :: rest')).
Proof.
  intros H. rewrite !formatGenericTable_objects. unfold genericTable.
  set (line := fun props : list (string * value) =>
                 bind (mapM (cell props) (columns first)) (fun cells => Ok (row cells))).
  assert (E : mapM line rest = mapM line rest').
  { induction H as [| a b l l' Hab _ IH]; [reflexivity |].
    cbn [mapM]. rewrite IH. f_equal. unfold line. f_equal.
    apply mapM_ext. intros k Hk. unfold cell. now rewrite (Hab k Hk). }
  cbn [mapM]. now rewrite E.
Qed.

Lemma generic_table_shows_only_columns_witness :
  formatGenericTable (map Obj [ [ ("id", Str "1") ];
                                [ ("id", Str "2"); ("secret", Str "s3cr3t") ] ])
  = formatGenericTable (map Obj [ [ ("id", Str "1") ]; [ ("id", Str "2") ] ]).
Proof.
  apply (generic_table_shows_only_columns [ ("id", Str "1") ]
           [ [ ("id", Str "2"); ("secret", Str "s3cr3t") ] ] [ [ ("id", Str "2") ] ]).
  repeat constructor. intros k [<- | []]. reflexivity.
Defined.

(** X21: the edges of the generic table. An empty list renders as the line
    [_No items_], under any resource kind. A first item that is [null] or
    [undefined] makes it throw, whatever follows. A first item without keys
    gives a table without columns, whose rows read nothing from the items:
    it then succeeds even on items that are [null]. *)
Theorem generic_table_edges (rest : list value) (entityType : string) :
  formatAsMarkdown (Arr []) entityType = Ok "_No items_"
  /\ formatGenericTable (Null :: rest)
     = Throw (TypeError "Cannot convert undefined or null to object")
  /\ formatGenericTable (Undefined :: rest)
     = Throw (TypeError "Cannot convert undefined or null to object")
  /\ formatGenericTable (Obj [] :: rest)
     = Ok (join LF ("|  |" :: "||" :: map (fun _ => "|  |") (Obj [] :: rest))).
Proof.
  split; [unfold formatAsMarkdown; now rewrite isPaginatedResponse_Arr |].
  split; [reflexivity | split; [reflexivity |]].
  unfold formatGenericTable. cbn [Object_keys bind firstn map].
  rewrite (mapM_total_map _ (fun _ => "|  |")); [reflexivity |].
  intros a. reflexivity.
Qed.

(** ** JSON mode *)

Lemma serialize_none (gap indent : string) (v : value) :
  serialize gap indent v = None <-> v = Undefined.
Proof.
  destruct v as [| | b | n | s | items | props]; cbn [serialize];
    split; intros H; try discriminate; reflexivity.
Qed.

(** X22: in JSON mode [formatResponse] never throws and does not look at the
    resource kind; its text is missing exactly when the data is
    [undefined]. So a list operation answered with 204 gives, through its
    tool, a result without text in JSON mode, and the text [undefined] in
    Markdown mode, once its query string was built. *)
Theorem json_mode_text (data : value) (entityType : string) :
  formatResponse data json entityType
  = Ok {| content := [ {| type := "text"; text := JSON_stringify_2 data |} ];
          isError := None |}
  /\ (JSON_stringify_2 data = None <-> data = Undefined)
  /\ (forall (this : SegmentClientImpl) (response : Response) count cursor log qs,
         present (accessToken (credentials this)) = true ->
         status response = 204%Z ->
         buildQueryString (Some [ ("count", count); ("cursor", cursor) ]) = Ok qs ->
         let transport := fun _ : Request => Resolved response in
         fst (segment_list_sources transport this count cursor json log)
         = Ok (textResult None)
         /\ fst (segment_list_sources transport this count cursor markdown log)
            = Ok (textResult (Some "undefined")))
  /\ (forall count cursor,
         scalar count = true \/ isNullish count = true ->
         scalar cursor = true \/ isNullish cursor = true ->
         exists qs, buildQueryString (Some [ ("count", count); ("cursor", cursor) ]) = Ok qs).
Proof.
  split; [reflexivity | split; [apply serialize_none | split]].
  - intros this response count cursor log qs Ht Hs Hq transport.
    assert (Hok : ok response = true) by (unfold ok; rewrite Hs; reflexivity).
    unfold segment_list_sources, handler, listSources, nbind, lift, transport.
    rewrite Hq.
    rewrite (publicApiRequest_2xx this response _ noInit log Ht Hok), Hs.
    split; reflexivity.
  - intros count cursor Hcount Hcursor.
    destruct count; cbn in Hcount; destruct Hcount as [Hcount | Hcount];
      try discriminate Hcount;
      destruct cursor; cbn in Hcursor; destruct Hcursor as [Hcursor | Hcursor];
      try discriminate Hcursor; eexists; reflexivity.
Qed.

Lemma json_mode_text_witness :
  let client := createSegmentClient (mkTenantCredentials None (Some "tok") None None) in
  let response := {| status := 204; headers := []; body := "";
                     parsed := ParseFailure "Unexpected end of JSON input" |} in
  fst (segment_list_sources (fun _ => Resolved response) client
         (Num (Int 20)) Undefined json []) = Ok (textResult None).
Proof.
  intros client response.
  exact (proj1 (proj1 (proj2 (proj2 (json_mode_text Undefined "sources")))
                  client response (Num (Int 20)) Undefined [] _ eq_refl eq_refl eq_refl)).
Defined.

(** ** Separators of the query string *)

Lemma occurrences_app (c : ascii) (a b : string) :
  occurrences c (a ++ b) = (occurrences c a + occurrences c b)%nat.
Proof. induction a as [| x a IH]; cbn; [reflexivity | rewrite IH; lia]. Qed.

Lemma urlencodeUnit_clean (x : ascii) :
  occurrences "&" (urlencodeUnit x) = 0%nat
  /\ occurrences "=" (urlencodeUnit x) = 0%nat
  /\ occurrences "?" (urlencodeUnit x) = 0%nat
  /\ occurrences "#" (urlencodeUnit x) = 0%nat
  /\ occurrences " " (urlencodeUnit x) = 0%nat.
Proof. destruct x as [[] [] [] [] [] [] [] []]; vm_compute; repeat split. Qed.

Lemma urlencode_clean (s : string) :
  occurrences "&" (urlencode s) = 0%nat
  /\ occurrences "=" (urlencode s) = 0%nat
  /\ occurrences "?" (urlencode s) = 0%nat
  /\ occurrences "#" (urlencode s) = 0%nat
  /\ occurrences " " (urlencode s) = 0%nat.
Proof.
  induction s as [| x s (A & B & C & D & E)]; [repeat split |].
  cbn [urlencode]. rewrite !occurrences_app, A, B, C, D, E.
  destruct (urlencodeUnit_clean x) as (A' & B' & C' & D' & E').
  now rewrite A', B', C', D', E'.
Qed.

Lemma pairs_separators (l : list (string * string)) :
  occurrences "=" (join "&" (map pair l)) = List.length l
  /\ occurrences "&" (join "&" (map pair l)) = Nat.pred (List.length l)
  /\ occurrences "?" (join "&" (map pair l)) = 0%nat
  /\ occurrences "#" (join "&" (map pair l)) = 0%nat
  /\ occurrences " " (join "&" (map pair l)) = 0%nat.
Proof.
  assert (P : forall nv, occurrences "=" (pair nv) = 1%nat
                         /\ occurrences "&" (pair nv) = 0%nat
                         /\ occurrences "?" (pair nv) = 0%nat
                         /\ occurrences "#" (pair nv) = 0%nat
                         /\ occurrences " " (pair nv) = 0%nat).
  { intros nv. unfold pair. rewrite !occurrences_app.
    destruct (urlencode_clean (fst nv)) as (A & B & C & D & E).
    destruct (urlencode_clean (snd nv)) as (A' & B' & C' & D' & E').
    rewrite A, B, C, D, E, A', B', C', D', E'. repeat split. }
  induction l as [| nv l (A & B & C & D & E)]; [repeat split |].
  destruct (P nv) as (A' & B' & C' & D' & E').
  cbn [map join String.concat List.length Nat.pred].
  destruct l as [| nv' l].
  - cbn [map]. rewrite A', B', C', D', E'. repeat split.
  - cbn [map] in *. unfold join in *. rewrite !occurrences_app, A, B, C, D, E.
    rewrite A', B', C', D', E'. cbn. repeat split.
Qed.

(** X23: names and values cannot add separators to the query string. With
    [n] entries kept, [n] at least one, the string built has one question
    mark, at its head, [n] equals signs, [n - 1] ampersands, and no hash
    sign or space: whatever a name or a value contains is percent-encoded
    (a space becomes a plus sign). *)
Theorem query_string_separators (entries : list (string * value)) (qs : string) :
  NoDup (map fst entries) ->
  buildQueryString (Some entries) = Ok qs ->
  let n := List.length (kept entries) in
  (n <> 0%nat -> prefix "?" qs = true /\ occurrences "?" qs = 1%nat)
  /\ occurrences "=" qs = n
  /\ occurrences "&" qs = Nat.pred n
  /\ occurrences "#" qs = 0%nat
  /\ occurrences " " qs = 0%nat.
Proof.
  intros Hnd Hq n. subst n.
  rewrite (buildQueryString_entries entries Hnd) in Hq.
  destruct (mapM stringified (kept entries)) as [pairs | t] eqn:M; cbn [bind] in Hq;
    [| discriminate].
  injection Hq as <-.
  rewrite <- (mapM_length _ _ _ M). unfold queryString.
  destruct pairs as [| nv l].
  - split; [intros H0; now elim H0 | repeat split].
  - destruct (pairs_separators (nv :: l)) as (A & B & C & D & E).
    set (X := join "&" (map pair (nv :: l))) in *.
    rewrite !occurrences_app, A, B, C, D, E.
    split; [intros _; split; [destruct X |]; reflexivity | repeat split].
Qed.

Lemma query_string_separators_witness :
  let entries := [ ("cursor", Str "a&admin=1#x y?"); ("count", Num (Int 5)) ] in
  buildQueryString (Some entries) = Ok "?cursor=a%26admin%3D1%23x+y%3F&count=5"
  /\ occurrences "&" "?cursor=a%26admin%3D1%23x+y%3F&count=5" = 1%nat.
Proof.
  intros entries. split; [reflexivity |].
  refine (proj1 (proj2 (proj2 (query_string_separators entries _ _ eq_refl)))).
  repeat constructor; cbn; intuition discriminate.
Defined.

(** ** Retry-After as an integer, base URL overrides *)

(** X24: for a 429 response whose Retry-After header (looked up whatever the
    case of its name) holds the decimal numeral of an integer, both
    surfaces throw the RateLimited error carrying the Number nearest to
    that integer, which is the integer itself when its magnitude is below
    2^53; a negative numeral is accepted as it is. *)
Theorem rate_limit_integer_header (this : SegmentClientImpl) (response : Response)
  (n : Z) (log : list Request) :
  status response = 429%Z ->
  Headers_get "Retry-After" (headers response) = Some (decimal n) ->
  let transport := fun _ : Request => Resolved response in
  let error :=
    ThrownApi {| name := "RateLimitError"; message := "Rate limit exceeded";
                 statusCode := Some (Int 429); code := "RATE_LIMIT_EXCEEDED";
                 retryable := true; subclass := RateLimit (toNumber n) |} in
  (present (writeKey (credentials this)) = true ->
   forall endpoint payload,
     fst (trackingRequest transport this endpoint payload log) = Throw error)
  /\ (present (accessToken (credentials this)) = true ->
      forall endpoint options,
        fst (publicApiRequest transport this endpoint options log) = Throw error)
  /\ ((Z.abs n < two53)%Z -> toNumber n = Int n).
Proof.
  intros Hs Hh transport error. split; [| split].
  - intros Hk endpoint payload. open_request. unfold transport.
    rewrite Hk, Hs, Hh. cbn [negb]. cbn [Z.eqb Pos.eqb fst].
    now rewrite (proj1 (retryAfterSeconds_integer n)).
  - intros Ht endpoint options. open_request. unfold transport.
    rewrite Ht, Hs, Hh. cbn [negb]. cbn [Z.eqb Pos.eqb fst].
    now rewrite (proj1 (retryAfterSeconds_integer n)).
  - apply toNumber_small.
Qed.

Lemma rate_limit_integer_header_witness :
  let client := createSegmentClient (mkTenantCredentials None (Some "tok") None None) in
  let response := {| status := 429; headers := [ ("retry-after", "-5") ]; body := "";
                     parsed := ParseFailure "Unexpected end of JSON input" |} in
  fst (publicApiRequest (fun _ => Resolved response) client "/sources" noInit [])
  = Throw (ThrownApi (new_RateLimitError "Rate limit exceeded" (Int (-5)))).
Proof.
  intros client response.
  exact (proj1 (proj2 (rate_limit_integer_header client response (-5) [] eq_refl eq_refl))
           eq_refl "/sources" noInit).
Defined.
Lemma headerOrUndefined_value (name : string) (h : HeaderList) (u : string) :
  Headers_get name h = Some u -> u <> "" -> headerOrUndefined name h = Some u.
Proof.
  intros H Hu. unfold headerOrUndefined. rewrite H.
  apply String.eqb_neq in Hu. now rewrite Hu.
Qed.

(** X25: the base URL of each surface is taken from the tenant's request
    headers when they name one: a client made from the parsed credentials
    sends its public requests, bearer token included, to the URL of the
    X-Segment-API-URL header followed by the endpoint, and its tracking
    requests to the URL of the X-Segment-Tracking-URL header; without the
    header (or with an empty one) the built-in URL of the surface is
    used. *)
Theorem base_url_from_headers (h : HeaderList) :
  let this := createSegmentClient (parseTenantCredentials h) in
  (forall u token,
      Headers_get "X-Segment-API-URL" h = Some u -> u <> "" ->
      Headers_get "X-Segment-Access-Token" h = Some token -> token <> "" ->
      forall transport endpoint log,
        let sent := {| req_url := u ++ endpoint;
                       req_method := None;
                       req_headers := [ ("Authorization", "Bearer " ++ token);
                                        ("Content-Type", "application/json") ];
                       req_body := None |} in
        snd (publicApiRequest transport this endpoint noInit log)
        = (log ++ [ sent ])%list)
  /\ (forall u key,
         Headers_get "X-Segment-Tracking-URL" h = Some u -> u <> "" ->
         Headers_get "X-Segment-Write-Key" h = Some key -> key <> "" ->
         forall transport endpoint payload log,
           let url := u ++ endpoint in
           List.map req_url (snd (trackingRequest transport this endpoint payload log))
           = (List.map req_url log ++ [ url ])%list)
  /\ (headerOrUndefined "X-Segment-API-URL" h = None ->
      this_publicApiBaseUrl this = PUBLIC_API_BASE_URL)
  /\ (headerOrUndefined "X-Segment-Tracking-URL" h = None ->
      this_trackingBaseUrl this = TRACKING_API_BASE_URL).
Proof.
  intros this. split; [| split; [| split]].
  - intros u token Hu Hne Ht Htne transport endpoint log sent. subst sent.
    assert (P : present (accessToken (credentials this)) = true).
    { subst this. cbn [createSegmentClient credentials parseTenantCredentials accessToken].
      apply headerOrUndefined_present. now exists token. }
    rewrite (publicApiRequest_log transport this endpoint noInit log P).
    unfold publicCall, this.
    cbn [createSegmentClient credentials parseTenantCredentials accessToken
           this_publicApiBaseUrl publicApiBaseUrl noInit init_headers init_method
           init_body spread fold_left].
    rewrite (headerOrUndefined_value _ h u Hu Hne),
      (headerOrUndefined_value _ h token Ht Htne).
    cbn [orDefault interpolate]. apply String.eqb_neq in Hne. now rewrite Hne.
  - intros u key Hu Hne Hk Hkne transport endpoint payload log url. subst url.
    assert (P : present (writeKey (credentials this)) = true).
    { subst this. cbn [createSegmentClient credentials parseTenantCredentials writeKey].
      apply headerOrUndefined_present. now exists key. }
    rewrite (trackingRequest_log transport this endpoint payload log P), map_app.
    cbn [List.map trackingCall req_url]. unfold this.
    cbn [createSegmentClient this_trackingBaseUrl parseTenantCredentials trackingBaseUrl].
    rewrite (headerOrUndefined_value _ h u Hu Hne).
    cbn [orDefault]. apply String.eqb_neq in Hne. now rewrite Hne.
  - intros H. unfold this.
    cbn [createSegmentClient this_publicApiBaseUrl parseTenantCredentials publicApiBaseUrl].
    now rewrite H.
  - intros H. unfold this.
    cbn [createSegmentClient this_trackingBaseUrl parseTenantCredentials trackingBaseUrl].
    now rewrite H.
Qed.

Lemma base_url_from_headers_witness :
  let h := [ ("x-segment-access-token", "tok");
             ("x-segment-api-url", "https://eu1.api.segmentapis.com") ] in
  let transport := fun _ : Request => Rejected (mkNativeError "TypeError" "fetch failed" "") in
  List.map req_url
    (snd (publicApiRequest transport (createSegmentClient (parseTenantCredentials h))
            "/sources" noInit []))
  = [ "https://eu1.api.segmentapis.com/sources" ].
Proof.
  intros h transport.
  assert (Hu : "https://eu1.api.segmentapis.com" <> "") by discriminate.
  assert (Ht : "tok" <> "") by discriminate.
  rewrite (proj1 (base_url_from_headers h) _ _ eq_refl Hu eq_refl Ht transport "/sources" []).
  reflexivity.
Defined.
